(** * basic_mm: quoter, order management and requote loop

    A shallow embedding of the per-symbol trading loop of the market maker
    ([src/quoting_engines/simple.py], [src/OMS.py], [src/market_maker.py]
    and the helpers they call) together with the properties checked against
    it.

    Conventions of the embedding:
    - Python floats are exact rationals ([Q]); binary rounding of the
      floating-point unit is not modelled.  The statements that fix the
      prices and amounts computed by the quoter in a scenario (C1, C4) do
      so up to [fp_tol], and allow a value rounded to a step to fall one
      step lower: 0.6/1.6 is 3/8 here and 0.37499999999999994 in
      binary64, so that the size 3.75 of scenario S1 is rounded by the
      program to 3.749.  The running sums of the volatility estimator are
      exact here and drift in binary64; no statement depends on their
      value.
    - Division is only used where the divisor is guarded, or the Python
      exception is made explicit.  A zero [mid] lies outside the model:
      numpy yields inf or nan sizes there and [round_step] raises
      [decimal.InvalidOperation] on them, where [Q] gives 0; statements
      about emitted orders assume a positive [mid].
    - [np.sqrt] is a parameter of the development ([np_sqrt]).
    - Python exceptions are explicit: a call yields [Ret v] or [Raise e]
      next to the state as mutated up to that point.
    - Wall-clock time ([time_ms]) is an oracle [tm : nat -> Z] giving the
      value of the k-th reading; the world carries the number of readings
      taken so far and the log of the calls made to the exchange. *)

From Stdlib Require Import ZArith QArith Qabs Qround Qpower Lqa Lia String List Bool
  Sorted.
From stdpp Require Import base option gmap strings list.
Import ListNotations.

Local Open Scope Q_scope.

(** ** Exceptions and outcomes *)

Inductive exn : Type :=
  | TypeError
  | ZeroDivisionError
  | AssertionError
  | ValueError
  | IndexError
  | InvalidOperation.

Inductive outcome (A : Type) : Type :=
  | Ret (a : A)
  | Raise (e : exn).
Arguments Ret {A} a.
Arguments Raise {A} e.

Definition obind {A B} (m : outcome A) (k : A -> outcome B) : outcome B :=
  match m with
  | Ret a => k a
  | Raise e => Raise e
  end.

Notation "'do' x <- m ; k" := (obind m (fun x => k))
  (at level 10, x name, m at level 100, k at level 200).

(** ** Numbers *)

Definition Qltb (x y : Q) : bool := negb (Qle_bool y x).
Definition Qgtb (x y : Q) : bool := Qltb y x.
Definition Qgeb (x y : Q) : bool := Qle_bool y x.

(** Integer part, rounding towards zero (Python's [int(x)] on a float and
    the integer quotient of [Decimal.__mod__]). *)
Definition Qtrunc (q : Q) : Z := Z.quot (Qnum q) (Zpos (Qden q)).

(** [Decimal.__mod__]: the remainder takes the sign of the dividend. *)
Definition decimal_mod (x s : Q) : Q := x - s * inject_Z (Qtrunc (x / s)).

(** utils/rounding_utils.py: [round_step].  [Decimal % 0] raises; the final
    [float(...)] is one canonical value, hence the reduced fraction. *)
Definition round_step (num step : Q) : outcome Q :=
  if Qeq_bool step 0 then Raise InvalidOperation
  else Ret (Qred (num - decimal_mod num step)).

(** utils/calc_utils.py *)
Definition nbabs (val : Q) : Q := Qabs val.

(** [np.linspace(start, end, n)] for an [n] already converted by [int]. *)
Definition linspace (start stop : Q) (n : nat) : list Q :=
  match n with
  | O => []
  | S O => [start]
  | S d => map (fun i => start + inject_Z (Z.of_nat i) * ((stop - start) / inject_Z (Z.of_nat d)))
               (seq 0 n)
  end.

(** [nblinspace(start, end, n)] with [n = num_orders/2] a float: [int(n)]
    truncates, and numpy refuses a negative count. *)
Definition nblinspace (start stop : Q) (num_orders : Z) : outcome (list Q) :=
  let n := Z.quot num_orders 2 in
  if (n <? 0)%Z then Raise ValueError
  else Ret (linspace start stop (Z.to_nat n)).

Definition Qsum (l : list Q) : Q := fold_left Qplus l 0.

(** [geometric_weights(num, r)] with [num = num_orders/2] a float. *)
Definition geometric_weights (num_orders : Z) (r : Q) : outcome (list Q) :=
  if (0 <? num_orders)%Z then
    let num := Z.to_nat (Z.quot num_orders 2) in
    let weights := map (fun i => r ^ Z.of_nat i) (seq 0 num) in
    Ret (map (fun w => w / Qsum weights) weights)
  else Raise AssertionError.

(** ** Orders (exchanges/base/structures.py, constants.py) *)

Inductive Side : Type := SELL | BUY.
Inductive OrderType : Type := MARKET | LIMIT.

Record Order : Type := mkOrder {
  symbol : string;
  side : Side;
  amount : Q;
  price : Q;
  order_type : OrderType;
  cloid : option string;
  oid : option string;
  tp : option Q
}.

(** ** Volatility estimator (quoting_engines/volatility_estimator.py) *)

Record VolatilityEstimator : Type := mkVE {
  ve_n : nat;
  ve_buffer : list Q;
  ve_sum : Q;
  ve_sum_sq : Q;
  ve_count : nat
}.

Definition VolatilityEstimator_init (window_size : nat) : VolatilityEstimator :=
  {| ve_n := window_size; ve_buffer := repeat 0 window_size;
     ve_sum := 0; ve_sum_sq := 0; ve_count := 0 |}.

(** [deque.append] on a deque with [maxlen]. *)
Definition deque_append (maxlen : nat) (buf : list Q) (x : Q) : list Q :=
  if (length buf <? maxlen)%nat then buf ++ [x]
  else match maxlen with
       | O => buf
       | S _ => tl buf ++ [x]
       end.

Section Quoter.

(** [np.sqrt] on the rationals of the model. *)
Variable np_sqrt : Q -> Q.

Definition ve_update (ve : VolatilityEstimator) (x_new : Q)
  : outcome Q * VolatilityEstimator :=
  let old :=
    if (ve_count ve <? ve_n ve)%nat then Ret (0, S (ve_count ve))
    else match ve_buffer ve with
         | [] => Raise IndexError
         | b :: _ => Ret (b, ve_count ve)
         end in
  match old with
  | Raise e => (Raise e, ve)
  | Ret (x_old, count) =>
      let ve' := {| ve_n := ve_n ve;
                    ve_buffer := deque_append (ve_n ve) (ve_buffer ve) x_new;
                    ve_sum := ve_sum ve + (x_new - x_old);
                    ve_sum_sq := ve_sum_sq ve + (x_new ^ 2 - x_old ^ 2);
                    ve_count := count |} in
      match count with
      | O => (Raise ZeroDivisionError, ve')
      | S _ =>
          let mean := ve_sum ve' / inject_Z (Z.of_nat count) in
          let var := ve_sum_sq ve' / inject_Z (Z.of_nat count) - mean ^ 2 in
          let var := if Qltb var 0 then 0 else var in
          (Ret (np_sqrt var), ve')
      end
  end.

(** ** SimpleQuoter (quoting_engines/simple.py) *)

Record QuoterConfig : Type := mkQuoterConfig {
  q_symbol : string;
  num_orders : Z;
  lot_size : Q;
  tick_size : Q;
  spread_bps : Q;
  gross_exposure_dollars : Q;
  epsilon : Q;
  inventory_max_dollars : Q
}.

Record SimpleQuoter : Type := mkQuoter {
  last_mid : Q;
  prev_bid_skew : Q;
  prev_ask_skew : Q;
  prev_vol : Q;
  volatility_estimator : VolatilityEstimator
}.

Definition SimpleQuoter_init : SimpleQuoter :=
  {| last_mid := 0; prev_bid_skew := 0; prev_ask_skew := 0; prev_vol := 0;
     volatility_estimator := VolatilityEstimator_init 30 |}.

Record LOB : Type := mkLOB {
  mid : Q;
  best_bid : Q;
  best_ask : Q;
  vol : Q
}.

Variable cfg : QuoterConfig.

Definition _skew (position_value : Q) : outcome (Q * Q) :=
  if Qeq_bool (inventory_max_dollars cfg) 0 then Raise ZeroDivisionError
  else
    let inventory_delta := position_value / inventory_max_dollars cfg in
    let bid_skew := 0 + (if Qltb inventory_delta 0 then inventory_delta else 0) in
    let ask_skew := 0 - (if Qgtb inventory_delta 0 then inventory_delta else 0) in
    let bid_skew :=
      if Qgtb position_value (- inventory_max_dollars cfg) then bid_skew else 1 in
    let ask_skew :=
      if Qltb position_value (inventory_max_dollars cfg) then ask_skew else 1 in
    Ret (nbabs bid_skew, nbabs ask_skew).

Definition _prices (mid bid_skew ask_skew vol : Q)
  : outcome (option (list Q) * option (list Q)) :=
  let n := inject_Z (num_orders cfg) in
  let base_range := (spread_bps cfg * mid) / 10000 + vol in
  let best_bid := mid - base_range / 2 in
  let best_ask := mid + base_range / 2 in
  if Qgeb bid_skew 1 then
    let bid_lower := mid - (base_range / 2 * n / 2) in
    do bid_prices <- nblinspace best_bid bid_lower (num_orders cfg);
    Ret (Some bid_prices, None)
  else if Qgeb ask_skew 1 then
    let ask_upper := mid + (base_range / 2 * n / 2) in
    do ask_prices <- nblinspace best_ask ask_upper (num_orders cfg);
    Ret (None, Some ask_prices)
  else
    let bid_lower := best_bid - (base_range / 2 * (1 - bid_skew) * (1 + ask_skew) * n / 2) in
    let ask_upper := best_ask + (base_range / 2 * (1 - ask_skew) * (1 + bid_skew) * n / 2) in
    do bid_prices <- nblinspace best_bid bid_lower (num_orders cfg);
    do ask_prices <- nblinspace best_ask ask_upper (num_orders cfg);
    Ret (Some bid_prices, Some ask_prices).

Definition _sizes (mid : Q) : outcome (list Q) :=
  do w <- geometric_weights (num_orders cfg) (6 # 10);
  Ret (rev (map (fun wi => gross_exposure_dollars cfg * wi / mid) w)).

(** The two emission loops of [generate_quote_v2]: one order per zipped
    (price, size) pair, the amount rounded before the price. *)
Fixpoint emit (sd : Side) (prices sizes : list Q) : outcome (list Order) :=
  match prices, sizes with
  | p :: ps, s :: ss =>
      do a <- round_step s (lot_size cfg);
      do pr <- round_step p (tick_size cfg);
      do rest <- emit sd ps ss;
      Ret ({| symbol := q_symbol cfg; side := sd; amount := a; price := pr;
              order_type := LIMIT; cloid := None; oid := None; tp := None |} :: rest)
  | _, _ => Ret []
  end.

Definition emit_side (sd : Side) (prices : option (list Q)) (sizes : list Q)
  : outcome (list Order) :=
  match prices with
  | Some ps => emit sd ps sizes
  | None => Ret []
  end.

Definition generate_quote_v2 (q : SimpleQuoter) (lob : LOB) (position : Q)
    (forced_requote : bool) : outcome (list Order) * SimpleQuoter :=
  let mid := mid lob in
  match _skew position with
  | Raise e => (Raise e, q)
  | Ret (bid_skew, ask_skew) =>
    let (rvol, ve') := ve_update (volatility_estimator q) mid in
    let q1 := {| last_mid := last_mid q; prev_bid_skew := prev_bid_skew q;
                 prev_ask_skew := prev_ask_skew q; prev_vol := prev_vol q;
                 volatility_estimator := ve' |} in
    match rvol with
    | Raise e => (Raise e, q1)
    | Ret vol =>
      let body :=
        do prices <- _prices mid bid_skew ask_skew vol;
        let bid_prices := fst prices in
        let ask_prices := snd prices in
        do sizes <- _sizes mid;
        let condition1 := Qgtb (last_mid q - mid) ((epsilon cfg * mid) / 10000) in
        let condition2 := false in
        let condition3 :=
          Qgtb (prev_bid_skew q - bid_skew) ((epsilon cfg * bid_skew) / 10000) in
        let condition4 :=
          Qgtb (prev_ask_skew q - ask_skew) ((epsilon cfg * ask_skew) / 10000) in
        if condition1 || condition2 || condition3 || condition4 || forced_requote then
          do bids <- emit_side BUY bid_prices sizes;
          do asks <- emit_side SELL ask_prices sizes;
          Ret (bids ++ asks)
        else Ret [] in
      match body with
      | Raise e => (Raise e, q1)
      | Ret quotes =>
          (Ret quotes,
           {| last_mid := mid; prev_bid_skew := bid_skew; prev_ask_skew := ask_skew;
              prev_vol := vol; volatility_estimator := ve' |})
      end
    end
  end.

End Quoter.

(** ** Order management (OMS.py) *)

(** Python's [s[-3:]]: the last three characters, or all of [s] when it is
    shorter. *)
Definition last3 (s : string) : string :=
  String.substring (String.length s - 3) 3 s.

(** Insertion-ordered dictionaries ([orders_state]: [oid] to [Order]);
    [find_matched_order] scans them in order. *)
Fixpoint dict_get {V} (k : string) (d : list (string * V)) : option V :=
  match d with
  | [] => None
  | (k', v) :: d' => if String.eqb k k' then Some v else dict_get k d'
  end.

Fixpoint dict_set {V} (k : string) (v : V) (d : list (string * V)) : list (string * V) :=
  match d with
  | [] => [(k, v)]
  | (k', v') :: d' =>
      if String.eqb k k' then (k, v) :: d' else (k', v') :: dict_set k v d'
  end.

Fixpoint dict_del {V} (k : string) (d : list (string * V)) : list (string * V) :=
  match d with
  | [] => []
  | (k', v') :: d' =>
      if String.eqb k k' then dict_del k d' else (k', v') :: dict_del k d'
  end.

(** Calls made to the exchange. *)
Inductive ExchCall : Type :=
  | create_order (o : Order)
  | amend_order (o : Order)
  | bulk_cancel_order (os : list Order)
  | cancel_all_orders (sym : string).

(** The world outside the worker: how many times the clock has been read,
    the calls sent to the exchange so far, and (instrumentation) how many
    times the quoting engine has been invoked. *)
Record World : Type := mkWorld {
  w_tick : nat;
  w_calls : list ExchCall;
  w_quotes : nat
}.

Definition World_init : World := {| w_tick := 0; w_calls := []; w_quotes := 0 |}.

Definition log_calls (cs : list ExchCall) (w : World) : World :=
  {| w_tick := w_tick w; w_calls := w_calls w ++ cs; w_quotes := w_quotes w |}.

Record OMSConfig : Type := mkOMSConfig {
  oms_symbol : string;
  oms_num_orders : Z;
  tp_distance : Q;
  oms_tick_size : Q
}.

Record OMS : Type := mkOMS {
  orders_state : list (string * Order);
  pending_levels : gmap string Z;
  order_count : Z
}.

Definition OMS_init : OMS :=
  {| orders_state := []; pending_levels := ∅; order_count := 0 |}.

(** [self.timeout = 10.0 * 1000] *)
Definition timeout : Z := 10000.

Definition _overwrite (st : string) : bool :=
  String.eqb st "NEW" || String.eqb st "PARTIALLY_FILLED".
Definition _remove (st : string) : bool :=
  String.eqb st "FILLED" || String.eqb st "CANCELLED".
Definition _rejected (st : string) : bool := String.eqb st "REJECTED".

(** An order-update record, a status and an order payload; the payload
    has the fields of [Order], so parsing it with the [Order] constructor
    gives the payload itself. *)
Record OrderUpdate : Type := mkUpdate {
  status : string;
  order : Order
}.

(** Python values returned to a caller that tests them for truth. *)
Inductive pyval : Type :=
  | PyNone
  | PyBool (b : bool).

Definition truthy (v : pyval) : bool :=
  match v with
  | PyNone => false
  | PyBool b => b
  end.

Definition set_pending (p : gmap string Z) (s : OMS) : OMS :=
  {| orders_state := orders_state s; pending_levels := p; order_count := order_count s |}.

Definition _remove_pending_level (level : string) (s : OMS) : OMS :=
  set_pending (delete level (pending_levels s)) s.

Section OMS.

(** [time_ms()]: the value of the k-th reading of the clock. *)
Variable tm : nat -> Z.

(** Whether the exchange answers the call it receives as number k with an
    [{"status": "ERROR"}] record. *)
Variable exch_error : nat -> bool.

Variable cfg : OMSConfig.

Definition time_ms (w : World) : Z * World :=
  (tm (w_tick w),
   {| w_tick := S (w_tick w); w_calls := w_calls w; w_quotes := w_quotes w |}).

Definition _add_pending_level (level : string) (s : OMS) (w : World) : OMS * World :=
  let (now, w') := time_ms w in
  (set_pending (<[level := now]> (pending_levels s)) s, w').

Definition _cleanup_stale_pending (level : string) (s : OMS) (w : World) : OMS * World :=
  match pending_levels s !! level with
  | None => (s, w)
  | Some t =>
      let (curr, w') := time_ms w in
      if (timeout <? curr - t)%Z
      then (set_pending (delete level (pending_levels s)) s, w')
      else (s, w')
  end.

Definition _is_level_pending (level : string) (s : OMS) (w : World) : bool * OMS * World :=
  let (s', w') := _cleanup_stale_pending level s w in
  (bool_decide (is_Some (pending_levels s' !! level)), s', w').

(** One iteration of the loop of [update_orders_state]; [filled] is the
    list of fills collected so far. *)
Definition update_orders_step (s : OMS) (filled : list Order) (u : OrderUpdate)
  : outcome (OMS * list Order) :=
  match cloid (order u) with
  | None => Raise TypeError
  | Some c =>
    let level := last3 c in
    if _overwrite (status u) then
      let parsed_order := order u in
      match oid parsed_order with
      | Some o =>
          let s1 := {| orders_state := dict_set o parsed_order (orders_state s);
                       pending_levels := pending_levels s;
                       order_count := order_count s |} in
          if negb (String.eqb level "_tp") then
            Ret (_remove_pending_level level
                   {| orders_state := orders_state s1;
                      pending_levels := pending_levels s1;
                      order_count := (order_count s1 + 1)%Z |}, filled)
          else Ret (s1, filled)
      | None =>
          if negb (String.eqb level "") && negb (String.eqb level "_tp")
          then Ret (_remove_pending_level level s, filled)
          else Ret (s, filled)
      end
    else if _remove (status u) then
      let is_tp := String.eqb (last3 c) "_tp" in
      match oid (order u) with
      | Some o =>
          match dict_get o (orders_state s) with
          | Some stored =>
              let filled' :=
                if String.eqb (status u) "FILLED" && negb is_tp
                then filled ++ [stored] else filled in
              let s1 := {| orders_state := dict_del o (orders_state s);
                           pending_levels := pending_levels s;
                           order_count := order_count s |} in
              if negb is_tp then
                Ret (_remove_pending_level level
                       {| orders_state := orders_state s1;
                          pending_levels := pending_levels s1;
                          order_count := (order_count s1 - 1)%Z |}, filled')
              else Ret (s1, filled')
          | None => Ret (s, filled)
          end
      | None => Ret (s, filled)
      end
    else if _rejected (status u) then
      Ret (_remove_pending_level level s, filled)
    else Ret (s, filled)
  end.

(** The loop; an exception leaves the state as mutated so far. *)
Fixpoint update_orders_loop (s : OMS) (filled : list Order) (data : list OrderUpdate)
  : outcome (list Order) * OMS :=
  match data with
  | [] => (Ret filled, s)
  | u :: rest =>
      match update_orders_step s filled u with
      | Raise e => (Raise e, s)
      | Ret (s', filled') => update_orders_loop s' filled' rest
      end
  end.

(** [update_orders_state]: the value returned, the new state, and the batch
    of fills handed to [asyncio.create_task(_place_take_profits(filled))]
    when there is one.  The body has no [return] statement. *)
Definition update_orders_state (s : OMS) (data : list OrderUpdate)
  : outcome pyval * OMS * option (list Order) :=
  match update_orders_loop s [] data with
  | (Raise e, s') => (Raise e, s', None)
  | (Ret filled, s') =>
      (Ret PyNone, s', match filled with [] => None | _ => Some filled end)
  end.

Definition take_profit_order (o : Order) : outcome Order :=
  match cloid o with
  | None =>
      (* the price is computed before [order.cloid + "_tp"] fails *)
      do _p <- round_step (match side o with
                           | BUY => price o * (1 + tp_distance cfg / 10000)
                           | SELL => price o * (1 - tp_distance cfg / 10000)
                           end) (oms_tick_size cfg);
      Raise TypeError
  | Some c =>
      do p <- round_step (match side o with
                          | BUY => price o * (1 + tp_distance cfg / 10000)
                          | SELL => price o * (1 - tp_distance cfg / 10000)
                          end) (oms_tick_size cfg);
      Ret {| symbol := oms_symbol cfg;
             side := match side o with BUY => SELL | SELL => BUY end;
             amount := amount o;
             price := p;
             order_type := LIMIT;
             cloid := Some (c ++ "_tp")%string;
             oid := None;
             tp := None |}
  end.

Fixpoint take_profit_orders (filled : list Order) : outcome (list Order) :=
  match filled with
  | [] => Ret []
  | o :: rest =>
      do t <- take_profit_order o;
      do ts <- take_profit_orders rest;
      Ret (t :: ts)
  end.

Definition place_orders (orders : list Order) (w : World) : World :=
  log_calls (map create_order orders) w.

Definition amend_orders (orders : list Order) (w : World) : World :=
  log_calls (map amend_order orders) w.

Definition cancel_orders (orders : list Order) (w : World) : World :=
  log_calls [bulk_cancel_order orders] w.

(** [_place_take_profits]: any exception while the orders are built is
    caught and logged, and nothing is sent. *)
Definition _place_take_profits (filled_orders : list Order) (w : World) : World :=
  match take_profit_orders filled_orders with
  | Ret tp_orders => place_orders tp_orders w
  | Raise _ => w
  end.

Definition cancel_all (s : OMS) (w : World) : OMS * World :=
  let err := exch_error (length (w_calls w)) in
  let w' := log_calls [cancel_all_orders (oms_symbol cfg)] w in
  if err then (s, w') else (set_pending ∅ s, w').

Definition is_out_of_bounds (old_order : option Order) (new_order : Order) (mid : Q)
    (sensitivity : Q) : bool :=
  match old_order with
  | None => false
  | Some old =>
      let distance_from_mid := nbabs (price old - mid) in
      let buffer := distance_from_mid * sensitivity in
      if Qgtb (price new_order) (price old + buffer) then true
      else if Qltb (price new_order) (price old - buffer) then true
      else false
  end.

(** The scan of [find_matched_order] over [orders_state.items()], for the
    level of the new order. *)
Fixpoint find_level (lvl : string) (d : list (string * Order)) : outcome (option Order) :=
  match d with
  | [] => Ret None
  | (_, current_order) :: d' =>
      match cloid current_order with
      | None => Raise TypeError
      | Some c => if String.eqb (last3 c) lvl then Ret (Some current_order)
                  else find_level lvl d'
      end
  end.

Definition find_matched_order (s : OMS) (new_order : Order) : outcome (option Order) :=
  match cloid new_order with
  | None => Raise TypeError
  | Some c => find_level (last3 c) (orders_state s)
  end.

(** The buckets filled by the loop of [update] ([cancels] stays empty). *)
Record Buckets : Type := mkBuckets {
  limits : list Order;
  markets : list Order;
  cancels : list Order;
  amends : list Order
}.

Definition Buckets_init : Buckets :=
  {| limits := []; markets := []; cancels := []; amends := [] |}.

Definition with_oid (o : Order) (v : option string) : Order :=
  {| symbol := symbol o; side := side o; amount := amount o; price := price o;
     order_type := order_type o; cloid := cloid o; oid := v; tp := tp o |}.

Definition classify_step (mid : Q) (s : OMS) (w : World) (b : Buckets) (o : Order)
  : outcome Buckets * OMS * World :=
  match order_type o with
  | MARKET =>
      (Ret {| limits := limits b; markets := markets b ++ [o];
              cancels := cancels b; amends := amends b |}, s, w)
  | LIMIT =>
      match cloid o with
      | None => (Raise TypeError, s, w)
      | Some c =>
          let level := last3 c in
          let '(pending, s1, w1) := _is_level_pending level s w in
          if pending then (Ret b, s1, w1)
          else
            match find_matched_order s1 o with
            | Raise e => (Raise e, s1, w1)
            | Ret (Some matched_old_order) =>
                if is_out_of_bounds (Some matched_old_order) o mid (1 # 10) then
                  let (s2, w2) := _add_pending_level level s1 w1 in
                  (Ret {| limits := limits b; markets := markets b;
                          cancels := cancels b;
                          amends := amends b ++ [with_oid o (cloid matched_old_order)] |},
                   s2, w2)
                else (Ret b, s1, w1)
            | Ret None =>
                let (s2, w2) := _add_pending_level level s1 w1 in
                (Ret {| limits := limits b ++ [o]; markets := markets b;
                        cancels := cancels b; amends := amends b |}, s2, w2)
            end
      end
  end.

Fixpoint classify (mid : Q) (s : OMS) (w : World) (b : Buckets) (new_orders : list Order)
  : outcome Buckets * OMS * World :=
  match new_orders with
  | [] => (Ret b, s, w)
  | o :: rest =>
      match classify_step mid s w b o with
      | (Raise e, s', w') => (Raise e, s', w')
      | (Ret b', s', w') => classify mid s' w' b' rest
      end
  end.

Definition when {A} (c : bool) (f : A -> A) (a : A) : A := if c then f a else a.

Definition nonempty {A} (l : list A) : bool :=
  match l with [] => false | _ => true end.

(** What [update] does with the buckets. *)
Definition dispatch (b : Buckets) (s : OMS) (w : World) : OMS * World :=
  let (s1, w1) :=
    if nonempty (markets b) then cancel_all s (place_orders (markets b) w)
    else (s, w) in
  let w2 := when (nonempty (cancels b)) (cancel_orders (cancels b)) w1 in
  let w3 := when (nonempty (limits b)) (place_orders (limits b)) w2 in
  let w4 := when (nonempty (amends b)) (amend_orders (amends b)) w3 in
  if (oms_num_orders cfg <? order_count s1)%Z then cancel_all s1 w4
  else (s1, w4).

Definition update (s : OMS) (w : World) (new_orders : list Order) (lob : LOB)
  : outcome unit * OMS * World :=
  match classify (mid lob) s w Buckets_init new_orders with
  | (Raise e, s', w') => (Raise e, s', w')
  | (Ret b, s', w') =>
      let (s'', w'') := dispatch b s' w' in (Ret tt, s'', w'')
  end.

End OMS.

(** ** LOB and position managers (lob_manager.py, position_manager.py) *)

Record OrderbookData : Type := mkOrderbookData {
  ob_mid : Q;
  ob_best_bid : Q;
  ob_best_ask : Q
}.

Record LOBManager : Type := mkLOBManager {
  lm_mid : Q;
  lm_best_bid : Q;
  lm_best_ask : Q;
  usdcusdt_rate : Q;
  lm_vol : Q;
  lm_volatility_estimator : VolatilityEstimator
}.

Definition LOBManager_init : LOBManager :=
  {| lm_mid := 0; lm_best_bid := 0; lm_best_ask := 0; usdcusdt_rate := 1;
     lm_vol := 0; lm_volatility_estimator := VolatilityEstimator_init 30 |}.

Definition get_lob (l : LOBManager) : LOB :=
  {| mid := lm_mid l; best_bid := lm_best_bid l; best_ask := lm_best_ask l;
     vol := lm_vol l |}.

Record PositionUpdate : Type := mkPositionUpdate {
  p_symbol : string;
  p_status : string;
  p_value : Q;
  p_side : Q
}.

Definition update_positions (positions : gmap string Q) (data : list PositionUpdate)
  : gmap string Q :=
  fold_left (fun ps pos =>
               let net_position := p_value pos * p_side pos in
               if String.eqb (p_status pos) "CLOSED" then delete (p_symbol pos) ps
               else <[p_symbol pos := net_position]> ps)
            data positions.

Definition get_position (positions : gmap string Q) (sym : string) : Q :=
  default 0 (positions !! sym).

(** ** The per-symbol worker (market_maker.py) *)

Record MMConfig : Type := mkMMConfig {
  quoter_config : QuoterConfig;
  oms_config : OMSConfig;
  cfg_min_requote_interval : Q
}.

Record MarketMaker : Type := mkMarketMaker {
  exch_symbol : string;
  has_orderbook : bool;
  has_position : bool;
  has_usdcusdt : bool;
  last_requote_time : Z;
  min_requote_interval : Q;
  quoting_engine : SimpleQuoter;
  oms : OMS;
  position_manager : gmap string Q;
  lob_manager : LOBManager
}.

Inductive Event : Type :=
  | ev_orderbook (d : OrderbookData)
  | ev_position (d : list PositionUpdate)
  | ev_order (d : list OrderUpdate)
  | ev_usdcusdt (d : OrderbookData)
  | ev_other (event_type : string).

Section MarketMaker.

Variable np_sqrt : Q -> Q.
Variable tm : nat -> Z.
Variable exch_error : nat -> bool.
Variable config : MMConfig.

(** [__init__].  The exchange symbol is taken as given: the source builds
    it with [SymbolConverter().to_exch(symbol)], a constructor call that
    lacks its [exch_rep] argument. *)
Definition MarketMaker_init (exch_sym : string) : MarketMaker :=
  {| exch_symbol := exch_sym;
     has_orderbook := false; has_position := false; has_usdcusdt := false;
     last_requote_time := 0;
     min_requote_interval := cfg_min_requote_interval config * 1000;
     quoting_engine := SimpleQuoter_init;
     oms := OMS_init;
     position_manager := ∅;
     lob_manager := LOBManager_init |}.

Definition update_lob (l : LOBManager) (data : OrderbookData) : outcome unit * LOBManager :=
  let (r, ve') := ve_update np_sqrt (lm_volatility_estimator l) (ob_mid data) in
  match r with
  | Raise e =>
      (Raise e,
       {| lm_mid := ob_mid data; lm_best_bid := ob_best_bid data;
          lm_best_ask := ob_best_ask data; usdcusdt_rate := usdcusdt_rate l;
          lm_vol := lm_vol l; lm_volatility_estimator := ve' |})
  | Ret sd =>
      (Ret tt,
       {| lm_mid := ob_mid data; lm_best_bid := ob_best_bid data;
          lm_best_ask := ob_best_ask data; usdcusdt_rate := usdcusdt_rate l;
          lm_vol := sd / ob_mid data; lm_volatility_estimator := ve' |})
  end.

Definition update_usdcusdt_rate (l : LOBManager) (data : OrderbookData) : LOBManager :=
  {| lm_mid := lm_mid l; lm_best_bid := lm_best_bid l; lm_best_ask := lm_best_ask l;
     usdcusdt_rate := ob_mid data; lm_vol := lm_vol l;
     lm_volatility_estimator := lm_volatility_estimator l |}.

Definition set_last_requote_time (t : Z) (m : MarketMaker) : MarketMaker :=
  {| exch_symbol := exch_symbol m; has_orderbook := has_orderbook m;
     has_position := has_position m; has_usdcusdt := has_usdcusdt m;
     last_requote_time := t; min_requote_interval := min_requote_interval m;
     quoting_engine := quoting_engine m; oms := oms m;
     position_manager := position_manager m; lob_manager := lob_manager m |}.

Definition set_quoting_engine (q : SimpleQuoter) (m : MarketMaker) : MarketMaker :=
  {| exch_symbol := exch_symbol m; has_orderbook := has_orderbook m;
     has_position := has_position m; has_usdcusdt := has_usdcusdt m;
     last_requote_time := last_requote_time m;
     min_requote_interval := min_requote_interval m;
     quoting_engine := q; oms := oms m;
     position_manager := position_manager m; lob_manager := lob_manager m |}.

Definition set_oms (s : OMS) (m : MarketMaker) : MarketMaker :=
  {| exch_symbol := exch_symbol m; has_orderbook := has_orderbook m;
     has_position := has_position m; has_usdcusdt := has_usdcusdt m;
     last_requote_time := last_requote_time m;
     min_requote_interval := min_requote_interval m;
     quoting_engine := quoting_engine m; oms := s;
     position_manager := position_manager m; lob_manager := lob_manager m |}.

Definition count_quote (w : World) : World :=
  {| w_tick := w_tick w; w_calls := w_calls w; w_quotes := S (w_quotes w) |}.

(** [requote]; the latency statistics are not part of the model. *)
Definition requote (m : MarketMaker) (w : World) (forced_requote : bool)
  : outcome unit * MarketMaker * World :=
  let (current_time, w1) := time_ms tm w in
  if negb forced_requote
     && Qltb (inject_Z (current_time - last_requote_time m)) (min_requote_interval m)
  then (Ret tt, m, w1)
  else
    let m1 := set_last_requote_time current_time m in
    let lob := get_lob (lob_manager m1) in
    let pos := get_position (position_manager m1) (exch_symbol m1) in
    let (r, q') :=
      generate_quote_v2 np_sqrt (quoter_config config) (quoting_engine m1)
        lob pos forced_requote in
    let m2 := set_quoting_engine q' m1 in
    let w2 := count_quote w1 in
    match r with
    | Raise e => (Raise e, m2, w2)
    | Ret [] => (Ret tt, m2, w2)
    | Ret quotes =>
        let '(r', s', w3) :=
          update tm exch_error (oms_config config) (oms m2) w2 quotes lob in
        (r', set_oms s' m2, w3)
    end.

Definition _on_usdcusdt_updates (m : MarketMaker) (w : World) (data : OrderbookData)
  : outcome unit * MarketMaker * World :=
  let m1 :=
    {| exch_symbol := exch_symbol m; has_orderbook := has_orderbook m;
       has_position := has_position m; has_usdcusdt := true;
       last_requote_time := last_requote_time m;
       min_requote_interval := min_requote_interval m;
       quoting_engine := quoting_engine m; oms := oms m;
       position_manager := position_manager m;
       lob_manager := update_usdcusdt_rate (lob_manager m) data |} in
  requote m1 w false.

Definition _on_orderbook_updates (m : MarketMaker) (w : World) (data : OrderbookData)
  : outcome unit * MarketMaker * World :=
  let (r, l') := update_lob (lob_manager m) data in
  let with_lob hob :=
    {| exch_symbol := exch_symbol m; has_orderbook := hob;
       has_position := has_position m; has_usdcusdt := has_usdcusdt m;
       last_requote_time := last_requote_time m;
       min_requote_interval := min_requote_interval m;
       quoting_engine := quoting_engine m; oms := oms m;
       position_manager := position_manager m; lob_manager := l' |} in
  match r with
  | Raise e => (Raise e, with_lob (has_orderbook m), w)
  | Ret _ => requote (with_lob true) w false
  end.

Definition _on_position_updates (m : MarketMaker) (w : World) (data : list PositionUpdate)
  : outcome unit * MarketMaker * World :=
  let m1 :=
    {| exch_symbol := exch_symbol m; has_orderbook := has_orderbook m;
       has_position := true; has_usdcusdt := has_usdcusdt m;
       last_requote_time := last_requote_time m;
       min_requote_interval := min_requote_interval m;
       quoting_engine := quoting_engine m; oms := oms m;
       position_manager := update_positions (position_manager m) data;
       lob_manager := lob_manager m |} in
  requote m1 w false.

(** [_on_order_updates]; the take-profit task created by
    [update_orders_state] runs once the handler has given control back. *)
Definition _on_order_updates (m : MarketMaker) (w : World) (data : list OrderUpdate)
  : outcome unit * MarketMaker * World :=
  let '(r, s', task) := update_orders_state (oms m) data in
  let m1 := set_oms s' m in
  let run_task w0 :=
    match task with
    | Some filled => _place_take_profits (oms_config config) filled w0
    | None => w0
    end in
  match r with
  | Raise e => (Raise e, m1, w)
  | Ret requote_on_filled =>
      if truthy requote_on_filled then
        let '(r', m2, w') := requote m1 w false in (r', m2, run_task w')
      else (Ret tt, m1, run_task w)
  end.

(** [_process_event]: the time-to-task measurement reads the clock
    ([measure_t2t] is set), then the event is dispatched on its type. *)
Definition _process_event (m : MarketMaker) (w : World) (ev : Event)
  : outcome unit * MarketMaker * World :=
  let (_, w0) := time_ms tm w in
  match ev with
  | ev_orderbook d => _on_orderbook_updates m w0 d
  | ev_position d => _on_position_updates m w0 d
  | ev_order d => _on_order_updates m w0 d
  | ev_usdcusdt d => _on_usdcusdt_updates m w0 d
  | ev_other _ => (Ret tt, m, w0)
  end.

(** [_process_events] over the events of the queue, in order: an exception
    in a handler is caught and logged, and the loop goes on. *)
Fixpoint _process_events (m : MarketMaker) (w : World) (evs : list Event)
  : MarketMaker * World :=
  match evs with
  | [] => (m, w)
  | ev :: rest =>
      let '(_, m', w') := _process_event m w ev in
      _process_events m' w' rest
  end.

End MarketMaker.

(** ** Further parts of the source *)

Section LegacyQuoter.

Variable np_sqrt : Q -> Q.
Variable cfg : QuoterConfig.

(** The loop of [generate_quote] over the zipped prices and sizes: a BUY
    and then a SELL order per step. *)
Fixpoint emit_pairs (bid_prices bid_sizes ask_prices ask_sizes : list Q)
  : outcome (list Order) :=
  match bid_prices, bid_sizes, ask_prices, ask_sizes with
  | bp :: bps, bs :: bss, ap :: aps, az :: azs =>
      do ba <- round_step bs (lot_size cfg);
      do bpr <- round_step bp (tick_size cfg);
      do aa <- round_step az (lot_size cfg);
      do apr <- round_step ap (tick_size cfg);
      do rest <- emit_pairs bps bss aps azs;
      Ret ({| symbol := q_symbol cfg; side := BUY; amount := ba; price := bpr;
              order_type := LIMIT; cloid := None; oid := None; tp := None |}
           :: {| symbol := q_symbol cfg; side := SELL; amount := aa; price := apr;
                 order_type := LIMIT; cloid := None; oid := None; tp := None |}
           :: rest)
  | _, _, _, _ => Ret []
  end.

Definition set_last_mid (m : Q) (q : SimpleQuoter) : SimpleQuoter :=
  {| last_mid := m; prev_bid_skew := prev_bid_skew q;
     prev_ask_skew := prev_ask_skew q; prev_vol := prev_vol q;
     volatility_estimator := volatility_estimator q |}.

Definition set_volatility_estimator (ve : VolatilityEstimator) (q : SimpleQuoter)
  : SimpleQuoter :=
  {| last_mid := last_mid q; prev_bid_skew := prev_bid_skew q;
     prev_ask_skew := prev_ask_skew q; prev_vol := prev_vol q;
     volatility_estimator := ve |}.

(** [generate_quote], the first version of the quoter: [zip] over a
    ladder that is [None] raises [TypeError]. *)
Definition generate_quote (q : SimpleQuoter) (update : OrderbookData)
    (position_value : Q) : outcome (list Order) * SimpleQuoter :=
  let mid := ob_mid update in
  if Qgtb (last_mid q - mid) ((epsilon cfg * mid) / 10000) then
    match _skew cfg position_value with
    | Raise e => (Raise e, q)
    | Ret (bid_skew, ask_skew) =>
      let (rvol, ve') := ve_update np_sqrt (volatility_estimator q) mid in
      let q1 := set_volatility_estimator ve' q in
      match rvol with
      | Raise e => (Raise e, q1)
      | Ret vol =>
        let body :=
          do prices <- _prices cfg mid bid_skew ask_skew vol;
          do sizes <- _sizes cfg mid;
          match fst prices, snd prices with
          | Some bid_prices, Some ask_prices =>
              emit_pairs bid_prices sizes ask_prices sizes
          | _, _ => Raise TypeError
          end in
        match body with
        | Raise e => (Raise e, q1)
        | Ret quotes => (Ret quotes, set_last_mid mid q1)
        end
      end
    end
  else (Ret [], set_last_mid mid q).

End LegacyQuoter.

(** [OMS.simple_update]: cancel everything, then place the orders as they
    are. *)
Definition simple_update (exch_error : nat -> bool) (cfg : OMSConfig) (s : OMS)
    (w : World) (new_orders : list Order) : OMS * World :=
  let (s1, w1) := cancel_all exch_error cfg s w in
  (s1, place_orders new_orders w1).

(** ** Event bus (core/event_bus.py, core/events.py) *)

Record QueuedEvent (D : Type) : Type := mkQueuedEvent {
  seq_id : nat;
  event_type : string;
  data : D;
  ts_ms : Z
}.
Arguments mkQueuedEvent {D}.
Arguments seq_id {D}.
Arguments event_type {D}.
Arguments data {D}.
Arguments ts_ms {D}.

(** An [EventBus] over an unbounded [asyncio.Queue] ([maxsize = 0], the
    value every bus of the program is created with). *)
Record EventBus (D : Type) : Type := mkEventBus {
  _queue : list (QueuedEvent D);
  _last_id : nat;
  _closed : bool
}.
Arguments mkEventBus {D}.
Arguments _queue {D}.
Arguments _last_id {D}.
Arguments _closed {D}.

Inductive bus_error : Type :=
  | QueueClosed
  | UnknownStreamKey.

Definition EventBus_init {D} : EventBus D :=
  {| _queue := []; _last_id := 0; _closed := false |}.

Section EventBus.

Context {D : Type}.
Variable tm : nat -> Z.

(** [EventBus.put]: the sequence number, or the [RuntimeError] of a closed
    queue. *)
Definition bus_put (b : EventBus D) (w : World) (ty : string) (d : D)
  : (bus_error + nat) * EventBus D * World :=
  if _closed b then (inl QueueClosed, b, w)
  else
    let id := S (_last_id b) in
    let (now, w') := time_ms tm w in
    (inr id,
     {| _queue := _queue b ++ [{| seq_id := id; event_type := ty; data := d;
                                  ts_ms := now |}];
        _last_id := id; _closed := false |},
     w').

(** [EventBus.get]: the oldest event; [None] when the queue is empty and
    the caller stays suspended. *)
Definition bus_get (b : EventBus D) : option (QueuedEvent D * EventBus D) :=
  match _queue b with
  | [] => None
  | e :: rest =>
      Some (e, {| _queue := rest; _last_id := _last_id b; _closed := _closed b |})
  end.

Definition bus_empty (b : EventBus D) : bool :=
  match _queue b with [] => true | _ => false end.

Definition bus_close (b : EventBus D) : EventBus D :=
  {| _queue := _queue b; _last_id := _last_id b; _closed := true |}.

(** [MultiEventBus]: one bus per stream key. *)
Definition MultiEventBus_init (stream_keys : list string) : gmap string (EventBus D) :=
  fold_left (fun qs key => <[key := EventBus_init]> qs) stream_keys ∅.

Definition multi_put (qs : gmap string (EventBus D)) (w : World) (key ty : string)
    (d : D) : (bus_error + nat) * gmap string (EventBus D) * World :=
  match qs !! key with
  | None => (inl UnknownStreamKey, qs, w)
  | Some b =>
      let '(r, b', w') := bus_put b w ty d in
      (r, <[key := b']> qs, w')
  end.

Definition multi_get (qs : gmap string (EventBus D)) (key : string)
  : bus_error + option (QueuedEvent D * gmap string (EventBus D)) :=
  match qs !! key with
  | None => inl UnknownStreamKey
  | Some b =>
      inr (match bus_get b with
           | None => None
           | Some (e, b') => Some (e, <[key := b']> qs)
           end)
  end.

Definition multi_empty (qs : gmap string (EventBus D)) (key : string)
  : bus_error + bool :=
  match qs !! key with
  | None => inl UnknownStreamKey
  | Some b => inr (bus_empty b)
  end.

Definition multi_close (qs : gmap string (EventBus D)) (key : string)
  : bus_error + gmap string (EventBus D) :=
  match qs !! key with
  | None => inl UnknownStreamKey
  | Some b => inr (<[key := bus_close b]> qs)
  end.

End EventBus.

(** ** Scenarios and auxiliary predicates *)

(** A rational square root, exact on squares of rationals. *)
Definition Qsqrt (q : Q) : Q := Z.sqrt (Qnum q * Zpos (Qden q)) # Qden q.

(** The configuration of scenario S1. *)
Definition S1_config : QuoterConfig :=
  {| q_symbol := "S"; num_orders := 4; lot_size := 1 # 1000; tick_size := 1 # 10;
     spread_bps := 10; gross_exposure_dollars := 1000; epsilon := 1;
     inventory_max_dollars := 10000 |}.

Definition S1_lob : LOB :=
  {| mid := 100; best_bid := 9995 # 100; best_ask := 10005 # 100; vol := 0 |}.

Definition limit_order (sd : Side) (p a : Q) (c : option string) : Order :=
  {| symbol := "S"; side := sd; amount := a; price := p; order_type := LIMIT;
     cloid := c; oid := None; tp := None |}.

(** The estimator can serve one more sample without raising. *)
Definition ve_ok (ve : VolatilityEstimator) : Prop :=
  (ve_count ve < ve_n ve)%nat \/ (ve_buffer ve <> [] /\ ve_count ve <> O).

(** The result of [_prices] holds the ladder of one side only. *)
Definition one_sided (cfg : QuoterConfig) (sd : Side)
    (r : option (list Q) * option (list Q)) : Prop :=
  match sd with
  | BUY => exists l, r = (Some l, None)
             /\ length l = Z.to_nat (Z.quot (num_orders cfg) 2)
  | SELL => exists l, r = (None, Some l)
             /\ length l = Z.to_nat (Z.quot (num_orders cfg) 2)
  end.

(** The orders that the specification expects in scenario S1. *)
Definition S1_claimed_quotes : list Order :=
  [limit_order BUY (999 # 10) (15 # 4) None;
   limit_order BUY (997 # 10) (25 # 4) None;
   limit_order SELL 100 (15 # 4) None;
   limit_order SELL (1002 # 10) (25 # 4) None].

(** A quoter that has seen a mid of 101 on its previous call. *)
Definition warm_quoter : SimpleQuoter :=
  {| last_mid := 101; prev_bid_skew := 0; prev_ask_skew := 0; prev_vol := 0;
     volatility_estimator := VolatilityEstimator_init 30 |}.

(** The world after [n] more readings of the clock. *)
Definition advance (n : nat) (w : World) : World :=
  {| w_tick := n + w_tick w; w_calls := w_calls w; w_quotes := w_quotes w |}.

(** The level tag of an order, when it has a client order id. *)
Definition level_is (L : string) (o : Order) : Prop :=
  exists c, cloid o = Some c /\ last3 c = L.

(** A placement or an amendment of a LIMIT order of level [L]. *)
Definition acts_on_level (L : string) (call : ExchCall) : Prop :=
  match call with
  | create_order o | amend_order o => order_type o = LIMIT /\ level_is L o
  | _ => False
  end.

(** What the loop of [update] keeps true of its buckets while level [L]
    is pending. *)
Definition buckets_avoid (L : string) (b : Buckets) : Prop :=
  Forall (fun o => order_type o = MARKET) (markets b)
  /\ Forall (fun o => order_type o = LIMIT /\ ~ level_is L o) (limits b)
  /\ Forall (fun o => order_type o = LIMIT /\ ~ level_is L o) (amends b)
  /\ cancels b = [].

(** The OMS configuration of the scenarios. *)
Definition S_oms_config : OMSConfig :=
  {| oms_symbol := "S"; oms_num_orders := 4; tp_distance := 5; oms_tick_size := 1 # 10 |}.

Definition S_config : MMConfig :=
  {| quoter_config := S1_config; oms_config := S_oms_config;
     cfg_min_requote_interval := 100 |}.

(** The ladder of S1 as it would look with level tags. *)
Definition S1_ladder : list Order :=
  [limit_order BUY (999 # 10) (15 # 4) (Some "BUY_000");
   limit_order BUY (499 # 5) (25 # 4) (Some "BUY_001");
   limit_order SELL 100 (15 # 4) (Some "SELL_002");
   limit_order SELL (1001 # 10) (25 # 4) (Some "SELL_003")].

Definition order_update (st : string) (o : Order) (id : string) : OrderUpdate :=
  {| status := st; order := with_oid o (Some id) |}.

(** Clocks and exchanges of the scenarios: readings one millisecond
    apart, readings 200 seconds apart, an exchange that accepts every
    call and one that answers every call with an error record. *)
Definition clock_ms (k : nat) : Z := (1700000000000 + Z.of_nat k)%Z.
Definition clock_far (k : nat) : Z := (1700000000000 + 200000 * Z.of_nat k)%Z.
Definition exch_ok (k : nat) : bool := false.
Definition exch_down (k : nat) : bool := true.

Definition book_101 : OrderbookData :=
  {| ob_mid := 101; ob_best_bid := 10095 # 100; ob_best_ask := 10105 # 100 |}.
Definition book_100 : OrderbookData :=
  {| ob_mid := 100; ob_best_bid := 9995 # 100; ob_best_ask := 10005 # 100 |}.

(** Five live orders that are not part of the ladder of S1. *)
Definition foreign_orders : list OrderUpdate :=
  [order_update "NEW" (limit_order BUY 90 1 (Some "OLD_100")) "A";
   order_update "NEW" (limit_order BUY 91 1 (Some "OLD_101")) "B";
   order_update "NEW" (limit_order BUY 92 1 (Some "OLD_102")) "C";
   order_update "NEW" (limit_order SELL 110 1 (Some "OLD_103")) "D";
   order_update "NEW" (limit_order SELL 111 1 (Some "OLD_104")) "E"].

(** Every order of the list is a LIMIT order whose level is pending, with
    an entry within the timeout at each of the readings of the clock that
    [update] makes for the list. *)
Definition all_pending (tm : nat -> Z) (s : OMS) (w : World) (new_orders : list Order)
  : Prop :=
  Forall (fun o => order_type o = LIMIT
                   /\ exists c t, cloid o = Some c
                        /\ pending_levels s !! last3 c = Some t
                        /\ forall k, (w_tick w <= k < w_tick w + length new_orders)%nat ->
                                     (tm k - t <= timeout)%Z) new_orders.

(** Since when the level of an order has been pending, if it is. *)
Definition pending_since (s : OMS) (o : Order) : option Z :=
  match cloid o with
  | Some c => pending_levels s !! last3 c
  | None => None
  end.

(** Scenario S2: the OMS and the world after the ladder of S1 has been
    handed to [update] once, from the initial state. *)
Definition S2_start : OMS * World :=
  let r := update clock_ms exch_ok S_oms_config OMS_init World_init S1_ladder S1_lob in
  (snd (fst r), snd r).

(** The take-profit price of a filled order. *)
Definition take_profit_price (cfg : OMSConfig) (o : Order) : Q :=
  let target := match side o with
                | BUY => price o * (1 + tp_distance cfg / 10000)
                | SELL => price o * (1 - tp_distance cfg / 10000)
                end in
  Qred (target - decimal_mod target (oms_tick_size cfg)).

Definition opposite (sd : Side) : Side :=
  match sd with BUY => SELL | SELL => BUY end.

(** Whether a stored order is a take-profit child, by its level tag. *)
Definition is_tp_order (o : Order) : bool :=
  match cloid o with
  | Some c => String.eqb (last3 c) "_tp"
  | None => false
  end.

(** The number of entries of [orders_state] that are not take-profit
    children. *)
Definition non_tp_entries (s : OMS) : Z :=
  Z.of_nat (length (filter (fun kv => negb (is_tp_order (snd kv))) (orders_state s))).

(** A sequence of batches handed to [update_orders_state], one by one. *)
Definition run_batches (s : OMS) (batches : list (list OrderUpdate)) : OMS :=
  fold_left (fun s0 data => snd (fst (update_orders_state s0 data))) batches s.

(** Scenario S3: the four orders of the ladder have been acknowledged by
    the exchange, under the ids X0 to X3. *)
Definition S3_start : OMS :=
  run_batches (fst S2_start)
    [[order_update "NEW" (limit_order BUY (999 # 10) (15 # 4) (Some "BUY_000")) "X0";
      order_update "NEW" (limit_order BUY (499 # 5) (25 # 4) (Some "BUY_001")) "X1";
      order_update "NEW" (limit_order SELL 100 (15 # 4) (Some "SELL_002")) "X2";
      order_update "NEW" (limit_order SELL (1001 # 10) (25 # 4) (Some "SELL_003")) "X3"]].

Definition S3_fill : OrderUpdate :=
  order_update "FILLED" (limit_order BUY (999 # 10) (15 # 4) (Some "BUY_000")) "X0".

(** An entry is within the timeout at one of the readings [k] of the clock
    made between two worlds. *)
Definition fresh_between (tm : nat -> Z) (w w' : World) (t : Z) : Prop :=
  exists k, (w_tick w <= k < w_tick w')%nat /\ (tm k - t <= timeout)%Z.

(** A clock whose readings are 75 ms apart: two events of the worker are
    then handled 150 ms apart. *)
Definition clock_75 (k : nat) : Z := (1700000000000 + 75 * Z.of_nat k)%Z.

(** Scenario S5: the readings of the clock for two orderbook events whose
    requotes are 10 ms apart. *)
Definition clock_S5 (k : nat) : Z := (1700000000000 + 5 * Z.of_nat k)%Z.

(** An order as the quoter builds it: a LIMIT order of the configured
    symbol, without ids, whose price and amount are whole numbers of ticks
    and lots. *)
Definition on_grid (cfg : QuoterConfig) (o : Order) : Prop :=
  symbol o = q_symbol cfg /\ order_type o = LIMIT
  /\ cloid o = None /\ oid o = None
  /\ (exists n, price o == tick_size cfg * inject_Z n)
  /\ (exists n, amount o == lot_size cfg * inject_Z n).

(** The window of the estimator is full and the count is within it. *)
Definition ve_shape (ve : VolatilityEstimator) : Prop :=
  length (ve_buffer ve) = ve_n ve /\ (ve_count ve <= ve_n ve)%nat.

(** The tolerance of the statements about computed prices and amounts:
    far above the rounding error of binary64 at the magnitudes of the
    scenarios, far below a tick or a lot. *)
Definition fp_tol : Q := 1 # 1000000000.

Definition close_to (x y : Q) : Prop := Qabs (y - x) <= fp_tol.

(** [r] is [x] rounded down to a multiple of [step], up to [fp_tol]. *)
Definition rounded_down (step x r : Q) : Prop :=
  x - step - fp_tol <= r /\ r <= x + fp_tol.

(** The orders stored by [update_orders_state]: one entry per [oid], each
    order stored under its own [oid] and carrying a [cloid]. *)
Definition oms_wf (s : OMS) : Prop :=
  List.NoDup (map fst (orders_state s))
  /\ Forall (fun kv => oid (snd kv) = Some (fst kv) /\ is_Some (cloid (snd kv)))
            (orders_state s).

(** A call that places a take-profit order. *)
Definition places_take_profit (call : ExchCall) : Prop :=
  exists o, call = create_order o /\ order_type o = LIMIT /\ level_is "_tp" o.

(** The events of a queue carry strictly increasing sequence numbers, none
    above the last one handed out. *)
Definition bus_ok {D} (b : EventBus D) : Prop :=
  StronglySorted lt (map seq_id (_queue b))
  /\ Forall (fun e => (0 < seq_id e <= _last_id b)%nat) (_queue b).

(** An order update that cannot change the stored orders: a rejection, a
    status that the OMS does not know, or the removal of an [oid] that is
    not stored. *)
Definition inert_update (s : OMS) (u : OrderUpdate) : Prop :=
  is_Some (cloid (order u))
  /\ _overwrite (status u) = false
  /\ (_remove (status u) = true ->
      match oid (order u) with
      | Some o => dict_get o (orders_state s) = None
      | None => True
      end).

(** The level tag of an order ([""] when it has no [cloid]). *)
Definition order_level (o : Order) : string :=
  match cloid o with
  | Some c => last3 c
  | None => ""
  end.

(** The take-profit order that [_place_take_profits] builds for a filled
    order. *)
Definition tp_of (cfg : OMSConfig) (o : Order) : Order :=
  {| symbol := oms_symbol cfg; side := opposite (side o); amount := amount o;
     price := take_profit_price cfg o; order_type := LIMIT;
     cloid := option_map (fun c => (c ++ "_tp")%string) (cloid o);
     oid := None; tp := None |}.

(** [nbclip] of utils/calc_utils.py. *)
Definition nbclip (val min max : Q) : Q :=
  if Qltb val min then min
  else if Qgtb val max then max
  else val.

(** A producer and a consumer at work on one [EventBus]: the operations
    are applied in order; a [get] on an empty queue finds nothing and the
    run goes on.  The run records the payloads that [put] accepted and the
    events that [get] handed out. *)
Inductive BusOp (D : Type) : Type :=
  | op_put (ty : string) (d : D)
  | op_get
  | op_close.
Arguments op_put {D}.
Arguments op_get {D}.
Arguments op_close {D}.

Fixpoint run_bus {D} (tm : nat -> Z) (ops : list (BusOp D)) (b : EventBus D)
    (w : World) (accepted : list (string * D)) (delivered : list (QueuedEvent D))
  : EventBus D * list (string * D) * list (QueuedEvent D) :=
  match ops with
  | [] => (b, accepted, delivered)
  | op_put ty d :: rest =>
      match bus_put tm b w ty d with
      | (inr _, b', w') => run_bus tm rest b' w' (accepted ++ [(ty, d)]) delivered
      | (inl _, b', w') => run_bus tm rest b' w' accepted delivered
      end
  | op_get :: rest =>
      match bus_get b with
      | Some (e, b') => run_bus tm rest b' w accepted (delivered ++ [e])
      | None => run_bus tm rest b w accepted delivered
      end
  | op_close :: rest => run_bus tm rest (bus_close b) w accepted delivered
  end.

(** What a run keeps true of a bus: the events handed out and the events
    still queued are, in order, the accepted ones, numbered from 1. *)
Definition bus_inv {D} (b : EventBus D) (accepted : list (string * D))
    (delivered : list (QueuedEvent D)) : Prop :=
  map (fun e => (event_type e, data e)) (delivered ++ _queue b) = accepted
  /\ map seq_id (delivered ++ _queue b) = seq 1 (length accepted)
  /\ _last_id b = length accepted.


(** * Properties of the quoter *)

Lemma Qltb_lt (x y : Q) : Qltb x y = true <-> x < y.
Proof.
  unfold Qltb. rewrite negb_true_iff. split.
  - intros H. apply Qnot_le_lt. intros Hle.
    apply Qle_bool_iff in Hle. congruence.
  - intros H. destruct (Qle_bool y x) eqn:E; [|reflexivity].
    apply Qle_bool_iff in E. exfalso. apply (Qlt_not_le _ _ H E).
Qed.

Lemma Qltb_ge (x y : Q) : Qltb x y = false <-> y <= x.
Proof.
  unfold Qltb. rewrite negb_false_iff. apply Qle_bool_iff.
Qed.

Lemma Qeq_bool_false_pos (x : Q) : 0 < x -> Qeq_bool x 0 = false.
Proof.
  intros H. destruct (Qeq_bool x 0) eqn:E; [|reflexivity].
  apply Qeq_bool_iff in E. rewrite E in H. exfalso. apply (Qlt_irrefl _ H).
Qed.

Lemma Qeq_bool_false_neq (x : Q) : ~ x == 0 -> Qeq_bool x 0 = false.
Proof.
  intros H. destruct (Qeq_bool x 0) eqn:E; [|reflexivity].
  apply Qeq_bool_iff in E. contradiction.
Qed.

Lemma round_step_ret (x s : Q) :
  ~ s == 0 -> round_step x s = Ret (Qred (x - decimal_mod x s)).
Proof. intros H. unfold round_step. by rewrite Qeq_bool_false_neq. Qed.

Section QuoterFacts.

Variable np_sqrt : Q -> Q.
Variable cfg : QuoterConfig.

Lemma skew_long_cap (pos : Q) :
  0 < inventory_max_dollars cfg -> inventory_max_dollars cfg <= pos ->
  _skew cfg pos = Ret (0, 1).
Proof.
  intros Hmax Hpos. unfold _skew.
  rewrite Qeq_bool_false_pos by assumption.
  assert (Hd : 0 <= pos / inventory_max_dollars cfg).
  { apply Qle_shift_div_l; [assumption | lra]. }
  assert (E1 : Qltb (pos / inventory_max_dollars cfg) 0 = false)
    by (apply Qltb_ge; assumption).
  assert (E2 : Qgtb pos (- inventory_max_dollars cfg) = true)
    by (apply Qltb_lt; lra).
  assert (E3 : Qltb pos (inventory_max_dollars cfg) = false)
    by (apply Qltb_ge; assumption).
  rewrite E1, E2, E3. reflexivity.
Qed.

Lemma skew_short_cap (pos : Q) :
  0 < inventory_max_dollars cfg -> pos <= - inventory_max_dollars cfg ->
  _skew cfg pos = Ret (1, 0).
Proof.
  intros Hmax Hpos. unfold _skew.
  rewrite Qeq_bool_false_pos by assumption.
  assert (Hd : pos / inventory_max_dollars cfg <= 0).
  { apply Qle_shift_div_r; [assumption | lra]. }
  assert (E1 : Qgtb (pos / inventory_max_dollars cfg) 0 = false)
    by (apply Qltb_ge; assumption).
  assert (E2 : Qgtb pos (- inventory_max_dollars cfg) = false)
    by (apply Qltb_ge; assumption).
  assert (E3 : Qltb pos (inventory_max_dollars cfg) = true)
    by (apply Qltb_lt; lra).
  rewrite E1, E2, E3. reflexivity.
Qed.

Lemma skew_nonneg (pos bs aks : Q) :
  _skew cfg pos = Ret (bs, aks) -> 0 <= bs /\ 0 <= aks.
Proof.
  unfold _skew. destruct (Qeq_bool _ 0); [discriminate|].
  intros H. injection H as <- <-. split; apply Qabs_nonneg.
Qed.

Lemma linspace_length (a b : Q) (n : nat) : length (linspace a b n) = n.
Proof.
  destruct n as [|[|d]]; simpl; try reflexivity.
  rewrite length_map, length_seq. reflexivity.
Qed.

Lemma nblinspace_ret (a b : Q) (n : Z) :
  (0 <= Z.quot n 2)%Z ->
  nblinspace a b n = Ret (linspace a b (Z.to_nat (Z.quot n 2))).
Proof.
  intros H. unfold nblinspace.
  destruct (Z.ltb_spec (Z.quot n 2) 0) as [Hn|Hn]; [lia | reflexivity].
Qed.

Lemma nblinspace_inv (a b : Q) (n : Z) (l : list Q) :
  nblinspace a b n = Ret l ->
  (0 <= Z.quot n 2)%Z /\ length l = Z.to_nat (Z.quot n 2).
Proof.
  unfold nblinspace. destruct (Z.ltb_spec (Z.quot n 2) 0) as [Hn|Hn]; [discriminate|].
  intros E. injection E as <-. split; [assumption | apply linspace_length].
Qed.

Lemma sizes_inv (m : Q) (l : list Q) :
  _sizes cfg m = Ret l ->
  (0 < num_orders cfg)%Z /\ length l = Z.to_nat (Z.quot (num_orders cfg) 2).
Proof.
  unfold _sizes, geometric_weights.
  destruct (Z.ltb_spec 0 (num_orders cfg)) as [Hn|Hn]; [|discriminate].
  simpl. intros E. injection E as <-. split; [assumption|].
  rewrite length_rev, !length_map, length_seq. reflexivity.
Qed.

Lemma sizes_ret (m : Q) :
  (0 < num_orders cfg)%Z -> exists l, _sizes cfg m = Ret l.
Proof.
  intros H. unfold _sizes, geometric_weights.
  destruct (Z.ltb_spec 0 (num_orders cfg)) as [Hn|Hn]; [|lia].
  simpl. eexists. reflexivity.
Qed.

Lemma emit_inv (sd : Side) (ps ss : list Q) (l : list Order) :
  emit cfg sd ps ss = Ret l ->
  Forall (fun o => side o = sd /\ order_type o = LIMIT /\ cloid o = None) l
  /\ length l = Nat.min (length ps) (length ss).
Proof.
  revert ss l. induction ps as [|p ps IH]; intros ss l; simpl.
  - intros H. injection H as <-. split; [constructor | reflexivity].
  - destruct ss as [|s ss].
    + intros H. injection H as <-. split; [constructor | reflexivity].
    + destruct (round_step s (lot_size cfg)) as [a|]; [|discriminate]. simpl.
      destruct (round_step p (tick_size cfg)) as [pr|]; [|discriminate]. simpl.
      destruct (emit cfg sd ps ss) as [rest|] eqn:E; [|discriminate]. simpl.
      intros H. injection H as <-. destruct (IH _ _ E) as [HF HL].
      split; [constructor; [repeat split | assumption] | simpl; by rewrite HL].
Qed.

Lemma emit_ret (sd : Side) (ps ss : list Q) :
  ~ lot_size cfg == 0 -> ~ tick_size cfg == 0 ->
  exists l, emit cfg sd ps ss = Ret l.
Proof.
  intros Hl Ht. revert ss. induction ps as [|p ps IH]; intros ss; simpl.
  - eexists; reflexivity.
  - destruct ss as [|s ss]; [eexists; reflexivity|].
    rewrite !round_step_ret by assumption. simpl.
    destruct (IH ss) as [l ->]. simpl. eexists; reflexivity.
Qed.

Lemma ve_update_ok (ve : VolatilityEstimator) (x : Q) :
  ve_ok ve -> exists v ve', ve_update np_sqrt ve x = (Ret v, ve').
Proof.
  unfold ve_ok, ve_update. intros [H|[Hb Hc]].
  - apply Nat.ltb_lt in H. rewrite H. eexists _, _. reflexivity.
  - destruct (ve_count ve <? ve_n ve)%nat; [eexists _, _; reflexivity|].
    destruct (ve_buffer ve) as [|b bs]; [contradiction|].
    destruct (ve_count ve); [contradiction|]. eexists _, _. reflexivity.
Qed.

Lemma deque_append_nonempty (n : nat) (buf : list Q) (x : Q) :
  (buf <> [] \/ n <> O) -> deque_append n buf x <> [].
Proof.
  unfold deque_append. intros H.
  destruct (length buf <? n)%nat eqn:E.
  - destruct buf; discriminate.
  - destruct n.
    + destruct H; [assumption | contradiction].
    + destruct (tl buf); discriminate.
Qed.

Lemma ve_update_ret_ok (ve ve' : VolatilityEstimator) (x v : Q) :
  ve_update np_sqrt ve x = (Ret v, ve') -> ve_ok ve'.
Proof.
  unfold ve_update, ve_ok.
  destruct (ve_count ve <? ve_n ve)%nat eqn:E.
  - intros H. injection H as _ <-. simpl. right. split; [|discriminate].
    apply deque_append_nonempty. right. apply Nat.ltb_lt in E. lia.
  - destruct (ve_buffer ve) as [|b bs] eqn:Eb; [discriminate|].
    destruct (ve_count ve) eqn:Ec; [discriminate|].
    intros H. injection H as _ <-. simpl. right. split; [|discriminate].
    apply deque_append_nonempty. left. discriminate.
Qed.

End QuoterFacts.

Section OneSidedLadder.

Variable np_sqrt : Q -> Q.
Variable cfg : QuoterConfig.

Lemma prices_long_cap (m v : Q) :
  _prices cfg m 0 1 v =
  obind (nblinspace (m + ((spread_bps cfg * m) / 10000 + v) / 2)
           (m + (((spread_bps cfg * m) / 10000 + v) / 2 * inject_Z (num_orders cfg) / 2))
           (num_orders cfg))
        (fun ask_prices => Ret (None, Some ask_prices)).
Proof. reflexivity. Qed.

Lemma prices_short_cap (m v : Q) :
  _prices cfg m 1 0 v =
  obind (nblinspace (m - ((spread_bps cfg * m) / 10000 + v) / 2)
           (m - (((spread_bps cfg * m) / 10000 + v) / 2 * inject_Z (num_orders cfg) / 2))
           (num_orders cfg))
        (fun bid_prices => Ret (Some bid_prices, None)).
Proof. reflexivity. Qed.

Lemma prices_capped (sd : Side) (bs aks m v : Q) r :
  (bs, aks) = match sd with BUY => (1, 0) | SELL => (0, 1) end ->
  _prices cfg m bs aks v = Ret r -> one_sided cfg sd r.
Proof.
  intros E. destruct sd; injection E as -> ->.
  - rewrite prices_long_cap.
    destruct (nblinspace _ _ _) as [l|] eqn:El; [|discriminate]. simpl.
    intros H. injection H as <-. exists l. split; [reflexivity|].
    by apply nblinspace_inv in El as [_ ?].
  - rewrite prices_short_cap.
    destruct (nblinspace _ _ _) as [l|] eqn:El; [|discriminate]. simpl.
    intros H. injection H as <-. exists l. split; [reflexivity|].
    by apply nblinspace_inv in El as [_ ?].
Qed.

Lemma prices_capped_ret (sd : Side) (bs aks m v : Q) :
  (bs, aks) = match sd with BUY => (1, 0) | SELL => (0, 1) end ->
  (0 < num_orders cfg)%Z ->
  exists r, _prices cfg m bs aks v = Ret r.
Proof.
  intros E Hn.
  assert (Hq : (0 <= Z.quot (num_orders cfg) 2)%Z) by (apply Z.quot_pos; lia).
  destruct sd; injection E as -> ->.
  - rewrite prices_long_cap, nblinspace_ret by assumption. eexists; reflexivity.
  - rewrite prices_short_cap, nblinspace_ret by assumption. eexists; reflexivity.
Qed.

Lemma emit_side_inv (sd : Side) ps (ss : list Q) (l : list Order) :
  emit_side cfg sd ps ss = Ret l ->
  Forall (fun o => side o = sd /\ order_type o = LIMIT /\ cloid o = None) l
  /\ length l = match ps with
                | Some p => Nat.min (length p) (length ss)
                | None => O
                end.
Proof.
  destruct ps as [p|]; simpl.
  - apply emit_inv.
  - intros H. injection H as <-. split; [constructor | reflexivity].
Qed.

(** Every order built by [generate_quote_v2] is a LIMIT order without a
    client order id. *)
Lemma quotes_have_no_cloid (q : SimpleQuoter) (lob : LOB) (pos : Q) (forced : bool)
    (quotes : list Order) :
  fst (generate_quote_v2 np_sqrt cfg q lob pos forced) = Ret quotes ->
  Forall (fun o => order_type o = LIMIT /\ cloid o = None) quotes.
Proof.
  unfold generate_quote_v2.
  destruct (_skew cfg pos) as [[bs aks]|]; [|discriminate].
  destruct (ve_update _ _ _) as [[v|] ve']; [|discriminate].
  destruct (_prices _ _ _ _ _) as [[bp ap]|]; [|discriminate]. simpl.
  destruct (_sizes _ _) as [ss|]; [|discriminate]. simpl.
  destruct (_ || forced).
  - destruct (emit_side cfg BUY bp ss) as [bids|] eqn:Eb; [|discriminate]. simpl.
    destruct (emit_side cfg SELL ap ss) as [asks|] eqn:Ea; [|discriminate]. simpl.
    intros H. injection H as <-.
    apply emit_side_inv in Eb as [Fb _]. apply emit_side_inv in Ea as [Fa _].
    apply Forall_app. split; eapply Forall_impl; eauto; simpl; tauto.
  - simpl. intros H. injection H as <-. constructor.
Qed.

Lemma capped_quotes_side (sd : Side) (q : SimpleQuoter) (lob : LOB) (pos : Q)
    (forced : bool) (quotes : list Order) :
  _skew cfg pos = Ret (match sd with BUY => (1, 0) | SELL => (0, 1) end) ->
  fst (generate_quote_v2 np_sqrt cfg q lob pos forced) = Ret quotes ->
  Forall (fun o => side o = sd) quotes.
Proof.
  intros Hs. unfold generate_quote_v2. rewrite Hs.
  destruct sd.
  - destruct (ve_update _ _ _) as [[v|] ve']; [|discriminate].
    destruct (_prices _ _ _ _ _) as [r|] eqn:Ep; [|discriminate]. simpl.
    apply (prices_capped SELL) in Ep as (l & -> & _); [|reflexivity].
    destruct (_sizes _ _) as [ss|]; [|discriminate]. simpl.
    destruct (_ || forced); simpl.
    + destruct (emit cfg SELL l ss) as [asks|] eqn:Ea; [|discriminate]. simpl.
      intros H. injection H as <-. apply emit_inv in Ea as [Fa _].
      eapply Forall_impl; eauto; simpl; tauto.
    + intros H. injection H as <-. constructor.
  - destruct (ve_update _ _ _) as [[v|] ve']; [|discriminate].
    destruct (_prices _ _ _ _ _) as [r|] eqn:Ep; [|discriminate]. simpl.
    apply (prices_capped BUY) in Ep as (l & -> & _); [|reflexivity].
    destruct (_sizes _ _) as [ss|]; [|discriminate]. simpl.
    destruct (_ || forced); simpl.
    + destruct (emit cfg BUY l ss) as [bids|] eqn:Eb; [|discriminate]. simpl.
      intros H. injection H as <-. rewrite app_nil_r.
      apply emit_inv in Eb as [Fb _].
      eapply Forall_impl; eauto; simpl; tauto.
    + intros H. injection H as <-. constructor.
Qed.

Lemma capped_quotes_forced (sd : Side) (q : SimpleQuoter) (lob : LOB) (pos : Q) :
  _skew cfg pos = Ret (match sd with BUY => (1, 0) | SELL => (0, 1) end) ->
  ve_ok (volatility_estimator q) ->
  (0 < num_orders cfg)%Z -> ~ lot_size cfg == 0 -> ~ tick_size cfg == 0 ->
  exists quotes,
    fst (generate_quote_v2 np_sqrt cfg q lob pos true) = Ret quotes
    /\ length quotes = Z.to_nat (Z.quot (num_orders cfg) 2).
Proof.
  intros Hs Hve Hn Hl Ht. unfold generate_quote_v2. rewrite Hs.
  destruct (ve_update_ok np_sqrt _ (mid lob) Hve) as (v & ve' & ->).
  destruct sd.
  - destruct (prices_capped_ret SELL 0 1 (mid lob) v eq_refl Hn) as [r Ep].
    rewrite Ep. simpl.
    apply (prices_capped SELL) in Ep as (l & -> & Hlen); [|reflexivity].
    destruct (sizes_ret cfg (mid lob) Hn) as [ss Es]. rewrite Es. simpl.
    apply sizes_inv in Es as [_ Hss].
    rewrite !orb_true_r. simpl.
    destruct (emit_ret cfg SELL l ss Hl Ht) as [asks Ea]. rewrite Ea. simpl.
    exists asks. split; [reflexivity|].
    apply emit_inv in Ea as [_ ->]. lia.
  - destruct (prices_capped_ret BUY 1 0 (mid lob) v eq_refl Hn) as [r Ep].
    rewrite Ep. simpl.
    apply (prices_capped BUY) in Ep as (l & -> & Hlen); [|reflexivity].
    destruct (sizes_ret cfg (mid lob) Hn) as [ss Es]. rewrite Es. simpl.
    apply sizes_inv in Es as [_ Hss].
    rewrite !orb_true_r. simpl.
    destruct (emit_ret cfg BUY l ss Hl Ht) as [bids Eb]. rewrite Eb. simpl.
    exists (bids ++ []). split; [reflexivity|]. rewrite app_nil_r.
    apply emit_inv in Eb as [_ ->]. lia.
Qed.

End OneSidedLadder.

Section Gating.

Variable np_sqrt : Q -> Q.
Variable cfg : QuoterConfig.

Lemma prices_ret (m bs aks v : Q) :
  (0 <= Z.quot (num_orders cfg) 2)%Z -> exists r, _prices cfg m bs aks v = Ret r.
Proof.
  intros Hq. unfold _prices.
  destruct (Qgeb bs 1); [|destruct (Qgeb aks 1)];
    rewrite ?nblinspace_ret by assumption; simpl; eexists; reflexivity.
Qed.

Lemma prices_inv (m bs aks v : Q) r :
  _prices cfg m bs aks v = Ret r -> (0 <= Z.quot (num_orders cfg) 2)%Z.
Proof.
  unfold _prices.
  destruct (Qgeb bs 1); [|destruct (Qgeb aks 1)];
    (destruct (nblinspace _ _ _) as [l|] eqn:El; [|discriminate]);
    intros _; by apply nblinspace_inv in El as [? _].
Qed.

Lemma skew_ret (pos : Q) :
  ~ inventory_max_dollars cfg == 0 -> exists bs aks, _skew cfg pos = Ret (bs, aks).
Proof.
  intros H. unfold _skew. rewrite Qeq_bool_false_neq by assumption.
  eexists _, _. reflexivity.
Qed.

(** With a sane configuration the call returns. *)
Lemma generate_quote_v2_ret (q : SimpleQuoter) (lob : LOB) (pos : Q) (forced : bool) :
  ~ inventory_max_dollars cfg == 0 -> (0 < num_orders cfg)%Z ->
  ~ lot_size cfg == 0 -> ~ tick_size cfg == 0 ->
  ve_ok (volatility_estimator q) ->
  exists quotes q', generate_quote_v2 np_sqrt cfg q lob pos forced = (Ret quotes, q').
Proof.
  intros Hi Hn Hl Ht Hve. unfold generate_quote_v2.
  destruct (skew_ret pos Hi) as (bs & aks & ->).
  destruct (ve_update_ok np_sqrt _ (mid lob) Hve) as (v & ve' & ->).
  assert (Hq : (0 <= Z.quot (num_orders cfg) 2)%Z) by (apply Z.quot_pos; lia).
  destruct (prices_ret (mid lob) bs aks v Hq) as [[bp ap] ->]. simpl.
  destruct (sizes_ret cfg (mid lob) Hn) as [ss ->]. simpl.
  destruct (_ || forced); [|eexists _, _; reflexivity].
  assert (Hb : exists l, emit_side cfg BUY bp ss = Ret l).
  { destruct bp; simpl; [by apply emit_ret | eexists; reflexivity]. }
  assert (Ha : exists l, emit_side cfg SELL ap ss = Ret l).
  { destruct ap; simpl; [by apply emit_ret | eexists; reflexivity]. }
  destruct Hb as [bids ->], Ha as [asks ->]. simpl.
  eexists _, _. reflexivity.
Qed.

Lemma threshold_not_crossed (e x : Q) :
  0 <= e -> 0 <= x -> Qgtb (x - x) ((e * x) / 10000) = false.
Proof.
  intros He Hx. unfold Qgtb. apply Qltb_ge.
  assert (H0 : 0 <= (e * x) / 10000).
  { apply Qle_shift_div_l; [reflexivity|]. nra. }
  lra.
Qed.

Lemma requote_same_input_empty (q q1 : SimpleQuoter) (lob : LOB) (pos : Q)
    (forced : bool) (quotes : list Order) :
  0 < mid lob -> 0 <= epsilon cfg ->
  generate_quote_v2 np_sqrt cfg q lob pos forced = (Ret quotes, q1) ->
  exists q2, generate_quote_v2 np_sqrt cfg q1 lob pos false = (Ret [], q2).
Proof.
  intros Hmid Heps. unfold generate_quote_v2 at 1.
  destruct (_skew cfg pos) as [[bs aks]|] eqn:Es; [|discriminate].
  destruct (ve_update _ _ _) as [[v|] ve'] eqn:Ev; [|discriminate].
  destruct (_prices _ _ _ _ _) as [pr|] eqn:Ep; [|discriminate]. simpl.
  destruct (_sizes _ _) as [ss|] eqn:Ez; [|discriminate]. simpl.
  match goal with
  | |- match ?body with _ => _ end = _ -> _ => destruct body as [out|]
  end; [|discriminate].
  intros H. injection H as _ <-. unfold generate_quote_v2. rewrite Es. simpl.
  destruct (ve_update_ok np_sqrt ve' (mid lob) (ve_update_ret_ok np_sqrt _ _ _ _ Ev))
    as (v2 & ve2 & ->).
  destruct (prices_ret (mid lob) bs aks v2 (prices_inv _ _ _ _ _ Ep)) as [pr2 ->].
  simpl. rewrite Ez. simpl.
  destruct (skew_nonneg cfg pos bs aks Es) as [Hb Ha].
  rewrite !threshold_not_crossed by (assumption || lra). simpl.
  eexists. reflexivity.
Qed.

End Gating.

(** ** Skew cap (C1) *)

(** C1, as the specification states it, fails: in scenario S4 (the book of
    S1, position equal to [inventory_max_dollars], a forced requote) the
    quoter returns the two SELL orders of the ask ladder, at 100.0 and
    100.1, and no BUY order. *)
Lemma skew_cap_emits_sells :
  exists quotes,
    fst (generate_quote_v2 Qsqrt S1_config SimpleQuoter_init S1_lob
           (inventory_max_dollars S1_config) true) = Ret quotes
    /\ map side quotes = [SELL; SELL]
    /\ Forall2 (fun o p => close_to p (price o)) quotes [100; 1001 # 10]
    /\ ~ Forall (fun o => side o = BUY) quotes.
Proof.
  eexists. split; [vm_compute; reflexivity|]. split; [reflexivity|]. split.
  - repeat constructor; intros H; vm_compute in H; discriminate H.
  - intros H. inversion H as [|o l Hs _]. discriminate Hs.
Qed.

(** C1 (amended): with a positive [inventory_max_dollars], a position at
    or above it gives skews (0, 1) and every order returned by
    [generate_quote_v2] is a SELL (the BUY ladder is suppressed);
    a position at or below its opposite gives skews (1, 0) and every
    order returned is a BUY.  When the requote is forced, the mid is
    positive and the configuration is sane, the ladder of the remaining
    side is returned in full, [num_orders/2] orders. *)
Theorem skew_cap_sides (np_sqrt : Q -> Q) (cfg : QuoterConfig) (q : SimpleQuoter)
    (lob : LOB) (pos : Q) (forced : bool) :
  0 < inventory_max_dollars cfg ->
  (inventory_max_dollars cfg <= pos ->
     _skew cfg pos = Ret (0, 1)
     /\ (forall quotes,
           fst (generate_quote_v2 np_sqrt cfg q lob pos forced) = Ret quotes ->
           Forall (fun o => side o = SELL) quotes)
     /\ (0 < mid lob -> ve_ok (volatility_estimator q) -> (0 < num_orders cfg)%Z ->
         ~ lot_size cfg == 0 -> ~ tick_size cfg == 0 ->
         exists quotes,
           fst (generate_quote_v2 np_sqrt cfg q lob pos true) = Ret quotes
           /\ length quotes = Z.to_nat (Z.quot (num_orders cfg) 2)
           /\ Forall (fun o => side o = SELL) quotes))
  /\ (pos <= - inventory_max_dollars cfg ->
     _skew cfg pos = Ret (1, 0)
     /\ (forall quotes,
           fst (generate_quote_v2 np_sqrt cfg q lob pos forced) = Ret quotes ->
           Forall (fun o => side o = BUY) quotes)
     /\ (0 < mid lob -> ve_ok (volatility_estimator q) -> (0 < num_orders cfg)%Z ->
         ~ lot_size cfg == 0 -> ~ tick_size cfg == 0 ->
         exists quotes,
           fst (generate_quote_v2 np_sqrt cfg q lob pos true) = Ret quotes
           /\ length quotes = Z.to_nat (Z.quot (num_orders cfg) 2)
           /\ Forall (fun o => side o = BUY) quotes)).
Proof.
  intros Hmax. split; intros Hpos.
  - pose proof (skew_long_cap cfg pos Hmax Hpos) as Hs.
    split; [assumption|]. split.
    + intros quotes. by apply (capped_quotes_side np_sqrt cfg SELL).
    + intros _ Hve Hn Hl Ht.
      destruct (capped_quotes_forced np_sqrt cfg SELL q lob pos Hs Hve Hn Hl Ht)
        as (quotes & Hq & Hlen).
      exists quotes. repeat split; try assumption.
      by apply (capped_quotes_side np_sqrt cfg SELL q lob pos true).
  - pose proof (skew_short_cap cfg pos Hmax Hpos) as Hs.
    split; [assumption|]. split.
    + intros quotes. by apply (capped_quotes_side np_sqrt cfg BUY).
    + intros _ Hve Hn Hl Ht.
      destruct (capped_quotes_forced np_sqrt cfg BUY q lob pos Hs Hve Hn Hl Ht)
        as (quotes & Hq & Hlen).
      exists quotes. repeat split; try assumption.
      by apply (capped_quotes_side np_sqrt cfg BUY q lob pos true).
Qed.

Lemma skew_cap_sides_witness :
  0 < inventory_max_dollars S1_config
  /\ _skew S1_config 10000 = Ret (0, 1)
  /\ (exists quotes,
        fst (generate_quote_v2 Qsqrt S1_config SimpleQuoter_init S1_lob 10000 true)
        = Ret quotes
        /\ length quotes = 2%nat
        /\ Forall (fun o => side o = SELL) quotes)
  /\ _skew S1_config (-10000) = Ret (1, 0).
Proof.
  assert (Hmax : 0 < inventory_max_dollars S1_config) by reflexivity.
  destruct (skew_cap_sides Qsqrt S1_config SimpleQuoter_init S1_lob 10000 true Hmax)
    as [Hlong _].
  destruct (skew_cap_sides Qsqrt S1_config SimpleQuoter_init S1_lob (-10000) true Hmax)
    as [_ Hshort].
  assert (Hle : inventory_max_dollars S1_config <= 10000) by (simpl; lra).
  assert (Hge : -10000 <= - inventory_max_dollars S1_config) by (simpl; lra).
  destruct (Hlong Hle) as (Hs & _ & Hall).
  destruct (Hshort Hge) as (Hs' & _ & _).
  split; [exact Hmax|]. split; [exact Hs|]. split; [|exact Hs'].
  apply Hall.
  - reflexivity.
  - left. simpl. lia.
  - reflexivity.
  - simpl. intros H. discriminate H.
  - simpl. intros H. discriminate H.
Defined.

(** ** Cold start (C4) *)

(** C4, as the specification states it, fails: on a cold start with
    [forced_requote = false] no gating condition holds and the call returns
    the empty list; and the second price of each ladder, also when the
    requote is forced, is one tick from the first (99.8 and 100.1), not
    three (99.7 and 100.2). *)
Lemma S1_cold_start_unforced_empty :
  fst (generate_quote_v2 Qsqrt S1_config SimpleQuoter_init S1_lob 0 false) = Ret []
  /\ fst (generate_quote_v2 Qsqrt S1_config SimpleQuoter_init S1_lob 0 false)
     <> Ret S1_claimed_quotes
  /\ (forall quotes,
        fst (generate_quote_v2 Qsqrt S1_config SimpleQuoter_init S1_lob 0 true)
        = Ret quotes ->
        ~ Forall2 (fun o p => price o == p) quotes
            [999 # 10; 997 # 10; 100; 1002 # 10]).
Proof.
  split; [vm_compute; reflexivity|]. split.
  - vm_compute. intros H. discriminate H.
  - intros quotes Hq. vm_compute in Hq. injection Hq as <-.
    intros H. inversion H as [|? ? ? ? _ H1]; subst.
    inversion H1 as [|? ? ? ? H2 _]; subst.
    vm_compute in H2. discriminate H2.
Qed.

(** C4 (amended): in scenario S1 (fresh quoter, position 0, mid 100) a
    forced requote returns exactly four LIMIT orders without [cloid]: two
    BUYs at 99.9 and 99.8 and two SELLs at 100.0 and 100.1; on each side
    the amounts are the sizes 3.75 and 6.25 rounded down to the lot, each
    at most one lot below its size (the program returns 3.749 and 6.25,
    the exact arithmetic of the model 3.75 and 6.25).  The same call
    without the forced flag returns no order.  Before rounding the ladders
    are [99.95, 99.85] and [100.05, 100.15].  Prices and sizes are stated
    up to [fp_tol]. *)
Theorem S1_cold_start_forced :
  (exists quotes,
     fst (generate_quote_v2 Qsqrt S1_config SimpleQuoter_init S1_lob 0 true)
     = Ret quotes
     /\ map side quotes = [BUY; BUY; SELL; SELL]
     /\ Forall (fun o => order_type o = LIMIT /\ cloid o = None) quotes
     /\ Forall2 (fun o p => close_to p (price o)) quotes
          [999 # 10; 998 # 10; 100; 1001 # 10]
     /\ Forall2 (fun o a => rounded_down (lot_size S1_config) a (amount o)) quotes
          [15 # 4; 25 # 4; 15 # 4; 25 # 4])
  /\ fst (generate_quote_v2 Qsqrt S1_config SimpleQuoter_init S1_lob 0 false) = Ret []
  /\ (exists bid_prices ask_prices,
        _prices S1_config 100 0 0 0 = Ret (Some bid_prices, Some ask_prices)
        /\ Forall2 close_to [9995 # 100; 9985 # 100] bid_prices
        /\ Forall2 close_to [10005 # 100; 10015 # 100] ask_prices).
Proof.
  split_and!.
  - eexists. split; [vm_compute; reflexivity|]. split_and!.
    + reflexivity.
    + repeat constructor.
    + repeat constructor; intros H; vm_compute in H; discriminate H.
    + repeat constructor; intros H; vm_compute in H; discriminate H.
  - vm_compute; reflexivity.
  - eexists _, _. split; [vm_compute; reflexivity|].
    split; repeat constructor; intros H; vm_compute in H; discriminate H.
Qed.

(** ** Gating idempotence (C9) *)

(** C9: for any quoter state, any book with a positive mid and any
    position, with a non-negative [epsilon]: when a call of
    [generate_quote_v2] has returned, the next call with the same book and
    position and [forced_requote = false] returns the empty list.  With a
    sane configuration both calls do return. *)
Theorem gating_idempotence (np_sqrt : Q -> Q) (cfg : QuoterConfig) (q : SimpleQuoter)
    (lob : LOB) (pos : Q) (forced : bool) :
  0 < mid lob -> 0 <= epsilon cfg ->
  (forall quotes q1,
      generate_quote_v2 np_sqrt cfg q lob pos forced = (Ret quotes, q1) ->
      exists q2, generate_quote_v2 np_sqrt cfg q1 lob pos false = (Ret [], q2))
  /\ (~ inventory_max_dollars cfg == 0 -> (0 < num_orders cfg)%Z ->
      ~ lot_size cfg == 0 -> ~ tick_size cfg == 0 ->
      ve_ok (volatility_estimator q) ->
      exists quotes q1 q2,
        generate_quote_v2 np_sqrt cfg q lob pos forced = (Ret quotes, q1)
        /\ generate_quote_v2 np_sqrt cfg q1 lob pos false = (Ret [], q2)).
Proof.
  intros Hmid Heps. split.
  - intros quotes q1. by apply requote_same_input_empty.
  - intros Hi Hn Hl Ht Hve.
    destruct (generate_quote_v2_ret np_sqrt cfg q lob pos forced Hi Hn Hl Ht Hve)
      as (quotes & q1 & E).
    destruct (requote_same_input_empty np_sqrt cfg q q1 lob pos forced quotes
                Hmid Heps E) as [q2 E2].
    exists quotes, q1, q2. split; assumption.
Qed.

Lemma gating_idempotence_witness :
  0 < mid S1_lob /\ 0 <= epsilon S1_config
  /\ exists quotes,
       fst (generate_quote_v2 Qsqrt S1_config warm_quoter S1_lob 0 false) = Ret quotes
       /\ length quotes = 4%nat
       /\ exists q2,
            generate_quote_v2 Qsqrt S1_config
              (snd (generate_quote_v2 Qsqrt S1_config warm_quoter S1_lob 0 false))
              S1_lob 0 false = (Ret [], q2).
Proof.
  assert (Hmid : 0 < mid S1_lob) by reflexivity.
  assert (Heps : 0 <= epsilon S1_config) by (simpl; lra).
  split; [exact Hmid|]. split; [exact Heps|].
  destruct (gating_idempotence Qsqrt S1_config warm_quoter S1_lob 0 false Hmid Heps)
    as [Hsecond _].
  eexists. split; [vm_compute; reflexivity|]. split; [reflexivity|].
  eapply Hsecond. vm_compute. reflexivity.
Defined.

(** * Properties of the order management *)

Section OMSFacts.

Variable tm : nat -> Z.
Variable exch_error : nat -> bool.
Variable cfg : OMSConfig.

Lemma time_ms_advance (w : World) : time_ms tm w = (tm (w_tick w), advance 1 w).
Proof. reflexivity. Qed.

Lemma advance_advance (n m : nat) (w : World) :
  advance n (advance m w) = advance (n + m) w.
Proof. unfold advance. simpl. f_equal. lia. Qed.

Lemma advance_0 (w : World) : advance 0 w = w.
Proof. by destruct w. Qed.

Lemma is_level_pending_fresh (L : string) (s : OMS) (w : World) (t : Z) :
  pending_levels s !! L = Some t -> (tm (w_tick w) - t <= timeout)%Z ->
  _is_level_pending tm L s w = (true, s, advance 1 w).
Proof.
  intros Hp Hf. unfold _is_level_pending, _cleanup_stale_pending.
  rewrite Hp, time_ms_advance.
  destruct (Z.ltb_spec timeout (tm (w_tick w) - t)) as [Hlt|_]; [lia|].
  rewrite Hp. reflexivity.
Qed.

(** A lookup touches the entry of its own level only, reads the clock at
    most once, and leaves an entry only if it is within the timeout. *)
Lemma is_level_pending_spec (L : string) (s : OMS) (w : World) b s' w' :
  _is_level_pending tm L s w = (b, s', w') ->
  orders_state s' = orders_state s /\ order_count s' = order_count s
  /\ (forall L', L' <> L -> pending_levels s' !! L' = pending_levels s !! L')
  /\ (b = true <-> is_Some (pending_levels s' !! L))
  /\ (forall t, pending_levels s' !! L = Some t ->
        pending_levels s !! L = Some t /\ w' = advance 1 w
        /\ (tm (w_tick w) - t <= timeout)%Z)
  /\ (w' = w \/ w' = advance 1 w)
  /\ w_calls w' = w_calls w.
Proof.
  unfold _is_level_pending, _cleanup_stale_pending.
  destruct (pending_levels s !! L) as [t|] eqn:Hp.
  - rewrite time_ms_advance.
    destruct (Z.ltb_spec timeout (tm (w_tick w) - t)) as [Hlt|Hge].
    + intros H. injection H as <- <- <-. simpl.
      split_and!; try reflexivity.
      * intros L' Hne. by rewrite lookup_delete_ne.
      * apply bool_decide_eq_true.
      * intros t0. rewrite lookup_delete_eq. discriminate.
      * by right.
    + intros H. injection H as <- <- <-.
      split_and!; try reflexivity.
      * apply bool_decide_eq_true.
      * intros t0 Ht0. rewrite Hp in Ht0. injection Ht0 as <-. by split_and!.
      * by right.
  - intros H. injection H as <- <- <-.
    split_and!; try reflexivity.
    + apply bool_decide_eq_true.
    + intros t0 Ht0. rewrite Hp in Ht0. discriminate.
    + by left.
Qed.

Lemma update_raises_without_cloid (s : OMS) (w : World) (o : Order)
    (rest : list Order) (lob : LOB) :
  order_type o = LIMIT -> cloid o = None ->
  update tm exch_error cfg s w (o :: rest) lob = (Raise TypeError, s, w).
Proof.
  intros Ht Hc. unfold update. simpl. unfold classify_step.
  rewrite Ht, Hc. reflexivity.
Qed.

End OMSFacts.

Section SingleFlight.

Variable tm : nat -> Z.
Variable exch_error : nat -> bool.
Variable cfg : OMSConfig.

Lemma with_oid_level (L : string) (o : Order) (v : option string) :
  level_is L (with_oid o v) <-> level_is L o.
Proof. reflexivity. Qed.

Ltac adv n :=
  exists n; split; [lia | by rewrite ?advance_0, ?advance_advance].

Lemma classify_step_avoid (L : string) (t : Z) (m : Q) (s : OMS) (w : World)
    (b : Buckets) (o : Order) r s' w' :
  pending_levels s !! L = Some t ->
  (tm (w_tick w) - t <= timeout)%Z ->
  buckets_avoid L b ->
  classify_step tm m s w b o = (r, s', w') ->
  pending_levels s' !! L = Some t
  /\ order_count s' = order_count s
  /\ w_calls w' = w_calls w
  /\ (exists n, (n <= 2)%nat /\ w' = advance n w)
  /\ (forall b', r = Ret b' -> buckets_avoid L b').
Proof.
  intros Hp Hf (Hm & Hl & Ha & Hc). unfold classify_step.
  destruct (order_type o) eqn:Ho.
  { intros H. injection H as <- <- <-.
    split_and!; try done.
    - adv 0%nat.
    - intros b' Hb. injection Hb as <-. split_and!; try done. simpl.
      apply Forall_app. split; [done|]. by constructor. }
  destruct (cloid o) as [c|] eqn:Hcl.
  2:{ intros H. injection H as <- <- <-. split_and!; try done.
      adv 0%nat. }
  destruct (decide (last3 c = L)) as [->|Hne].
  { rewrite (is_level_pending_fresh tm _ s w t Hp Hf).
    intros H. injection H as <- <- <-. split_and!; try done.
    - adv 1%nat.
    - intros b' Hb. by injection Hb as <-. }
  assert (Hno : ~ level_is L o).
  { intros (c' & Hc' & Hl'). congruence. }
  destruct (_is_level_pending tm (last3 c) s w) as [[p s1] w1] eqn:E.
  apply is_level_pending_spec in E as (Hos & Hoc & Hoth & _ & _ & Hw & Hcalls).
  assert (Hp1 : pending_levels s1 !! L = Some t).
  { rewrite Hoth; [done|]. congruence. }
  assert (Hw1 : exists n, (n <= 1)%nat /\ w1 = advance n w).
  { destruct Hw as [->| ->]; [adv 0%nat | adv 1%nat]. }
  destruct Hw1 as (n1 & Hn1 & ->).
  destruct p.
  { intros H. injection H as <- <- <-. split_and!; try done.
    - adv n1.
    - intros b' Hb. by injection Hb as <-. }
  destruct (find_matched_order s1 o) as [[mo|]|e].
  - destruct (is_out_of_bounds _ _ _ _).
    + unfold _add_pending_level. rewrite time_ms_advance.
      intros H. injection H as <- <- <-. simpl.
      split_and!; try done.
      * rewrite lookup_insert_ne; [done | congruence].
      * adv (1 + n1)%nat.
      * intros b' Hb. injection Hb as <-. split_and!; try done. simpl.
        apply Forall_app. split; [done|]. constructor; [|done].
        split; [done|]. by rewrite with_oid_level.
    + intros H. injection H as <- <- <-. split_and!; try done.
      * adv n1.
      * intros b' Hb. by injection Hb as <-.
  - unfold _add_pending_level. rewrite time_ms_advance.
    intros H. injection H as <- <- <-. simpl.
    split_and!; try done.
    + rewrite lookup_insert_ne; [done | congruence].
    + adv (1 + n1)%nat.
    + intros b' Hb. injection Hb as <-. split_and!; try done. simpl.
      apply Forall_app. split; [done|]. by constructor.
  - intros H. injection H as <- <- <-. split_and!; try done.
    adv n1.
Qed.

Lemma classify_avoid (L : string) (t : Z) (m : Q) (new_orders : list Order) :
  forall (s : OMS) (w : World) (b : Buckets) r s' w',
  pending_levels s !! L = Some t ->
  (forall k, (w_tick w <= k < w_tick w + 2 * length new_orders)%nat ->
             (tm k - t <= timeout)%Z) ->
  buckets_avoid L b ->
  classify tm m s w b new_orders = (r, s', w') ->
  pending_levels s' !! L = Some t
  /\ order_count s' = order_count s
  /\ w_calls w' = w_calls w
  /\ (forall b', r = Ret b' -> buckets_avoid L b').
Proof.
  induction new_orders as [|o rest IH]; intros s w b r s' w' Hp Hf Hb; simpl.
  - intros H. injection H as <- <- <-. split_and!; try done.
    intros b' Hb'. by injection Hb' as <-.
  - destruct (classify_step tm m s w b o) as [[r1 s1] w1] eqn:E.
    apply (classify_step_avoid L t) in E
      as (Hp1 & Hc1 & Hw1 & (n & Hn & ->) & Hb1); try done.
    2:{ apply Hf. simpl. lia. }
    destruct r1 as [b1|e].
    + intros H. apply (IH s1 (advance n w) b1) in H
        as (Hp2 & Hc2 & Hw2 & Hb2); try done.
      * split_and!; try done; congruence.
      * intros k Hk. apply Hf. simpl in *. lia.
      * by apply Hb1.
    + intros H. injection H as <- <- <-. split_and!; try done.
Qed.

Lemma cancel_all_calls (s : OMS) (w : World) :
  w_calls (snd (cancel_all exch_error cfg s w))
  = w_calls w ++ [cancel_all_orders (oms_symbol cfg)]
  /\ order_count (fst (cancel_all exch_error cfg s w)) = order_count s.
Proof. unfold cancel_all. by destruct (exch_error _). Qed.

Lemma dispatch_avoid (L : string) (b : Buckets) (s : OMS) (w : World) :
  buckets_avoid L b ->
  exists new,
    w_calls (snd (dispatch exch_error cfg b s w)) = w_calls w ++ new
    /\ Forall (fun c => ~ acts_on_level L c) new.
Proof.
  intros (Hm & Hl & Ha & Hc). unfold dispatch. rewrite Hc. simpl.
  set (r1 := if nonempty (markets b)
             then cancel_all exch_error cfg s (place_orders (markets b) w)
             else (s, w)).
  assert (H1 : exists new, w_calls (snd r1) = w_calls w ++ new
                           /\ Forall (fun c => ~ acts_on_level L c) new).
  { subst r1. destruct (nonempty (markets b)).
    - destruct (cancel_all_calls s (place_orders (markets b) w)) as [-> _].
      simpl. rewrite <- app_assoc. eexists. split; [reflexivity|].
      apply Forall_app. split.
      + apply Forall_map. eapply Forall_impl; [exact Hm|].
        simpl. intros o Ho [Ht _]. congruence.
      + constructor; [|constructor]. simpl. tauto.
    - exists []. rewrite app_nil_r. by split. }
  destruct r1 as [s1 w1]. simpl in H1. destruct H1 as (n1 & E1 & F1).
  set (w3 := when (nonempty (limits b)) (place_orders (limits b)) w1).
  assert (H3 : exists new, w_calls w3 = w_calls w ++ new
                           /\ Forall (fun c => ~ acts_on_level L c) new).
  { subst w3. destruct (limits b) as [|x xs] eqn:El; simpl.
    - by exists n1.
    - rewrite E1, <- app_assoc. eexists. split; [reflexivity|].
      apply Forall_app. split; [done|].
      change (create_order x :: map create_order xs) with (map create_order (x :: xs)).
      apply Forall_map. eapply Forall_impl; [exact Hl|].
      simpl. intros o [_ Hn] [_ Hy]. contradiction. }
  destruct H3 as (n3 & E3 & F3).
  set (w4 := when (nonempty (amends b)) (amend_orders (amends b)) w3).
  assert (H4 : exists new, w_calls w4 = w_calls w ++ new
                           /\ Forall (fun c => ~ acts_on_level L c) new).
  { subst w4. destruct (amends b) as [|x xs] eqn:Ea; simpl.
    - by exists n3.
    - rewrite E3, <- app_assoc. eexists. split; [reflexivity|].
      apply Forall_app. split; [done|].
      change (amend_order x :: map amend_order xs) with (map amend_order (x :: xs)).
      apply Forall_map. eapply Forall_impl; [exact Ha|].
      simpl. intros o [_ Hn] [_ Hy]. contradiction. }
  destruct H4 as (n4 & E4 & F4).
  destruct (oms_num_orders cfg <? order_count s1)%Z.
  - destruct (cancel_all_calls s1 w4) as [-> _]. rewrite E4, <- app_assoc.
    eexists. split; [reflexivity|]. apply Forall_app. split; [done|].
    constructor; [|constructor]. simpl. tauto.
  - by exists n4.
Qed.

(** While level [L] is pending and within the timeout at every reading of
    the clock that a call of [update] can make, the call neither places nor
    amends a LIMIT order of level [L], whatever its outcome. *)
Lemma update_avoids_level (L : string) (t : Z) (s : OMS) (w : World)
    (new_orders : list Order) (lob : LOB) :
  pending_levels s !! L = Some t ->
  (forall k, (w_tick w <= k < w_tick w + 2 * length new_orders)%nat ->
             (tm k - t <= timeout)%Z) ->
  exists new,
    w_calls (snd (update tm exch_error cfg s w new_orders lob)) = w_calls w ++ new
    /\ Forall (fun c => ~ acts_on_level L c) new.
Proof.
  intros Hp Hf. unfold update.
  destruct (classify tm (mid lob) s w Buckets_init new_orders) as [[r s1] w1] eqn:E.
  apply (classify_avoid L t) in E as (_ & _ & Hw & Hb); try done.
  destruct r as [b|e].
  - destruct (dispatch_avoid L b s1 w1 (Hb b eq_refl)) as (new & En & Fn).
    destruct (dispatch exch_error cfg b s1 w1) as [s2 w2]. simpl in *.
    exists new. split; [congruence | done].
  - simpl. exists []. rewrite app_nil_r. by split.
Qed.

Lemma classify_all_pending (m : Q) (new_orders : list Order) :
  forall (s : OMS) (w : World) (b : Buckets),
  all_pending tm s w new_orders ->
  classify tm m s w b new_orders = (Ret b, s, advance (length new_orders) w).
Proof.
  unfold all_pending.
  induction new_orders as [|o rest IH]; intros s w b HF; simpl.
  - by rewrite advance_0.
  - inversion HF as [|? ? (Ht & c & t & Hc & Hp & Hf) HF']; subst.
    unfold classify_step. rewrite Ht, Hc.
    rewrite (is_level_pending_fresh tm _ s w t Hp) by (apply Hf; simpl; lia).
    rewrite IH.
    + rewrite advance_advance. do 2 f_equal. lia.
    + eapply Forall_impl; [exact HF'|]. simpl.
      intros o' (Ht' & c' & t' & Hc' & Hp' & Hf').
      split; [done|]. exists c', t'. split_and!; try done.
      intros k Hk. apply Hf'. simpl in *. lia.
Qed.

Lemma dispatch_empty (s : OMS) (w : World) :
  dispatch exch_error cfg Buckets_init s w
  = if (oms_num_orders cfg <? order_count s)%Z then cancel_all exch_error cfg s w
    else (s, w).
Proof. reflexivity. Qed.

End SingleFlight.

(** ** Level tags on the way to the OMS (C2) *)

(** Whatever the quoter returns, a non-empty list of quotes handed to
    [update] raises at the first order: its [cloid] is [None]. *)
Lemma quotes_break_update (np_sqrt : Q -> Q) (tm : nat -> Z) (exch_error : nat -> bool)
    (qcfg : QuoterConfig) (ocfg : OMSConfig) (q : SimpleQuoter) (lob : LOB) (pos : Q)
    (forced : bool) (quotes : list Order) (s : OMS) (w : World) :
  fst (generate_quote_v2 np_sqrt qcfg q lob pos forced) = Ret quotes ->
  quotes <> [] ->
  update tm exch_error ocfg s w quotes lob = (Raise TypeError, s, w).
Proof.
  intros Hq Hne. apply quotes_have_no_cloid in Hq.
  destruct quotes as [|o rest]; [done|].
  inversion Hq as [|? ? [Ht Hc] _]; subst.
  by apply update_raises_without_cloid.
Qed.

(** C2 (the code departs from it): two orderbook events, mid 101 then mid
    100, far enough apart to pass the rate limit.  The second requote gets
    four quotes from the quoter, none of which carries a [cloid], and
    [update] raises [TypeError] on [order.cloid[-3:]] before any order is
    sent to the exchange. *)
Theorem requote_quotes_carry_no_cloid :
  let '(m1, w1) :=
    _process_events Qsqrt clock_far exch_ok S_config
      (MarketMaker_init S_config "S") World_init [ev_orderbook book_101] in
  let '(quotes, _) :=
    generate_quote_v2 Qsqrt S1_config (quoting_engine m1)
      (get_lob (snd (update_lob Qsqrt (lob_manager m1) book_100))) 0 false in
  let '(r, m2, w2) :=
    _process_event Qsqrt clock_far exch_ok S_config m1 w1 (ev_orderbook book_100) in
  (exists l, quotes = Ret l /\ length l = 4%nat
             /\ Forall (fun o => order_type o = LIMIT /\ cloid o = None) l)
  /\ r = Raise TypeError
  /\ w_quotes w2 = 2%nat
  /\ w_calls w2 = []
  /\ pending_levels (oms m2) = ∅.
Proof.
  vm_compute. split_and!; try reflexivity.
  eexists. split_and!; try reflexivity.
  repeat constructor.
Qed.

(** ** Single flight per level (C3) *)

(** C3, as the specification states it, fails in its last part: five
    foreign live orders put [order_count] above [num_orders]; the ladder is
    placed and the exchange answers the safety-net [cancel_all] with an
    error, so the four levels stay pending (since readings 0 to 3 of the
    clock, a few milliseconds before the last reading); the second [update]
    with the same ladder finds every level pending and fills no bucket, and
    still sends [cancel_all_orders] to the exchange. *)
Lemma pending_ladder_still_cancels :
  let s0 := snd (fst (update_orders_state OMS_init foreign_orders)) in
  let '(_, s1, w1) :=
    update clock_ms exch_down S_oms_config s0 World_init S1_ladder S1_lob in
  let '(r2, s2, w2) :=
    update clock_ms exch_down S_oms_config s1 w1 S1_ladder S1_lob in
  map (pending_since s1) S1_ladder
  = [Some 1700000000000; Some 1700000000001; Some 1700000000002;
     Some 1700000000003]%Z
  /\ (clock_ms (w_tick w2) - 1700000000000 <=? timeout)%Z = true
  /\ fst (fst (classify clock_ms 100 s1 w1 Buckets_init S1_ladder)) = Ret Buckets_init
  /\ r2 = Ret tt
  /\ w_calls w2 = w_calls w1 ++ [cancel_all_orders "S"]
  /\ w_calls w2 <> w_calls w1.
Proof.
  vm_compute. split_and!; try reflexivity.
  intros H. discriminate H.
Qed.

(** C3 (amended): assume the LIMIT orders carry a level tag.  While a level
    [L] is in [pending_levels] with an entry within the 10,000 ms timeout
    at the readings of the clock made by the call, [update] sends neither a
    placement nor an amendment of a LIMIT order of level [L].  When every
    order of the ladder is such a pending level, the loop of [update] skips
    them all: the [limits] and [amends] buckets stay empty, the loop
    leaves the state as it is, and the only call that can reach the
    exchange is the [cancel_all_orders] of the order-count safety net,
    sent exactly when [order_count > num_orders].  With
    [order_count <= num_orders] no exchange call is made and [update]
    leaves the state unchanged; with [order_count > num_orders] the
    stored orders and the count are unchanged and [pending_levels] is
    emptied, unless the exchange answers [cancel_all_orders] with an
    error, in which case the state is unchanged too. *)
Theorem single_flight (tm : nat -> Z) (exch_error : nat -> bool) (cfg : OMSConfig)
    (s : OMS) (w : World) (new_orders : list Order) (lob : LOB) :
  (forall L t,
      pending_levels s !! L = Some t ->
      (forall k, (w_tick w <= k < w_tick w + 2 * length new_orders)%nat ->
                 (tm k - t <= timeout)%Z) ->
      exists new,
        w_calls (snd (update tm exch_error cfg s w new_orders lob)) = w_calls w ++ new
        /\ Forall (fun c => ~ acts_on_level L c) new)
  /\ (all_pending tm s w new_orders ->
      classify tm (mid lob) s w Buckets_init new_orders
      = (Ret Buckets_init, s, advance (length new_orders) w)
      /\ fst (fst (update tm exch_error cfg s w new_orders lob)) = Ret tt
      /\ w_calls (snd (update tm exch_error cfg s w new_orders lob))
         = w_calls w ++ (if (oms_num_orders cfg <? order_count s)%Z
                         then [cancel_all_orders (oms_symbol cfg)] else [])
      /\ ((order_count s <= oms_num_orders cfg)%Z ->
          update tm exch_error cfg s w new_orders lob
          = (Ret tt, s, advance (length new_orders) w))
      /\ ((oms_num_orders cfg < order_count s)%Z ->
          update tm exch_error cfg s w new_orders lob
          = (Ret tt,
             (if exch_error (length (w_calls w)) then s else set_pending ∅ s),
             log_calls [cancel_all_orders (oms_symbol cfg)]
               (advance (length new_orders) w)))).
Proof.
  split.
  - intros L t Hp Hf. by apply (update_avoids_level tm exch_error cfg L t).
  - intros Hall.
    pose proof (classify_all_pending tm (mid lob) new_orders s w Buckets_init Hall) as E.
    split; [exact E|]. unfold update. rewrite E, dispatch_empty.
    destruct (Z.ltb_spec (oms_num_orders cfg) (order_count s)) as [Hlt|Hge].
    + unfold cancel_all. simpl.
      destruct (exch_error (length (w_calls w))); simpl;
        (split_and!; [done | done | lia | done]).
    + simpl. rewrite app_nil_r. split_and!; [done | done | done | lia].
Qed.


Lemma single_flight_witness :
  length (w_calls (snd S2_start)) = 4%nat
  /\ all_pending clock_ms (fst S2_start) (snd S2_start) S1_ladder
  /\ update clock_ms exch_ok S_oms_config (fst S2_start) (snd S2_start) S1_ladder S1_lob
     = (Ret tt, fst S2_start, advance (length S1_ladder) (snd S2_start))
  /\ exists new,
       w_calls (snd (update clock_ms exch_ok S_oms_config (fst S2_start) (snd S2_start)
                       S1_ladder S1_lob))
       = w_calls (snd S2_start) ++ new
       /\ Forall (fun c => ~ acts_on_level "000" c) new.
Proof.
  destruct (single_flight clock_ms exch_ok S_oms_config (fst S2_start) (snd S2_start)
              S1_ladder S1_lob) as [Hone Hall].
  assert (Htick : w_tick (snd S2_start) = 4%nat) by (vm_compute; reflexivity).
  assert (Hp : all_pending clock_ms (fst S2_start) (snd S2_start) S1_ladder).
  { unfold all_pending, S1_ladder. rewrite Htick.
    repeat (apply Forall_cons_2; [split; [reflexivity|] |]); [| | | | constructor].
    - exists "BUY_000", 1700000000000%Z.
      split_and!; [reflexivity | vm_compute; reflexivity |].
      intros k Hk. unfold clock_ms, timeout. simpl in Hk. lia.
    - exists "BUY_001", 1700000000001%Z.
      split_and!; [reflexivity | vm_compute; reflexivity |].
      intros k Hk. unfold clock_ms, timeout. simpl in Hk. lia.
    - exists "SELL_002", 1700000000002%Z.
      split_and!; [reflexivity | vm_compute; reflexivity |].
      intros k Hk. unfold clock_ms, timeout. simpl in Hk. lia.
    - exists "SELL_003", 1700000000003%Z.
      split_and!; [reflexivity | vm_compute; reflexivity |].
      intros k Hk. unfold clock_ms, timeout. simpl in Hk. lia. }
  split; [vm_compute; reflexivity|]. split; [exact Hp|].
  destruct (Hall Hp) as (_ & _ & _ & Hupd & _).
  split.
  - apply Hupd. vm_compute. intros H. discriminate H.
  - apply (Hone "000" 1700000000000%Z).
    + vm_compute. reflexivity.
    + intros k Hk. rewrite Htick in Hk. unfold clock_ms, timeout. simpl in Hk. lia.
Defined.

(** ** Order updates: fills, take profits and the order count *)

Lemma last3_tp (c : string) : last3 (c ++ "_tp") = "_tp".
Proof.
  unfold last3.
  assert (E : (String.length (c ++ "_tp") = String.length c + 3)%nat).
  { induction c as [|a c IH]; [reflexivity|]. simpl. by rewrite IH. }
  rewrite E. replace (String.length c + 3 - 3)%nat with (String.length c) by lia.
  clear E. induction c as [|a c IH]; [reflexivity | exact IH].
Qed.

Lemma dict_get_del {V} (k : string) (d : list (string * V)) :
  dict_get k (dict_del k d) = None.
Proof.
  induction d as [|[k' v] d IH]; [reflexivity|]. simpl.
  destruct (String.eqb k k') eqn:E; [exact IH|]. simpl. by rewrite E.
Qed.


Section OrderUpdates.

Variable cfg : OMSConfig.

Lemma take_profit_order_ret (o : Order) (c : string) :
  cloid o = Some c -> ~ oms_tick_size cfg == 0 ->
  take_profit_order cfg o
  = Ret {| symbol := oms_symbol cfg; side := opposite (side o); amount := amount o;
           price := take_profit_price cfg o; order_type := LIMIT;
           cloid := Some (c ++ "_tp")%string; oid := None; tp := None |}.
Proof.
  intros Hc Ht. unfold take_profit_order. rewrite Hc.
  rewrite round_step_ret by assumption. reflexivity.
Qed.

Lemma place_take_profits_world (filled : list Order) (w : World) :
  w_tick (_place_take_profits cfg filled w) = w_tick w
  /\ w_quotes (_place_take_profits cfg filled w) = w_quotes w.
Proof.
  unfold _place_take_profits. by destruct (take_profit_orders cfg filled).
Qed.

Lemma update_orders_step_ret (s : OMS) (filled : list Order) (u : OrderUpdate) :
  is_Some (cloid (order u)) ->
  exists s' filled', update_orders_step s filled u = Ret (s', filled').
Proof.
  intros [c Hc]. unfold update_orders_step. rewrite Hc.
  repeat match goal with
         | |- context [if ?b then _ else _] => destruct b
         | |- context [match ?x with _ => _ end] => destruct x
         end; eexists _, _; reflexivity.
Qed.

Lemma update_orders_loop_ret (data : list OrderUpdate) :
  forall (s : OMS) (filled : list Order),
  Forall (fun u => is_Some (cloid (order u))) data ->
  exists filled' s', update_orders_loop s filled data = (Ret filled', s').
Proof.
  induction data as [|u rest IH]; intros s filled HF; simpl.
  - eexists _, _. reflexivity.
  - inversion HF as [|? ? Hu HF']; subst.
    destruct (update_orders_step_ret s filled u Hu) as (s1 & f1 & ->).
    by apply IH.
Qed.

End OrderUpdates.




(** C6 (the code departs from it): a NEW update followed by a
    PARTIALLY_FILLED update for the same [oid] leaves one entry in
    [orders_state] and an [order_count] of 2; and a CANCELLED update whose
    [cloid] is not a take-profit tag, for an [oid] stored under a
    take-profit [cloid], takes [order_count] below zero. *)
Theorem order_count_drifts :
  let o := limit_order BUY (999 # 10) (15 # 4) (Some "BUY_000") in
  let s := run_batches OMS_init
             [[order_update "NEW" o "X"]; [order_update "PARTIALLY_FILLED" o "X"]] in
  let s' := run_batches OMS_init
              [[order_update "NEW"
                  (limit_order SELL (999 # 10) (15 # 4) (Some "BUY_000_tp")) "Y"];
               [order_update "CANCELLED" o "Y"]] in
  order_count s = 2%Z /\ non_tp_entries s = 1%Z
  /\ map fst (orders_state s) = ["X"]
  /\ order_count s' = (-1)%Z /\ non_tp_entries s' = 0%Z.
Proof. vm_compute. split_and!; reflexivity. Qed.

(** ** The value returned by [update_orders_state] (C10) *)

(** C10: whenever [update_orders_state] returns, it returns [None] (and it
    does return when every record carries a [cloid]); so
    [_on_order_updates] never takes the [requote_on_filled] branch: the
    quoter is not invoked, the clock is not read, and the time of the last
    requote and the state of the quoter are left as they were. *)
Theorem order_updates_never_requote (np_sqrt : Q -> Q) (tm : nat -> Z)
    (exch_error : nat -> bool) (config : MMConfig) (m : MarketMaker) (w : World)
    (s : OMS) (data : list OrderUpdate) :
  (forall v, fst (fst (update_orders_state s data)) = Ret v -> v = PyNone)
  /\ (Forall (fun u => is_Some (cloid (order u))) data ->
      fst (fst (update_orders_state s data)) = Ret PyNone)
  /\ (let '(r, m', w') := _on_order_updates np_sqrt tm exch_error config m w data in
      w_quotes w' = w_quotes w /\ w_tick w' = w_tick w
      /\ last_requote_time m' = last_requote_time m
      /\ quoting_engine m' = quoting_engine m).
Proof.
  split_and!.
  - intros v. unfold update_orders_state.
    destruct (update_orders_loop s [] data) as [[f|e] s']; simpl; [|discriminate].
    intros H. by injection H as <-.
  - intros HF. unfold update_orders_state.
    by destruct (update_orders_loop_ret data s [] HF) as (f & s' & ->).
  - unfold _on_order_updates, update_orders_state.
    destruct (update_orders_loop (oms m) [] data) as [[f|e] s']; simpl; [|done].
    destruct f as [|x f]; simpl; [done|].
    destruct (place_take_profits_world (oms_config config) (x :: f) w) as [-> ->].
    done.
Qed.

Lemma order_updates_never_requote_witness :
  fst (fst (update_orders_state S3_start [S3_fill])) = Ret PyNone
  /\ w_quotes (snd (_on_order_updates Qsqrt clock_ms exch_ok S_config
                      (set_oms S3_start (MarketMaker_init S_config "S")) World_init
                      [S3_fill])) = 0%nat.
Proof.
  destruct (order_updates_never_requote Qsqrt clock_ms exch_ok S_config
              (set_oms S3_start (MarketMaker_init S_config "S")) World_init
              S3_start [S3_fill]) as (_ & Hret & Hreq).
  split.
  - apply Hret. repeat constructor. by eexists.
  - destruct (_on_order_updates _ _ _ _ _ _ _) as [[r m'] w']. simpl.
    by destruct Hreq as [-> _].
Defined.

(** ** Freshness of the pending levels (C8) *)

Section PendingFreshness.

Variable tm : nat -> Z.
Variable exch_error : nat -> bool.
Variable cfg : OMSConfig.

Lemma classify_step_fresh (m : Q) (s : OMS) (w : World) (b : Buckets) (o : Order)
    r s' w' :
  classify_step tm m s w b o = (r, s', w') ->
  (w_tick w <= w_tick w')%nat
  /\ (forall L t, pending_levels s' !! L = Some t ->
        pending_levels s !! L = Some t \/ fresh_between tm w w' t)
  /\ (forall c t, order_type o = LIMIT -> cloid o = Some c ->
        pending_levels s' !! last3 c = Some t -> fresh_between tm w w' t).
Proof.
  unfold classify_step.
  destruct (order_type o) eqn:Ho.
  { intros H. injection H as <- <- <-. split_and!; [lia | by left | done]. }
  destruct (cloid o) as [c|] eqn:Hcl.
  2:{ intros H. injection H as <- <- <-. split_and!; [lia | by left | done]. }
  destruct (_is_level_pending tm (last3 c) s w) as [[p s1] w1] eqn:E.
  apply is_level_pending_spec in E as (_ & _ & Hoth & Hp & Hown & Hw & _).
  assert (Hle : (w_tick w <= w_tick w1)%nat).
  { destruct Hw as [->| ->]; simpl; lia. }
  assert (Hkeep : forall L t, pending_levels s1 !! L = Some t ->
                              pending_levels s !! L = Some t).
  { intros L t HL. destruct (decide (L = last3 c)) as [->|Hne].
    - by apply Hown in HL as [? _].
    - by rewrite <- Hoth. }
  assert (Hlook : forall t, pending_levels s1 !! last3 c = Some t ->
                            fresh_between tm w w1 t).
  { intros t HL. apply Hown in HL as (_ & -> & Hf).
    exists (w_tick w). split; [simpl; lia | done]. }
  assert (Hstay : forall r0, (r0, s1, w1) = (r, s', w') ->
            (w_tick w <= w_tick w')%nat
            /\ (forall L t, pending_levels s' !! L = Some t ->
                  pending_levels s !! L = Some t \/ fresh_between tm w w' t)
            /\ (forall c0 t, LIMIT = LIMIT -> Some c = Some c0 ->
                  pending_levels s' !! last3 c0 = Some t -> fresh_between tm w w' t)).
  { intros r0 H. injection H as <- <- <-. split_and!; [done | |].
    - intros L t HL. left. by apply Hkeep.
    - intros c0 t _ Hc0 HL. injection Hc0 as <-. by apply Hlook. }
  assert (Hadd : forall r0,
            (r0, set_pending (<[last3 c := tm (w_tick w1)]> (pending_levels s1)) s1,
             advance 1 w1) = (r, s', w') ->
            (w_tick w <= w_tick w')%nat
            /\ (forall L t, pending_levels s' !! L = Some t ->
                  pending_levels s !! L = Some t \/ fresh_between tm w w' t)
            /\ (forall c0 t, LIMIT = LIMIT -> Some c = Some c0 ->
                  pending_levels s' !! last3 c0 = Some t -> fresh_between tm w w' t)).
  { intros r0 H. injection H as <- <- <-.
    assert (Hnew : fresh_between tm w (advance 1 w1) (tm (w_tick w1))).
    { exists (w_tick w1). split; [simpl; lia | unfold timeout; lia]. }
    split_and!; [simpl; lia | |].
    - intros L t. simpl. destruct (decide (L = last3 c)) as [->|Hne].
      + rewrite lookup_insert_eq. intros HL. injection HL as <-. by right.
      + rewrite lookup_insert_ne by done. intros HL. left. by apply Hkeep.
    - intros c0 t _ Hc0. injection Hc0 as <-. simpl.
      rewrite lookup_insert_eq. intros HL. by injection HL as <-. }
  destruct p; [apply Hstay|].
  destruct (find_matched_order s1 o) as [[mo|]|e].
  - destruct (is_out_of_bounds _ _ _ _); [|apply Hstay].
    unfold _add_pending_level. rewrite time_ms_advance. apply Hadd.
  - unfold _add_pending_level. rewrite time_ms_advance. apply Hadd.
  - apply Hstay.
Qed.

Lemma fresh_between_widen (w0 w1 w2 w3 : World) (t : Z) :
  (w_tick w0 <= w_tick w1)%nat -> (w_tick w2 <= w_tick w3)%nat ->
  fresh_between tm w1 w2 t -> fresh_between tm w0 w3 t.
Proof. intros H01 H23 (k & Hk & Hf). exists k. split; [lia | done]. Qed.

Lemma classify_fresh (m : Q) (new_orders : list Order) :
  forall (s : OMS) (w : World) (b : Buckets) r s' w',
  classify tm m s w b new_orders = (r, s', w') ->
  (w_tick w <= w_tick w')%nat
  /\ (forall L t, pending_levels s' !! L = Some t ->
        pending_levels s !! L = Some t \/ fresh_between tm w w' t)
  /\ (forall b', r = Ret b' ->
      forall o c t, In o new_orders -> order_type o = LIMIT -> cloid o = Some c ->
        pending_levels s' !! last3 c = Some t -> fresh_between tm w w' t).
Proof.
  induction new_orders as [|o rest IH]; intros s w b r s' w'; simpl.
  - intros H. injection H as <- <- <-. split_and!; [lia | by left | done].
  - destruct (classify_step tm m s w b o) as [[r1 s1] w1] eqn:E.
    apply classify_step_fresh in E as (Hle1 & Hb1 & Hc1).
    destruct r1 as [b1|e].
    + intros H. apply IH in H as (Hle2 & Hb2 & Hc2).
      assert (Hb : forall L t, pending_levels s' !! L = Some t ->
                     pending_levels s !! L = Some t \/ fresh_between tm w w' t).
      { intros L t HL. destruct (Hb2 L t HL) as [H1|Hf].
        - destruct (Hb1 L t H1) as [H0|Hf]; [by left|].
          right. by apply (fresh_between_widen w w w1 w').
        - right. by apply (fresh_between_widen w w1 w' w'). }
      split_and!; [lia | done |].
      intros b' Hr o' c t [<-|Hin] Ht Hc HL.
      * destruct (Hb2 _ _ HL) as [H1|Hf].
        -- apply (fresh_between_widen w w w1 w'); try done. by apply (Hc1 c).
        -- by apply (fresh_between_widen w w1 w' w').
      * apply (fresh_between_widen w w1 w' w'); try done.
        by apply (Hc2 b' Hr o' c).
    + intros H. injection H as <- <- <-. split_and!; done.
Qed.

Lemma cancel_all_pending (s : OMS) (w : World) :
  w_tick (snd (cancel_all exch_error cfg s w)) = w_tick w
  /\ (forall L t, pending_levels (fst (cancel_all exch_error cfg s w)) !! L = Some t ->
        pending_levels s !! L = Some t)
  /\ (exch_error (length (w_calls w)) = false ->
      pending_levels (fst (cancel_all exch_error cfg s w)) = ∅).
Proof.
  unfold cancel_all. destruct (exch_error _); simpl; split_and!; done.
Qed.

Lemma dispatch_pending (b : Buckets) (s : OMS) (w : World) :
  w_tick (snd (dispatch exch_error cfg b s w)) = w_tick w
  /\ (forall L t, pending_levels (fst (dispatch exch_error cfg b s w)) !! L = Some t ->
        pending_levels s !! L = Some t).
Proof.
  unfold dispatch.
  set (r1 := if nonempty (markets b)
             then cancel_all exch_error cfg s (place_orders (markets b) w)
             else (s, w)).
  assert (H1 : w_tick (snd r1) = w_tick w
               /\ forall L t, pending_levels (fst r1) !! L = Some t ->
                              pending_levels s !! L = Some t).
  { subst r1. destruct (nonempty (markets b)); [|done].
    destruct (cancel_all_pending s (place_orders (markets b) w)) as (-> & Hp & _).
    done. }
  destruct r1 as [s1 w1]. simpl in H1. destruct H1 as [Ht1 Hp1].
  set (w4 := when _ _ (when _ _ (when _ _ w1))).
  assert (Ht4 : w_tick w4 = w_tick w).
  { subst w4. unfold when.
    destruct (nonempty (cancels b)), (nonempty (limits b)), (nonempty (amends b));
      simpl; done. }
  destruct (oms_num_orders cfg <? order_count s1)%Z; [|done].
  destruct (cancel_all_pending s1 w4) as (-> & Hp & _).
  split; [done|]. intros L t HL. by apply Hp1, Hp.
Qed.

Lemma update_fresh (s : OMS) (w : World) (new_orders : list Order) (lob : LOB) s' w' :
  update tm exch_error cfg s w new_orders lob = (Ret tt, s', w') ->
  forall o c t, In o new_orders -> order_type o = LIMIT -> cloid o = Some c ->
    pending_levels s' !! last3 c = Some t ->
    exists k, (w_tick w <= k < w_tick w')%nat /\ (tm k - t <= timeout)%Z.
Proof.
  unfold update.
  destruct (classify tm (mid lob) s w Buckets_init new_orders) as [[r s1] w1] eqn:E.
  apply classify_fresh in E as (_ & _ & Hc).
  destruct r as [b|e]; [|discriminate].
  destruct (dispatch_pending b s1 w1) as [Ht Hp].
  destruct (dispatch exch_error cfg b s1 w1) as [s2 w2]. simpl in *.
  intros H. injection H as <- <-. intros o c t Hin Hty Hcl HL.
  destruct (Hc b eq_refl o c t Hin Hty Hcl (Hp _ _ HL)) as (k & Hk & Hf).
  exists k. split; [lia | done].
Qed.

End PendingFreshness.

Lemma update_orders_step_other_level (s s' : OMS) (filled filled' : list Order)
    (u : OrderUpdate) (L : string) :
  update_orders_step s filled u = Ret (s', filled') ->
  (forall c, cloid (order u) = Some c -> last3 c <> L) ->
  pending_levels s' !! L = pending_levels s !! L.
Proof.
  unfold update_orders_step. destruct (cloid (order u)) as [c|]; [|discriminate].
  intros H Hne. specialize (Hne c eq_refl).
  repeat match type of H with
         | context [if ?b then _ else _] => destruct b
         | context [match ?x with _ => _ end] => destruct x
         end;
    injection H as <- _; simpl; try reflexivity; by apply lookup_delete_ne.
Qed.

Lemma update_orders_loop_other_level (data : list OrderUpdate) (L : string) :
  forall (s : OMS) (filled : list Order),
  Forall (fun u => forall c, cloid (order u) = Some c -> last3 c <> L) data ->
  pending_levels (snd (update_orders_loop s filled data)) !! L
  = pending_levels s !! L.
Proof.
  induction data as [|u rest IH]; intros s filled HF; simpl; [reflexivity|].
  inversion HF as [|? ? Hu HF']; subst.
  destruct (update_orders_step s filled u) as [[s1 f1]|e] eqn:E; [|reflexivity].
  rewrite (IH s1 f1 HF').
  by apply (update_orders_step_other_level s s1 filled f1 u).
Qed.

(** C8, as the specification states it, fails: level "000" is marked
    pending at the first reading of the clock; 200 seconds later [update]
    is called for an order of level "001" and returns; the entry of level
    "000" is still there, older than the 10,000 ms timeout at the reading
    made during that call and at the next one.  [update_orders_state] for
    another level leaves it there as well. *)
Lemma stale_entry_survives_update :
  let '(_, s1, w1) :=
    update clock_far exch_ok S_oms_config OMS_init World_init
      [limit_order BUY (999 # 10) (15 # 4) (Some "BUY_000")] S1_lob in
  let '(r2, s2, w2) :=
    update clock_far exch_ok S_oms_config s1 w1
      [limit_order BUY (499 # 5) (25 # 4) (Some "BUY_001")] S1_lob in
  let s3 :=
    snd (fst (update_orders_state s2
                [order_update "REJECTED"
                   (limit_order BUY (499 # 5) (25 # 4) (Some "BUY_001")) "X1"])) in
  r2 = Ret tt
  /\ pending_levels s2 !! "000" = Some 1700000000000%Z
  /\ (timeout <? clock_far (w_tick w1) - 1700000000000)%Z = true
  /\ (timeout <? clock_far (w_tick w2) - 1700000000000)%Z = true
  /\ pending_levels s3 !! "000" = Some 1700000000000%Z.
Proof. vm_compute. split_and!; reflexivity. Qed.

(** C8 (amended): stale entries are collected lazily, on lookup only.
    When [_is_level_pending(L)] leaves [L] in [pending_levels], the entry
    is at most 10,000 ms older than the clock reading taken by that lookup;
    when [update] returns, the entry of the level of each LIMIT order it
    was given, if there is one, was within the timeout at one of the clock
    readings made during the call; [cancel_all] empties [pending_levels]
    when the exchange does not answer with an error.  Entries of levels
    that are not looked up are left as they are by the lookup; and
    [update_orders_state], which never reads the clock, leaves the entry
    of every level that none of its records names as it is, whatever the
    outcome of the batch. *)
Theorem pending_fresh_on_lookup (tm : nat -> Z) (exch_error : nat -> bool)
    (cfg : OMSConfig) (s : OMS) (w : World) :
  (forall L b s' w' t,
      _is_level_pending tm L s w = (b, s', w') ->
      pending_levels s' !! L = Some t ->
      b = true /\ (tm (w_tick w) - t <= timeout)%Z)
  /\ (forall L b s' w' L',
        _is_level_pending tm L s w = (b, s', w') -> L' <> L ->
        pending_levels s' !! L' = pending_levels s !! L')
  /\ (forall new_orders lob s' w' o c t,
        update tm exch_error cfg s w new_orders lob = (Ret tt, s', w') ->
        In o new_orders -> order_type o = LIMIT -> cloid o = Some c ->
        pending_levels s' !! last3 c = Some t ->
        exists k, (w_tick w <= k < w_tick w')%nat /\ (tm k - t <= timeout)%Z)
  /\ (exch_error (length (w_calls w)) = false ->
      pending_levels (fst (cancel_all exch_error cfg s w)) = ∅)
  /\ (forall data L,
        Forall (fun u => forall c, cloid (order u) = Some c -> last3 c <> L) data ->
        pending_levels (snd (fst (update_orders_state s data))) !! L
        = pending_levels s !! L).
Proof.
  split_and!.
  - intros L b s' w' t E HL.
    apply is_level_pending_spec in E as (_ & _ & _ & Hb & Hown & _).
    split; [apply Hb; by eexists | by apply Hown in HL as (_ & _ & ?)].
  - intros L b s' w' L' E Hne.
    apply is_level_pending_spec in E as (_ & _ & Hoth & _). by apply Hoth.
  - intros new_orders lob s' w' o c t E.
    by apply (update_fresh tm exch_error cfg s w new_orders lob).
  - apply cancel_all_pending.
  - intros data L HF.
    pose proof (update_orders_loop_other_level data L s [] HF) as E.
    unfold update_orders_state.
    by destruct (update_orders_loop s [] data) as [[f|e] s'].
Qed.

Lemma pending_fresh_on_lookup_witness :
  update clock_ms exch_ok S_oms_config OMS_init World_init S1_ladder S1_lob
  = (Ret tt, fst S2_start, snd S2_start)
  /\ pending_levels (fst S2_start) !! "000" = Some 1700000000000%Z
  /\ (exists k, (0 <= k < w_tick (snd S2_start))%nat
                /\ (clock_ms k - 1700000000000 <= timeout)%Z)
  /\ pending_levels (fst (cancel_all exch_ok S_oms_config (fst S2_start) (snd S2_start)))
     = ∅.
Proof.
  destruct (pending_fresh_on_lookup clock_ms exch_ok S_oms_config OMS_init World_init)
    as (_ & _ & Hupd & _).
  destruct (pending_fresh_on_lookup clock_ms exch_ok S_oms_config
              (fst S2_start) (snd S2_start)) as (_ & _ & _ & Hcancel & _).
  assert (E : update clock_ms exch_ok S_oms_config OMS_init World_init S1_ladder S1_lob
              = (Ret tt, fst S2_start, snd S2_start)) by (vm_compute; reflexivity).
  assert (HL : pending_levels (fst S2_start) !! last3 "BUY_000"
               = Some 1700000000000%Z) by (vm_compute; reflexivity).
  split; [exact E|]. split; [exact HL|]. split.
  - apply (Hupd S1_ladder S1_lob (fst S2_start) (snd S2_start)
             (limit_order BUY (999 # 10) (15 # 4) (Some "BUY_000")) "BUY_000"
             1700000000000%Z E); [by left | reflexivity | reflexivity | exact HL].
  - apply Hcancel. reflexivity.
Defined.

(** ** The requote rate limit (C7) *)

Section RateLimit.

Variable np_sqrt : Q -> Q.
Variable tm : nat -> Z.
Variable exch_error : nat -> bool.
Variable config : MMConfig.

Lemma requote_skips (m : MarketMaker) (w : World) :
  inject_Z (tm (w_tick w) - last_requote_time m) < min_requote_interval m ->
  requote np_sqrt tm exch_error config m w false = (Ret tt, m, advance 1 w).
Proof.
  intros H. apply Qltb_lt in H. unfold requote.
  rewrite time_ms_advance. simpl. by rewrite H.
Qed.

(** A requote that is not turned away invokes the quoter once, reads the
    clock once and records the time; the quotes, having no [cloid], do not
    get past the first step of [update]. *)
Lemma requote_proceeds (m : MarketMaker) (w : World) (forced : bool) :
  forced = true
  \/ min_requote_interval m <= inject_Z (tm (w_tick w) - last_requote_time m) ->
  exists r,
    requote np_sqrt tm exch_error config m w forced
    = (r,
       set_quoting_engine
         (snd (generate_quote_v2 np_sqrt (quoter_config config) (quoting_engine m)
                 (get_lob (lob_manager m))
                 (get_position (position_manager m) (exch_symbol m)) forced))
         (set_last_requote_time (tm (w_tick w)) m),
       count_quote (advance 1 w)).
Proof.
  intros H. unfold requote. rewrite time_ms_advance.
  assert (E : negb forced
              && Qltb (inject_Z (tm (w_tick w) - last_requote_time m))
                   (min_requote_interval m) = false).
  { destruct H as [->|H]; [reflexivity|].
    apply Qltb_ge in H. rewrite H. apply andb_false_r. }
  rewrite E. simpl.
  destruct (generate_quote_v2 _ _ _ _ _ _) as [r q'] eqn:Eq.
  destruct r as [[|o quotes]|e]; simpl; try (eexists; reflexivity).
  rewrite (quotes_break_update np_sqrt tm exch_error (quoter_config config)
             (oms_config config) (quoting_engine m) (get_lob (lob_manager m))
             (get_position (position_manager m) (exch_symbol m)) forced (o :: quotes));
    [| by rewrite Eq | done].
  eexists. reflexivity.
Qed.

Lemma update_lob_ok (l : LOBManager) (d : OrderbookData) :
  ve_ok (lm_volatility_estimator l) ->
  exists l', update_lob np_sqrt l d = (Ret tt, l')
             /\ ve_ok (lm_volatility_estimator l').
Proof.
  intros Hve. unfold update_lob.
  destruct (ve_update_ok np_sqrt _ (ob_mid d) Hve) as (v & ve' & E). rewrite E.
  eexists. split; [reflexivity|]. simpl. by apply ve_update_ret_ok in E.
Qed.

(** One orderbook event: the clock is read twice, and the quoter is
    invoked exactly when the second reading is at least
    [min_requote_interval] after the last requote. *)
Lemma orderbook_event (m : MarketMaker) (w : World) (d : OrderbookData) :
  ve_ok (lm_volatility_estimator (lob_manager m)) ->
  exists r m',
    _process_event np_sqrt tm exch_error config m w (ev_orderbook d) = (r, m', 
      if Qltb (inject_Z (tm (S (w_tick w)) - last_requote_time m)) (min_requote_interval m)
      then advance 2 w else count_quote (advance 2 w))
    /\ min_requote_interval m' = min_requote_interval m
    /\ ve_ok (lm_volatility_estimator (lob_manager m'))
    /\ last_requote_time m'
       = if Qltb (inject_Z (tm (S (w_tick w)) - last_requote_time m))
              (min_requote_interval m)
         then last_requote_time m else tm (S (w_tick w)).
Proof.
  intros Hve. unfold _process_event. rewrite time_ms_advance.
  unfold _on_orderbook_updates.
  destruct (update_lob_ok (lob_manager m) d Hve) as (l' & -> & Hve').
  set (m0 := {| exch_symbol := exch_symbol m; has_orderbook := true;
                has_position := has_position m; has_usdcusdt := has_usdcusdt m;
                last_requote_time := last_requote_time m;
                min_requote_interval := min_requote_interval m;
                quoting_engine := quoting_engine m; oms := oms m;
                position_manager := position_manager m; lob_manager := l' |}).
  change (tm (S (w_tick w))) with (tm (w_tick (advance 1 w))).
  change (last_requote_time m) with (last_requote_time m0).
  change (min_requote_interval m) with (min_requote_interval m0).
  destruct (Qltb _ _) eqn:E.
  - apply Qltb_lt in E. rewrite (requote_skips m0 (advance 1 w) E).
    rewrite advance_advance. eexists _, _. by split_and!.
  - apply Qltb_ge in E.
    destruct (requote_proceeds m0 (advance 1 w) false (or_intror E)) as [r ->].
    eexists _, _. by split_and!.
Qed.

End RateLimit.

(** C7, as the specification states it, fails: with
    [min_requote_interval = 100], a second orderbook event whose requote
    comes 150 ms after the first one (more than 100 ms) is still turned
    away, and the quoter has been invoked once, not twice. *)
Lemma requote_window_is_longer :
  let '(m1, w1) :=
    _process_events Qsqrt clock_75 exch_ok S_config
      (MarketMaker_init S_config "S") World_init [ev_orderbook book_100] in
  let '(r2, m2, w2) :=
    _process_event Qsqrt clock_75 exch_ok S_config m1 w1 (ev_orderbook book_100) in
  cfg_min_requote_interval S_config = 100
  /\ w_quotes w1 = 1%nat
  /\ (clock_75 (S (w_tick w1)) - last_requote_time m1 = 150)%Z
  /\ r2 = Ret tt
  /\ w_quotes w2 = 1%nat
  /\ last_requote_time m2 = last_requote_time m1
  /\ quoting_engine m2 = quoting_engine m1.
Proof. vm_compute. split_and!; reflexivity. Qed.

(** C7 (amended): the window of the rate limit is the configured
    [min_requote_interval] multiplied by 1000, in milliseconds.  A
    non-forced [requote] returns at once, without invoking the quoter,
    when fewer than [min_requote_interval * 1000] ms have elapsed since the
    last requote; once at least that many have elapsed it records the time
    and invokes the quoter.  Two orderbook events whose requotes are 10 ms
    apart, with [min_requote_interval = 100], invoke the quoter exactly
    once. *)
Theorem requote_rate_limit (np_sqrt : Q -> Q) (tm : nat -> Z)
    (exch_error : nat -> bool) (config : MMConfig) (m : MarketMaker) (w : World) :
  min_requote_interval m = cfg_min_requote_interval config * 1000 ->
  (inject_Z (tm (w_tick w) - last_requote_time m)
   < cfg_min_requote_interval config * 1000 ->
   requote np_sqrt tm exch_error config m w false = (Ret tt, m, advance 1 w))
  /\ (cfg_min_requote_interval config * 1000
      <= inject_Z (tm (w_tick w) - last_requote_time m) ->
      exists r m',
        requote np_sqrt tm exch_error config m w false
        = (r, m', count_quote (advance 1 w))
        /\ last_requote_time m' = tm (w_tick w))
  /\ (ve_ok (lm_volatility_estimator (lob_manager m)) ->
      cfg_min_requote_interval config == 100 ->
      (100000 <= tm (1 + w_tick w)%nat - last_requote_time m)%Z ->
      tm (3 + w_tick w)%nat = (tm (1 + w_tick w)%nat + 10)%Z ->
      forall d1 d2,
        w_quotes (snd (_process_events np_sqrt tm exch_error config m w
                         [ev_orderbook d1; ev_orderbook d2]))
        = S (w_quotes w)).
Proof.
  intros Hmri. split_and!.
  - intros H. apply requote_skips. by rewrite Hmri.
  - intros H.
    destruct (requote_proceeds np_sqrt tm exch_error config m w false) as [r E].
    { right. by rewrite Hmri. }
    eexists _, _. split; [exact E | reflexivity].
  - intros Hve Hc Hfar Hnear d1 d2.
    assert (Hwin : min_requote_interval m == inject_Z 100000).
    { rewrite Hmri, Hc. reflexivity. }
    destruct (orderbook_event np_sqrt tm exch_error config m w d1 Hve)
      as (r1 & m1 & E1 & Hmri1 & Hve1 & Hlast1).
    assert (G1 : Qltb (inject_Z (tm (S (w_tick w)) - last_requote_time m))
                   (min_requote_interval m) = false).
    { apply Qltb_ge. rewrite Hwin. rewrite <- Zle_Qle. exact Hfar. }
    rewrite G1 in E1, Hlast1.
    destruct (orderbook_event np_sqrt tm exch_error config m1
                (count_quote (advance 2 w)) d2 Hve1)
      as (r2 & m2 & E2 & _).
    assert (G2 : Qltb (inject_Z (tm (S (w_tick (count_quote (advance 2 w))))
                                 - last_requote_time m1))
                   (min_requote_interval m1) = true).
    { apply Qltb_lt. rewrite Hmri1, Hwin, Hlast1. rewrite <- Zlt_Qlt.
      change (S (w_tick (count_quote (advance 2 w)))) with (3 + w_tick w)%nat.
      change (S (w_tick w)) with (1 + w_tick w)%nat. lia. }
    rewrite G2 in E2.
    cbn [_process_events]. rewrite E1, E2. reflexivity.
Qed.

Lemma requote_rate_limit_witness :
  min_requote_interval (MarketMaker_init S_config "S")
  = cfg_min_requote_interval S_config * 1000
  /\ (clock_S5 3 - clock_S5 1 = 10)%Z
  /\ w_quotes (snd (_process_events Qsqrt clock_S5 exch_ok S_config
                      (MarketMaker_init S_config "S") World_init
                      [ev_orderbook book_100; ev_orderbook book_100])) = 1%nat.
Proof.
  assert (Hmri : min_requote_interval (MarketMaker_init S_config "S")
                 = cfg_min_requote_interval S_config * 1000) by reflexivity.
  destruct (requote_rate_limit Qsqrt clock_S5 exch_ok S_config
              (MarketMaker_init S_config "S") World_init Hmri) as (_ & _ & HS5).
  split; [exact Hmri|]. split; [reflexivity|].
  apply HS5.
  - left. simpl. lia.
  - reflexivity.
  - unfold clock_S5. simpl. lia.
  - reflexivity.
Defined.

(** * Further properties *)

(** ** Rounding to a step (utils/rounding_utils.py) *)

Lemma Qtrunc_comp (q q' : Q) : q == q' -> Qtrunc q = Qtrunc q'.
Proof.
  destruct q as [n d], q' as [n' d']. unfold Qeq, Qtrunc. simpl. intros E.
  rewrite <- (Z.quot_mul_cancel_r n (Zpos d) (Zpos d')) by lia.
  rewrite <- (Z.quot_mul_cancel_r n' (Zpos d') (Zpos d)) by lia.
  rewrite E. f_equal. lia.
Qed.

Lemma Qtrunc_inject_Z (z : Z) : Qtrunc (inject_Z z) = z.
Proof. unfold Qtrunc. simpl. apply Z.quot_1_r. Qed.

Lemma Qtrunc_nonneg (q : Q) : 0 <= q -> Qtrunc q = Qfloor q /\ (0 <= Qtrunc q)%Z.
Proof.
  destruct q as [n d]. unfold Qle, Qtrunc, Qfloor. simpl. intros H.
  assert (Hn : (0 <= n)%Z) by lia.
  split; [apply Z.quot_div_nonneg; lia | apply Z.quot_pos; lia].
Qed.

Lemma round_step_value (x s : Q) :
  ~ s == 0 ->
  exists r, round_step x s = Ret r /\ r == s * inject_Z (Qtrunc (x / s)).
Proof.
  intros Hs. rewrite round_step_ret by assumption. eexists. split; [reflexivity|].
  rewrite Qred_correct. unfold decimal_mod. ring.
Qed.

(** X1: for a positive step and a non-negative number, [round_step]
    returns a whole, non-negative number of steps that is at most the
    number and less than one step below it: prices and amounts are rounded
    down to the grid. *)
Theorem round_step_rounds_down (x s : Q) :
  0 < s -> 0 <= x ->
  exists r n, round_step x s = Ret r
              /\ (0 <= n)%Z /\ r == s * inject_Z n
              /\ r <= x /\ x < r + s.
Proof.
  intros Hs Hx.
  assert (Hs0 : ~ s == 0) by lra.
  destruct (round_step_value x s Hs0) as (r & Hr & Er).
  assert (Hq : 0 <= x / s) by (apply Qle_shift_div_l; lra).
  destruct (Qtrunc_nonneg _ Hq) as [Et Hn].
  exists r, (Qtrunc (x / s)). split_and!; try done.
  - rewrite Er, Et.
    assert (H := Qfloor_le (x / s)).
    assert (E : x == s * (x / s)) by (field; lra).
    rewrite E at 2. nra.
  - rewrite Er, Et.
    assert (H := Qlt_floor (x / s)).
    rewrite inject_Z_plus in H.
    assert (E : x == s * (x / s)) by (field; lra).
    rewrite E at 1. change (inject_Z 1) with 1 in H. nra.
Qed.

Lemma round_step_rounds_down_witness :
  exists r n, round_step (9995 # 100) (1 # 10) = Ret r
              /\ (0 <= n)%Z /\ r == (1 # 10) * inject_Z n
              /\ r <= 9995 # 100 /\ 9995 # 100 < r + (1 # 10).
Proof.
  apply round_step_rounds_down; [reflexivity | discriminate].
Defined.

(** X2: [round_step] is idempotent: a number that it returned is returned
    unchanged when rounded again to the same step. *)
Theorem round_step_idempotent (x s r : Q) :
  round_step x s = Ret r -> round_step r s = Ret r.
Proof.
  unfold round_step. destruct (Qeq_bool s 0) eqn:E; [discriminate|].
  intros H. injection H as <-. f_equal.
  assert (Hs : ~ s == 0).
  { intros H0. apply Qeq_bool_iff in H0. congruence. }
  set (t := Qtrunc (x / s)).
  assert (Ey : x - decimal_mod x s == s * inject_Z t).
  { unfold decimal_mod. subst t. ring. }
  set (y := x - decimal_mod x s) in *.
  assert (Er : Qred y == s * inject_Z t) by (by rewrite Qred_correct).
  assert (Et : Qtrunc (Qred y / s) = t).
  { rewrite <- (Qtrunc_inject_Z t). apply Qtrunc_comp. rewrite Er. field. exact Hs. }
  apply Qred_complete. unfold decimal_mod. rewrite Et, Ey. ring.
Qed.

Lemma round_step_idempotent_witness :
  round_step (9995 # 100) (1 # 10) = Ret (999 # 10)
  /\ round_step (999 # 10) (1 # 10) = Ret (999 # 10).
Proof.
  assert (H : round_step (9995 # 100) (1 # 10) = Ret (999 # 10)) by reflexivity.
  split; [exact H | exact (round_step_idempotent _ _ _ H)].
Defined.

(** ** Weights and sizes (utils/calc_utils.py, quoting_engines/simple.py) *)

Lemma fold_Qplus_acc (l : list Q) (a : Q) :
  fold_left Qplus l a == a + Qsum l.
Proof.
  unfold Qsum. revert a. induction l as [|x l IH]; intros a; simpl.
  - ring.
  - rewrite (IH (a + x)), (IH (0 + x)). ring.
Qed.

Lemma Qsum_cons (x : Q) (l : list Q) : Qsum (x :: l) == x + Qsum l.
Proof. unfold Qsum at 1. simpl. rewrite fold_Qplus_acc. ring. Qed.

Lemma Qsum_app (l1 l2 : list Q) : Qsum (l1 ++ l2) == Qsum l1 + Qsum l2.
Proof.
  induction l1 as [|x l1 IH]; simpl.
  - unfold Qsum at 2. simpl. ring.
  - rewrite !Qsum_cons, IH. ring.
Qed.

Lemma Qsum_rev (l : list Q) : Qsum (rev l) == Qsum l.
Proof.
  induction l as [|x l IH]; simpl; [reflexivity|].
  rewrite Qsum_app, IH, !Qsum_cons. unfold Qsum at 2. simpl. ring.
Qed.

Lemma Qsum_map_scale (a c : Q) (l : list Q) :
  Qsum (map (fun w => a * w / c) l) == a * Qsum l / c.
Proof.
  induction l as [|x l IH]; simpl.
  - unfold Qsum. simpl. unfold Qdiv. ring.
  - rewrite !Qsum_cons, IH. unfold Qdiv. ring.
Qed.

Lemma Qsum_map_div (c : Q) (l : list Q) :
  Qsum (map (fun w => w / c) l) == Qsum l / c.
Proof.
  induction l as [|x l IH]; simpl.
  - unfold Qsum. simpl. unfold Qdiv. ring.
  - rewrite !Qsum_cons, IH. unfold Qdiv. ring.
Qed.

Lemma Qsum_pos (l : list Q) : Forall (fun x => 0 < x) l -> l <> [] -> 0 < Qsum l.
Proof.
  induction l as [|x l IH]; [done|]. intros HF _.
  inversion HF as [|? ? Hx HF']; subst. rewrite Qsum_cons.
  destruct l as [|y l].
  - unfold Qsum. simpl. lra.
  - assert (0 < Qsum (y :: l)) by (by apply IH). lra.
Qed.

Lemma powers_pos (r : Q) (n k : nat) :
  0 < r -> Forall (fun x => 0 < x) (map (fun i => r ^ Z.of_nat i) (seq k n)).
Proof.
  intros Hr. apply Forall_map, Forall_forall. intros i _. by apply Qpower_0_lt.
Qed.

Lemma geometric_weights_ret (num : Z) (r : Q) :
  0 < r -> (2 <= num)%Z ->
  exists ws, geometric_weights num r = Ret ws
             /\ length ws = Z.to_nat (Z.quot num 2)
             /\ Forall (fun x => 0 < x) ws
             /\ Qsum ws == 1.
Proof.
  unfold geometric_weights.
  intros Hr Hn. destruct (Z.ltb_spec 0 num) as [_|?]; [|lia].
  set (k := Z.to_nat (Z.quot num 2)).
  assert (Hk : (0 < k)%nat).
  { subst k. assert (1 <= Z.quot num 2)%Z; [|lia].
    apply Z.quot_le_lower_bound; lia. }
  set (pw := map (fun i => r ^ Z.of_nat i) (seq 0 k)).
  assert (Hpw : Forall (fun x => 0 < x) pw) by (by apply powers_pos).
  assert (Hne : pw <> []).
  { subst pw. destruct k; [lia | discriminate]. }
  assert (Hs : 0 < Qsum pw) by (by apply Qsum_pos).
  eexists. split; [reflexivity|]. split_and!.
  - subst pw. by rewrite !length_map, length_seq.
  - apply Forall_map. eapply Forall_impl; [exact Hpw|].
    simpl. intros x Hx. apply Qlt_shift_div_l; lra.
  - rewrite Qsum_map_div. field. lra.
Qed.

(** X3: for a positive ratio and at least two orders, [geometric_weights]
    returns [num_orders/2] (integer part) positive weights that sum to 1; a
    single order gives the empty array, and no order or fewer fails its
    assertion. *)
Theorem geometric_weights_normalised (num : Z) (r : Q) :
  (0 < r -> (2 <= num)%Z ->
   exists ws, geometric_weights num r = Ret ws
              /\ length ws = Z.to_nat (Z.quot num 2)
              /\ Forall (fun x => 0 < x) ws
              /\ Qsum ws == 1)
  /\ (num = 1%Z -> geometric_weights num r = Ret [])
  /\ ((num <= 0)%Z -> geometric_weights num r = Raise AssertionError).
Proof.
  split_and!.
  - apply geometric_weights_ret.
  - intros ->. reflexivity.
  - intros Hn. unfold geometric_weights.
    by destruct (Z.ltb_spec 0 num) as [?|_]; [lia|].
Qed.

Lemma geometric_weights_normalised_witness :
  exists ws, geometric_weights 4 (6 # 10) = Ret ws
             /\ length ws = 2%nat /\ Qsum ws == 1.
Proof.
  destruct (geometric_weights_normalised 4 (6 # 10)) as (H & _ & _).
  destruct H as (ws & E & Hl & _ & Hs); [reflexivity | lia |].
  exists ws. split_and!; done.
Defined.

(** X4: with at least two orders and a non-zero mid, the sizes returned by
    [_sizes] for one side add up to [gross_exposure_dollars / mid]: the
    notional of a full ladder is the gross exposure. *)
Theorem sizes_total_exposure (cfg : QuoterConfig) (m : Q) :
  (2 <= num_orders cfg)%Z -> ~ m == 0 ->
  exists sizes, _sizes cfg m = Ret sizes
                /\ length sizes = Z.to_nat (Z.quot (num_orders cfg) 2)
                /\ Qsum sizes * m == gross_exposure_dollars cfg.
Proof.
  intros Hn Hm. unfold _sizes.
  destruct (geometric_weights_ret (num_orders cfg) (6 # 10))
    as (ws & -> & Hl & _ & Hs); [reflexivity | done |]. simpl.
  eexists. split; [reflexivity|]. split.
  - by rewrite length_rev, length_map.
  - rewrite Qsum_rev, Qsum_map_scale, Hs. field. exact Hm.
Qed.

Lemma sizes_total_exposure_witness :
  exists sizes, _sizes S1_config 100 = Ret sizes
                /\ length sizes = 2%nat
                /\ Qsum sizes * 100 == 1000.
Proof.
  apply (sizes_total_exposure S1_config 100); [simpl; lia | discriminate].
Defined.

(** ** Skews (quoting_engines/simple.py) *)

Lemma skew_inside (cfg : QuoterConfig) (pos : Q) :
  0 < inventory_max_dollars cfg ->
  - inventory_max_dollars cfg < pos < inventory_max_dollars cfg ->
  exists bs aks,
    _skew cfg pos = Ret (bs, aks) /\ 0 <= bs /\ bs < 1 /\ 0 <= aks /\ aks < 1.
Proof.
  intros Hmax [Hlo Hhi]. unfold _skew, nbabs, Qgtb.
  rewrite Qeq_bool_false_pos by assumption.
  set (d := pos / inventory_max_dollars cfg).
  assert (Hd : pos == d * inventory_max_dollars cfg) by (subst d; field; lra).
  assert (Hd1 : - 1 < d < 1) by (split; nra).
  eexists _, _. split; [reflexivity|].
  apply Qltb_lt in Hlo. apply Qltb_lt in Hhi. rewrite Hlo, Hhi.
  destruct (Qltb d 0) eqn:E1; [apply Qltb_lt in E1 | apply Qltb_ge in E1];
  destruct (Qltb 0 d) eqn:E2; [apply Qltb_lt in E2 | apply Qltb_ge in E2
                               | apply Qltb_lt in E2 | apply Qltb_ge in E2];
  try (exfalso; lra);
  repeat match goal with
         | |- context [Qabs (0 + 0)] => change (Qabs (0 + 0)) with 0
         | |- context [Qabs (0 - 0)] => change (Qabs (0 - 0)) with 0
         | |- context [Qabs (0 + d)] => rewrite (Qabs_neg (0 + d)) by lra
         | |- context [Qabs (0 - d)] => rewrite (Qabs_neg (0 - d)) by lra
         end;
  split_and!; lra.
Qed.

(** X5: with a positive [inventory_max_dollars], [_skew] returns two
    skews between 0 and 1 of which at least one is 0; strictly inside the
    inventory bounds a short position gives the bid skew
    [-position/inventory_max_dollars] and a long position the ask skew
    [position/inventory_max_dollars]. *)
Theorem skew_range (cfg : QuoterConfig) (pos : Q) :
  0 < inventory_max_dollars cfg ->
  exists bs aks,
    _skew cfg pos = Ret (bs, aks)
    /\ 0 <= bs <= 1 /\ 0 <= aks <= 1
    /\ (bs == 0 \/ aks == 0)
    /\ (- inventory_max_dollars cfg < pos <= 0 ->
        bs == - (pos / inventory_max_dollars cfg) /\ aks == 0)
    /\ (0 <= pos < inventory_max_dollars cfg ->
        bs == 0 /\ aks == pos / inventory_max_dollars cfg).
Proof.
  intros Hmax. unfold _skew, nbabs, Qgtb.
  rewrite Qeq_bool_false_pos by assumption.
  set (d := pos / inventory_max_dollars cfg).
  assert (Hd : pos == d * inventory_max_dollars cfg) by (subst d; field; lra).
  eexists _, _. split; [reflexivity|].
  destruct (Qltb d 0) eqn:E1; [apply Qltb_lt in E1 | apply Qltb_ge in E1];
  destruct (Qltb 0 d) eqn:E2; [apply Qltb_lt in E2 | apply Qltb_ge in E2
                               | apply Qltb_lt in E2 | apply Qltb_ge in E2];
  destruct (Qltb (- inventory_max_dollars cfg) pos) eqn:E3;
    [apply Qltb_lt in E3 | apply Qltb_ge in E3 | apply Qltb_lt in E3 | apply Qltb_ge in E3
     | apply Qltb_lt in E3 | apply Qltb_ge in E3 | apply Qltb_lt in E3 | apply Qltb_ge in E3];
  destruct (Qltb pos (inventory_max_dollars cfg)) eqn:E4;
    try apply Qltb_lt in E4; try apply Qltb_ge in E4;
  try (exfalso; nra);
  repeat match goal with
         | |- context [Qabs (0 + 0)] => change (Qabs (0 + 0)) with 0
         | |- context [Qabs (0 - 0)] => change (Qabs (0 - 0)) with 0
         | |- context [Qabs 1] => change (Qabs 1) with 1
         | |- context [Qabs (0 + d)] => rewrite (Qabs_neg (0 + d)) by lra
         | |- context [Qabs (0 - d)] => rewrite (Qabs_neg (0 - d)) by lra
         end;
  split_and!; try lra; try nra; try (left; lra); try (right; lra);
  try (intros; split; lra); try (intros; exfalso; nra); try (intros; split; nra).
Qed.

Lemma skew_range_witness :
  exists bs aks,
    _skew S1_config (-2500) = Ret (bs, aks)
    /\ bs == 1 # 4 /\ aks == 0.
Proof.
  destruct (skew_range S1_config (-2500)) as (bs & aks & E & _ & _ & _ & Hs & _);
    [reflexivity|].
  exists bs, aks. split; [exact E|].
  destruct Hs as [-> ->]; [split; [reflexivity | discriminate]|].
  split; reflexivity.
Defined.

(** ** Calls of the quoter that fail, ladders and gating *)

Section QuoterMore.

Variable np_sqrt : Q -> Q.
Variable cfg : QuoterConfig.

Lemma prices_raise (m bs aks v : Q) :
  (Z.quot (num_orders cfg) 2 < 0)%Z -> _prices cfg m bs aks v = Raise ValueError.
Proof.
  intros H. unfold _prices, nblinspace.
  destruct (Z.ltb_spec (Z.quot (num_orders cfg) 2) 0) as [_|?]; [|lia].
  by destruct (Qgeb bs 1), (Qgeb aks 1).
Qed.

Lemma linspace_below (a b : Q) (n : nat) :
  b <= a -> Forall (fun p => p <= a) (linspace a b n).
Proof.
  intros H. destruct n as [|[|d]]; simpl.
  - constructor.
  - constructor; [lra | constructor].
  - change (a + inject_Z (Z.of_nat 0) * ((b - a) / inject_Z (Z.of_nat (S d)))
            :: a + inject_Z (Z.of_nat 1) * ((b - a) / inject_Z (Z.of_nat (S d)))
            :: map (fun i => a + inject_Z (Z.of_nat i)
                                 * ((b - a) / inject_Z (Z.of_nat (S d)))) (seq 2 d))
      with (map (fun i => a + inject_Z (Z.of_nat i)
                              * ((b - a) / inject_Z (Z.of_nat (S d)))) (seq 0 (S (S d)))).
    apply Forall_map, Forall_forall. intros i _.
    assert (Hi : 0 <= inject_Z (Z.of_nat i)).
    { change 0 with (inject_Z 0). rewrite <- Zle_Qle. lia. }
    assert (Hd : 0 < inject_Z (Z.of_nat (S d))).
    { change 0 with (inject_Z 0). rewrite <- Zlt_Qlt. lia. }
    assert (Hq : (b - a) / inject_Z (Z.of_nat (S d)) <= 0).
    { apply Qle_shift_div_r; lra. }
    nra.
Qed.

Lemma linspace_above (a b : Q) (n : nat) :
  a <= b -> Forall (fun p => a <= p) (linspace a b n).
Proof.
  intros H. destruct n as [|[|d]]; simpl.
  - constructor.
  - constructor; [lra | constructor].
  - change (a + inject_Z (Z.of_nat 0) * ((b - a) / inject_Z (Z.of_nat (S d)))
            :: a + inject_Z (Z.of_nat 1) * ((b - a) / inject_Z (Z.of_nat (S d)))
            :: map (fun i => a + inject_Z (Z.of_nat i)
                                 * ((b - a) / inject_Z (Z.of_nat (S d)))) (seq 2 d))
      with (map (fun i => a + inject_Z (Z.of_nat i)
                              * ((b - a) / inject_Z (Z.of_nat (S d)))) (seq 0 (S (S d)))).
    apply Forall_map, Forall_forall. intros i _.
    assert (Hi : 0 <= inject_Z (Z.of_nat i)).
    { change 0 with (inject_Z 0). rewrite <- Zle_Qle. lia. }
    assert (Hd : 0 < inject_Z (Z.of_nat (S d))).
    { change 0 with (inject_Z 0). rewrite <- Zlt_Qlt. lia. }
    assert (Hq : 0 <= (b - a) / inject_Z (Z.of_nat (S d))).
    { apply Qle_shift_div_l; lra. }
    nra.
Qed.

End QuoterMore.

(** X6: a call of [generate_quote_v2] that fails.  With
    [inventory_max_dollars = 0] the division in [_skew] raises and the
    quoter is left untouched.  With [num_orders <= 0] the call raises
    after the volatility estimator has taken the sample ([ValueError] from
    [linspace] below -1, [AssertionError] from [geometric_weights]
    otherwise): the gating memory keeps its values, the estimator has
    moved. *)
Theorem generate_quote_v2_failures (np_sqrt : Q -> Q) (cfg : QuoterConfig)
    (q : SimpleQuoter) (lob : LOB) (pos : Q) (forced : bool) :
  (inventory_max_dollars cfg == 0 ->
   generate_quote_v2 np_sqrt cfg q lob pos forced = (Raise ZeroDivisionError, q))
  /\ (~ inventory_max_dollars cfg == 0 -> ve_ok (volatility_estimator q) ->
      (num_orders cfg <= 0)%Z ->
      generate_quote_v2 np_sqrt cfg q lob pos forced
      = (Raise (if (Z.quot (num_orders cfg) 2 <? 0)%Z then ValueError
                else AssertionError),
         set_volatility_estimator
           (snd (ve_update np_sqrt (volatility_estimator q) (mid lob))) q)).
Proof.
  split.
  - intros H. unfold generate_quote_v2, _skew.
    apply Qeq_bool_iff in H. by rewrite H.
  - intros Hi Hve Hn. unfold generate_quote_v2.
    destruct (skew_ret cfg pos Hi) as (bs & aks & ->).
    destruct (ve_update_ok np_sqrt _ (mid lob) Hve) as (v & ve' & ->). simpl.
    destruct (Z.ltb_spec (Z.quot (num_orders cfg) 2) 0) as [Hq|Hq].
    + by rewrite prices_raise.
    + destruct (prices_ret cfg (mid lob) bs aks v Hq) as [r ->]. simpl.
      unfold _sizes, geometric_weights.
      by destruct (Z.ltb_spec 0 (num_orders cfg)) as [?|_]; [lia|].
Qed.

Lemma generate_quote_v2_failures_witness :
  generate_quote_v2 Qsqrt
    {| q_symbol := "S"; num_orders := 0; lot_size := 1 # 1000; tick_size := 1 # 10;
       spread_bps := 10; gross_exposure_dollars := 1000; epsilon := 1;
       inventory_max_dollars := 10000 |} SimpleQuoter_init S1_lob 0 true
  = (Raise AssertionError,
     set_volatility_estimator
       (snd (ve_update Qsqrt (VolatilityEstimator_init 30) 100)) SimpleQuoter_init).
Proof.
  destruct (generate_quote_v2_failures Qsqrt
    {| q_symbol := "S"; num_orders := 0; lot_size := 1 # 1000; tick_size := 1 # 10;
       spread_bps := 10; gross_exposure_dollars := 1000; epsilon := 1;
       inventory_max_dollars := 10000 |} SimpleQuoter_init S1_lob 0 true) as [_ H].
  apply H.
  - discriminate.
  - left. simpl. lia.
  - simpl. lia.
Defined.

(** X7: below the caps (both skews in [0, 1)), with a non-negative
    [num_orders] and a non-negative base range, [_prices] returns both
    ladders, [num_orders/2] prices each; no bid is above
    [mid - base_range/2] and no ask is below [mid + base_range/2], so the
    ladders do not cross before rounding. *)
Theorem prices_do_not_cross (cfg : QuoterConfig) (m bs aks v : Q) :
  0 <= bs < 1 -> 0 <= aks < 1 -> (0 <= num_orders cfg)%Z ->
  0 <= spread_bps cfg * m / 10000 + v ->
  exists bids asks,
    _prices cfg m bs aks v = Ret (Some bids, Some asks)
    /\ length bids = Z.to_nat (Z.quot (num_orders cfg) 2)
    /\ length asks = Z.to_nat (Z.quot (num_orders cfg) 2)
    /\ Forall (fun p => p <= m - (spread_bps cfg * m / 10000 + v) / 2) bids
    /\ Forall (fun p => m + (spread_bps cfg * m / 10000 + v) / 2 <= p) asks.
Proof.
  intros Hb Ha Hn Hr. unfold _prices, Qgeb.
  assert (E1 : Qle_bool 1 bs = false).
  { destruct (Qle_bool 1 bs) eqn:E; [|done]. apply Qle_bool_iff in E. lra. }
  assert (E2 : Qle_bool 1 aks = false).
  { destruct (Qle_bool 1 aks) eqn:E; [|done]. apply Qle_bool_iff in E. lra. }
  rewrite E1, E2.
  assert (Hq : (0 <= Z.quot (num_orders cfg) 2)%Z) by (apply Z.quot_pos; lia).
  rewrite !nblinspace_ret by assumption. simpl.
  set (br := spread_bps cfg * m / 10000 + v) in *.
  assert (HN : 0 <= inject_Z (num_orders cfg)).
  { change 0 with (inject_Z 0). by rewrite <- Zle_Qle. }
  assert (Hc1 : 0 <= br / 2 * (1 - bs) * (1 + aks) * inject_Z (num_orders cfg) / 2).
  { apply Qle_shift_div_l; [reflexivity|].
    assert (0 <= br / 2) by (apply Qle_shift_div_l; lra).
    assert (0 <= br / 2 * (1 - bs)) by nra.
    assert (0 <= br / 2 * (1 - bs) * (1 + aks)) by nra.
    nra. }
  assert (Hc2 : 0 <= br / 2 * (1 - aks) * (1 + bs) * inject_Z (num_orders cfg) / 2).
  { apply Qle_shift_div_l; [reflexivity|].
    assert (0 <= br / 2) by (apply Qle_shift_div_l; lra).
    assert (0 <= br / 2 * (1 - aks)) by nra.
    assert (0 <= br / 2 * (1 - aks) * (1 + bs)) by nra.
    nra. }
  eexists _, _. split; [reflexivity|].
  split_and!; try apply linspace_length.
  - apply linspace_below. lra.
  - apply linspace_above. lra.
Qed.

Lemma prices_do_not_cross_witness :
  exists bids asks,
    _prices S1_config 100 0 0 0 = Ret (Some bids, Some asks)
    /\ length bids = 2%nat /\ length asks = 2%nat
    /\ Forall (fun p => p <= 100 - (10 * 100 / 10000 + 0) / 2) bids
    /\ Forall (fun p => 100 + (10 * 100 / 10000 + 0) / 2 <= p) asks.
Proof.
  apply (prices_do_not_cross S1_config 100 0 0 0).
  - split; [discriminate | reflexivity].
  - split; [discriminate | reflexivity].
  - simpl. lia.
  - discriminate.
Defined.

Section QuoteShape.

Variable np_sqrt : Q -> Q.
Variable cfg : QuoterConfig.

Lemma round_step_grid (x s r : Q) :
  round_step x s = Ret r -> exists n, r == s * inject_Z n.
Proof.
  unfold round_step. destruct (Qeq_bool s 0); [discriminate|].
  intros H. injection H as <-. exists (Qtrunc (x / s)).
  rewrite Qred_correct. unfold decimal_mod. ring.
Qed.

Lemma emit_grid (sd : Side) (ps ss : list Q) (l : list Order) :
  emit cfg sd ps ss = Ret l -> Forall (on_grid cfg) l.
Proof.
  revert ss l. induction ps as [|p ps IH]; intros ss l; simpl.
  - intros H. injection H as <-. constructor.
  - destruct ss as [|s ss].
    + intros H. injection H as <-. constructor.
    + destruct (round_step s (lot_size cfg)) as [a|] eqn:Ea; [|discriminate]. simpl.
      destruct (round_step p (tick_size cfg)) as [pr|] eqn:Ep; [|discriminate]. simpl.
      destruct (emit cfg sd ps ss) as [rest|] eqn:E; [|discriminate]. simpl.
      intros H. injection H as <-. constructor; [|by apply (IH ss)].
      unfold on_grid. simpl. split_and!; try done.
      * by apply round_step_grid in Ep.
      * by apply round_step_grid in Ea.
Qed.

Lemma emit_side_grid (sd : Side) ps (ss : list Q) (l : list Order) :
  emit_side cfg sd ps ss = Ret l -> Forall (on_grid cfg) l.
Proof.
  destruct ps as [p|]; simpl; [apply emit_grid|].
  intros H. injection H as <-. constructor.
Qed.

End QuoteShape.

(** X8: the list returned by [generate_quote_v2] is a run of BUY orders
    followed by a run of SELL orders, each run at most [num_orders/2] long;
    every order is a LIMIT order of the configured symbol without [cloid]
    or [oid], priced at a whole number of ticks for a whole number of
    lots. *)
Theorem quotes_shape (np_sqrt : Q -> Q) (cfg : QuoterConfig) (q : SimpleQuoter)
    (lob : LOB) (pos : Q) (forced : bool) (quotes : list Order) :
  fst (generate_quote_v2 np_sqrt cfg q lob pos forced) = Ret quotes ->
  exists bids asks,
    quotes = bids ++ asks
    /\ Forall (fun o => side o = BUY) bids
    /\ Forall (fun o => side o = SELL) asks
    /\ (length bids <= Z.to_nat (Z.quot (num_orders cfg) 2))%nat
    /\ (length asks <= Z.to_nat (Z.quot (num_orders cfg) 2))%nat
    /\ Forall (on_grid cfg) quotes.
Proof.
  unfold generate_quote_v2.
  destruct (_skew cfg pos) as [[bs aks]|]; [|discriminate].
  destruct (ve_update _ _ _) as [[v|] ve']; [|discriminate].
  destruct (_prices _ _ _ _ _) as [[bp ap]|]; [|discriminate]. simpl.
  destruct (_sizes _ _) as [ss|] eqn:Es; [|discriminate]. simpl.
  apply sizes_inv in Es as [_ Hss].
  destruct (_ || forced).
  - destruct (emit_side cfg BUY bp ss) as [bids|] eqn:Eb; [|discriminate]. simpl.
    destruct (emit_side cfg SELL ap ss) as [asks|] eqn:Ea; [|discriminate]. simpl.
    intros H. injection H as <-. exists bids, asks.
    pose proof (emit_side_grid cfg _ _ _ _ Eb) as Gb.
    pose proof (emit_side_grid cfg _ _ _ _ Ea) as Ga.
    apply emit_side_inv in Eb as [Fb Lb]. apply emit_side_inv in Ea as [Fa La].
    split_and!; try done.
    + eapply Forall_impl; [exact Fb|]. simpl. tauto.
    + eapply Forall_impl; [exact Fa|]. simpl. tauto.
    + rewrite Lb. destruct bp; lia.
    + rewrite La. destruct ap; lia.
    + by apply Forall_app.
  - simpl. intros H. injection H as <-. exists [], [].
    split_and!; try done; simpl; lia.
Qed.

Lemma quotes_shape_witness :
  exists bids asks,
    [limit_order BUY (999 # 10) (15 # 4) None;
     limit_order BUY (499 # 5) (25 # 4) None;
     limit_order SELL 100 (15 # 4) None;
     limit_order SELL (1001 # 10) (25 # 4) None] = bids ++ asks
    /\ Forall (fun o => side o = BUY) bids
    /\ Forall (fun o => side o = SELL) asks
    /\ (length bids <= 2)%nat /\ (length asks <= 2)%nat.
Proof.
  destruct (quotes_shape Qsqrt S1_config SimpleQuoter_init S1_lob 0 true
              [limit_order BUY (999 # 10) (15 # 4) None;
               limit_order BUY (499 # 5) (25 # 4) None;
               limit_order SELL 100 (15 # 4) None;
               limit_order SELL (1001 # 10) (25 # 4) None])
    as (bids & asks & E & Hb & Ha & Lb & La & _).
  { vm_compute. reflexivity. }
  exists bids, asks. split_and!; done.
Defined.

(** X9: the gating only reacts to a mid that falls or a skew that
    shrinks.  When the mid is not below the one of the previous call and
    neither skew is below its previous value, a call that is not forced
    returns the empty list, yet it overwrites the remembered mid and
    skews. *)
Theorem no_quotes_unless_mid_falls (np_sqrt : Q -> Q) (cfg : QuoterConfig)
    (q : SimpleQuoter) (lob : LOB) (pos bs aks : Q) :
  0 <= epsilon cfg -> 0 <= mid lob -> last_mid q <= mid lob ->
  _skew cfg pos = Ret (bs, aks) ->
  prev_bid_skew q <= bs -> prev_ask_skew q <= aks ->
  ve_ok (volatility_estimator q) -> (0 < num_orders cfg)%Z ->
  exists q',
    generate_quote_v2 np_sqrt cfg q lob pos false = (Ret [], q')
    /\ last_mid q' = mid lob
    /\ prev_bid_skew q' = bs /\ prev_ask_skew q' = aks.
Proof.
  intros Heps Hmid Hlast Hs Hpb Hpa Hve Hn. unfold generate_quote_v2. rewrite Hs.
  destruct (ve_update_ok np_sqrt _ (mid lob) Hve) as (v & ve' & ->).
  assert (Hq : (0 <= Z.quot (num_orders cfg) 2)%Z) by (apply Z.quot_pos; lia).
  destruct (prices_ret cfg (mid lob) bs aks v Hq) as [r ->]. simpl.
  destruct (sizes_ret cfg (mid lob) Hn) as [ss ->]. simpl.
  destruct (skew_nonneg cfg pos bs aks Hs) as [Hb Ha].
  assert (T : forall e x, 0 <= e -> 0 <= x -> 0 <= e * x / 10000).
  { intros e x He Hx. apply Qle_shift_div_l; [reflexivity|]. nra. }
  assert (C1 : Qgtb (last_mid q - mid lob) (epsilon cfg * mid lob / 10000) = false).
  { apply Qltb_ge. pose proof (T _ _ Heps Hmid). lra. }
  assert (C3 : Qgtb (prev_bid_skew q - bs) (epsilon cfg * bs / 10000) = false).
  { apply Qltb_ge. pose proof (T _ _ Heps Hb). lra. }
  assert (C4 : Qgtb (prev_ask_skew q - aks) (epsilon cfg * aks / 10000) = false).
  { apply Qltb_ge. pose proof (T _ _ Heps Ha). lra. }
  rewrite C1, C3, C4. simpl. eexists. by split_and!.
Qed.

Lemma no_quotes_unless_mid_falls_witness :
  exists q',
    generate_quote_v2 Qsqrt S1_config warm_quoter
      {| mid := 105; best_bid := 10495 # 100; best_ask := 10505 # 100; vol := 0 |}
      0 false = (Ret [], q')
    /\ last_mid q' = 105.
Proof.
  destruct (no_quotes_unless_mid_falls Qsqrt S1_config warm_quoter
              {| mid := 105; best_bid := 10495 # 100; best_ask := 10505 # 100;
                 vol := 0 |} 0 0 0) as (q' & E & Hl & _).
  - discriminate.
  - discriminate.
  - simpl. discriminate.
  - reflexivity.
  - simpl. discriminate.
  - simpl. discriminate.
  - left. simpl. lia.
  - simpl. lia.
  - exists q'. by split.
Defined.

(** X10: when the mid is positive and has fallen by more than [epsilon]
    basis points since the previous call, and the position is strictly
    inside the inventory bounds, a call with a sane configuration returns
    the two full ladders: [num_orders/2] BUY orders followed by as many
    SELL orders. *)
Theorem falling_mid_requotes (np_sqrt : Q -> Q) (cfg : QuoterConfig)
    (q : SimpleQuoter) (lob : LOB) (pos : Q) (forced : bool) :
  epsilon cfg * mid lob / 10000 < last_mid q - mid lob ->
  0 < inventory_max_dollars cfg ->
  - inventory_max_dollars cfg < pos < inventory_max_dollars cfg ->
  (0 < num_orders cfg)%Z -> ~ lot_size cfg == 0 -> ~ tick_size cfg == 0 ->
  ve_ok (volatility_estimator q) -> 0 < mid lob ->
  exists bids asks q',
    generate_quote_v2 np_sqrt cfg q lob pos forced = (Ret (bids ++ asks), q')
    /\ length bids = Z.to_nat (Z.quot (num_orders cfg) 2)
    /\ length asks = Z.to_nat (Z.quot (num_orders cfg) 2)
    /\ Forall (fun o => side o = BUY) bids
    /\ Forall (fun o => side o = SELL) asks.
Proof.
  intros Hfall Hmax Hpos Hn Hl Ht Hve _. unfold generate_quote_v2.
  destruct (skew_inside cfg pos Hmax Hpos)
    as (bs & aks & -> & Hb0 & Hb1 & Ha0 & Ha1).
  assert (Hbs : bs < 1 /\ aks < 1) by done.
  destruct (ve_update_ok np_sqrt _ (mid lob) Hve) as (v & ve' & ->).
  assert (Hq : (0 <= Z.quot (num_orders cfg) 2)%Z) by (apply Z.quot_pos; lia).
  unfold _prices, Qgeb.
  assert (E1 : Qle_bool 1 bs = false).
  { destruct (Qle_bool 1 bs) eqn:E; [|done]. apply Qle_bool_iff in E. lra. }
  assert (E2 : Qle_bool 1 aks = false).
  { destruct (Qle_bool 1 aks) eqn:E; [|done]. apply Qle_bool_iff in E. lra. }
  rewrite E1, E2, !nblinspace_ret by assumption. simpl.
  destruct (sizes_ret cfg (mid lob) Hn) as [ss Es]. rewrite Es. simpl.
  apply sizes_inv in Es as [_ Hss].
  apply Qltb_lt in Hfall. unfold Qgtb. rewrite Hfall. simpl.
  destruct (emit_ret cfg BUY (linspace
      (mid lob - (spread_bps cfg * mid lob / 10000 + v) / 2)
      (mid lob - (spread_bps cfg * mid lob / 10000 + v) / 2
       - (spread_bps cfg * mid lob / 10000 + v) / 2 * (1 - bs) * (1 + aks)
         * inject_Z (num_orders cfg) / 2)
      (Z.to_nat (Z.quot (num_orders cfg) 2))) ss Hl Ht) as [bids Eb].
  destruct (emit_ret cfg SELL (linspace
      (mid lob + (spread_bps cfg * mid lob / 10000 + v) / 2)
      (mid lob + (spread_bps cfg * mid lob / 10000 + v) / 2
       + (spread_bps cfg * mid lob / 10000 + v) / 2 * (1 - aks) * (1 + bs)
         * inject_Z (num_orders cfg) / 2)
      (Z.to_nat (Z.quot (num_orders cfg) 2))) ss Hl Ht) as [asks Ea].
  rewrite Eb, Ea. simpl. exists bids, asks. eexists. split; [reflexivity|].
  apply emit_inv in Eb as [Fb Lb]. apply emit_inv in Ea as [Fa La].
  rewrite linspace_length in Lb, La.
  split_and!; try lia.
  - eapply Forall_impl; [exact Fb|]. simpl. tauto.
  - eapply Forall_impl; [exact Fa|]. simpl. tauto.
Qed.

Lemma falling_mid_requotes_witness :
  exists bids asks q',
    generate_quote_v2 Qsqrt S1_config warm_quoter S1_lob 0 false
    = (Ret (bids ++ asks), q')
    /\ length bids = 2%nat /\ length asks = 2%nat.
Proof.
  destruct (falling_mid_requotes Qsqrt S1_config warm_quoter S1_lob 0 false)
    as (bids & asks & q' & E & Lb & La & _).
  - reflexivity.
  - reflexivity.
  - split; reflexivity.
  - simpl. lia.
  - discriminate.
  - discriminate.
  - left. simpl. lia.
  - reflexivity.
  - exists bids, asks, q'. by split_and!.
Defined.

(** ** The first version of the quoter *)

(** X11: [generate_quote] cannot quote at the inventory cap.  When the mid
    has fallen by more than [epsilon] basis points and the position is at
    or beyond [inventory_max_dollars] on either side, [_prices] returns one
    ladder and [None], the four-way [zip] raises [TypeError], and the
    remembered mid is not updated (only the volatility estimator has
    moved), so the same book raises again. *)
Theorem generate_quote_fails_at_cap (np_sqrt : Q -> Q) (cfg : QuoterConfig)
    (q : SimpleQuoter) (update : OrderbookData) (pos : Q) :
  epsilon cfg * ob_mid update / 10000 < last_mid q - ob_mid update ->
  0 < inventory_max_dollars cfg ->
  inventory_max_dollars cfg <= pos \/ pos <= - inventory_max_dollars cfg ->
  (0 < num_orders cfg)%Z -> ve_ok (volatility_estimator q) ->
  exists ve',
    generate_quote np_sqrt cfg q update pos
    = (Raise TypeError, set_volatility_estimator ve' q)
    /\ ve_ok ve'
    /\ exists ve'',
         generate_quote np_sqrt cfg (set_volatility_estimator ve' q) update pos
         = (Raise TypeError, set_volatility_estimator ve'' q).
Proof.
  intros Hfall Hmax Hcap Hn Hve.
  assert (Hgate : Qgtb (last_mid q - ob_mid update)
                    (epsilon cfg * ob_mid update / 10000) = true)
    by (by apply Qltb_lt).
  assert (Hstep : forall q0, last_mid q0 = last_mid q ->
            ve_ok (volatility_estimator q0) ->
            exists ve1,
              generate_quote np_sqrt cfg q0 update pos
              = (Raise TypeError, set_volatility_estimator ve1 q0) /\ ve_ok ve1).
  { intros q0 Hl0 Hve0. unfold generate_quote. rewrite Hl0, Hgate.
    destruct (ve_update_ok np_sqrt _ (ob_mid update) Hve0) as (v & ve1 & Ev).
    exists ve1. split; [|by apply ve_update_ret_ok in Ev].
    destruct Hcap as [Hc|Hc].
    - rewrite (skew_long_cap cfg pos Hmax Hc), Ev.
      destruct (prices_capped_ret cfg SELL 0 1 (ob_mid update) v eq_refl Hn) as [r Ep].
      rewrite Ep. simpl.
      apply (prices_capped cfg SELL) in Ep as (l & -> & _); [|reflexivity].
      destruct (sizes_ret cfg (ob_mid update) Hn) as [ss ->]. reflexivity.
    - rewrite (skew_short_cap cfg pos Hmax Hc), Ev.
      destruct (prices_capped_ret cfg BUY 1 0 (ob_mid update) v eq_refl Hn) as [r Ep].
      rewrite Ep. simpl.
      apply (prices_capped cfg BUY) in Ep as (l & -> & _); [|reflexivity].
      destruct (sizes_ret cfg (ob_mid update) Hn) as [ss ->]. reflexivity. }
  destruct (Hstep q eq_refl Hve) as (ve' & E1 & Hve').
  exists ve'. split_and!; try done.
  destruct (Hstep (set_volatility_estimator ve' q) eq_refl Hve') as (ve'' & E2 & _).
  exists ve''. exact E2.
Qed.

Lemma generate_quote_fails_at_cap_witness :
  exists ve',
    generate_quote Qsqrt S1_config warm_quoter book_100 10000
    = (Raise TypeError, set_volatility_estimator ve' warm_quoter).
Proof.
  destruct (generate_quote_fails_at_cap Qsqrt S1_config warm_quoter book_100 10000)
    as (ve' & E & _).
  - reflexivity.
  - reflexivity.
  - left. discriminate.
  - simpl. lia.
  - left. simpl. lia.
  - by exists ve'.
Defined.

(** ** Volatility estimator *)

(** X12: the window of the volatility estimator slides and its update
    cannot fail.  A new estimator has a full window of [window_size]
    samples and a count of 0; an update of an estimator with a full,
    non-empty window never raises, drops the oldest sample and appends the
    new one, keeps the window full, lets the count grow by one up to the
    window size, and returns the square root of a variance that has been
    clamped to be non-negative. *)
Theorem estimator_window_slides (np_sqrt : Q -> Q) (ve : VolatilityEstimator)
    (x : Q) :
  (forall n, ve_shape (VolatilityEstimator_init n)
             /\ ve_count (VolatilityEstimator_init n) = 0%nat)
  /\ (ve_shape ve -> (0 < ve_n ve)%nat ->
      exists var ve',
        ve_update np_sqrt ve x = (Ret (np_sqrt var), ve')
        /\ 0 <= var
        /\ ve_shape ve'
        /\ ve_n ve' = ve_n ve
        /\ ve_count ve' = Nat.min (S (ve_count ve)) (ve_n ve)
        /\ ve_buffer ve' = tl (ve_buffer ve) ++ [x]).
Proof.
  split.
  - intros n. unfold ve_shape. simpl. split_and!; [apply repeat_length | lia | done].
  - intros (Hlen & Hcnt) Hn. unfold ve_update.
    destruct (ve_buffer ve) as [|b bs] eqn:Eb; [simpl in Hlen; lia|].
    assert (Happ : deque_append (ve_n ve) (b :: bs) x = bs ++ [x]).
    { unfold deque_append. rewrite Hlen, Nat.ltb_irrefl.
      destruct (ve_n ve); [lia | reflexivity]. }
    assert (Hbs : S (length bs) = ve_n ve) by exact Hlen.
    assert (Hclamp : forall v, 0 <= (if Qltb v 0 then 0 else v)).
    { intros v. destruct (Qltb v 0) eqn:E; [apply Qle_refl | by apply Qltb_ge in E]. }
    destruct (ve_count ve <? ve_n ve)%nat eqn:Ec.
    + apply Nat.ltb_lt in Ec.
      eexists _, _. split; [reflexivity|]. unfold ve_shape. simpl. rewrite !Happ.
      split_and!.
      * apply Hclamp.
      * rewrite length_app. simpl. lia.
      * lia.
      * reflexivity.
      * destruct (ve_n ve) as [|m]; [lia|]. f_equal. lia.
      * reflexivity.
    + apply Nat.ltb_ge in Ec.
      assert (Hce : ve_count ve = ve_n ve) by lia.
      destruct (ve_count ve) as [|c] eqn:Ecnt; [lia|].
      eexists _, _. split; [reflexivity|]. unfold ve_shape. simpl. rewrite !Happ.
      split_and!.
      * apply Hclamp.
      * rewrite length_app. simpl. lia.
      * lia.
      * reflexivity.
      * change (S c = Nat.min (S (S c)) (ve_n ve)). lia.
      * reflexivity.
Qed.

Lemma estimator_window_slides_witness :
  exists var ve',
    ve_update Qsqrt (VolatilityEstimator_init 30) 100 = (Ret (Qsqrt var), ve')
    /\ ve_shape ve' /\ ve_count ve' = 1%nat
    /\ last (ve_buffer ve') = Some 100.
Proof.
  destruct (estimator_window_slides Qsqrt (VolatilityEstimator_init 30) 100)
    as [Hinit Hstep].
  destruct (Hstep (proj1 (Hinit 30%nat))) as (var & ve' & E & _ & Hi & _ & Hc & Hb);
    [simpl; lia|].
  exists var, ve'. split_and!; [exact E | exact Hi | exact Hc |].
  rewrite Hb. apply last_snoc.
Defined.

(** ** Order updates that change nothing, replays, and stored orders *)

Lemma update_orders_step_inert (s : OMS) (filled : list Order) (u : OrderUpdate) :
  inert_update s u ->
  exists s', update_orders_step s filled u = Ret (s', filled)
             /\ orders_state s' = orders_state s
             /\ order_count s' = order_count s
             /\ pending_levels s' ⊆ pending_levels s
             /\ (status u = "REJECTED" ->
                 forall c, cloid (order u) = Some c ->
                           pending_levels s' !! last3 c = None).
Proof.
  intros ([c Hc] & Hov & Hrm). unfold update_orders_step. rewrite Hc, Hov.
  destruct (_remove (status u)) eqn:Er.
  - assert (Hrej : status u <> "REJECTED").
    { intros E. rewrite E in Er. discriminate. }
    specialize (Hrm eq_refl).
    destruct (oid (order u)) as [o|]; [rewrite Hrm|];
      (exists s; split_and!; done).
  - destruct (_rejected (status u)) eqn:Ej.
    + eexists. split; [reflexivity|]. simpl. split_and!; try done.
      * apply delete_subseteq.
      * intros _ c' Hc'. injection Hc' as <-. apply lookup_delete_eq.
    + exists s. split_and!; try done.
      intros E. rewrite E in Ej. discriminate.
Qed.

(** X13: a batch of order updates made of rejections, statuses unknown to
    the OMS and removals of orders that are not stored returns [None],
    creates no take-profit task, leaves [orders_state] and [order_count]
    as they were and can only take levels out of [pending_levels]; a
    single rejection takes the level of its [cloid] out. *)
Theorem inert_updates_keep_orders (data : list OrderUpdate) (s : OMS) :
  Forall (inert_update s) data ->
  exists s',
    update_orders_state s data = (Ret PyNone, s', None)
    /\ orders_state s' = orders_state s
    /\ order_count s' = order_count s
    /\ pending_levels s' ⊆ pending_levels s
    /\ (forall u c, data = [u] -> status u = "REJECTED" ->
                    cloid (order u) = Some c ->
                    pending_levels s' !! last3 c = None).
Proof.
  intros HF.
  assert (H : exists s',
             update_orders_loop s [] data = (Ret [], s')
             /\ orders_state s' = orders_state s
             /\ order_count s' = order_count s
             /\ pending_levels s' ⊆ pending_levels s
             /\ (forall u c, data = [u] -> status u = "REJECTED" ->
                             cloid (order u) = Some c ->
                             pending_levels s' !! last3 c = None)).
  { destruct data as [|u [|u2 rest]].
    - exists s. simpl. split_and!; try done.
    - inversion HF as [|? ? Hu _]; subst.
      destruct (update_orders_step_inert s [] u Hu) as (s' & E & Ho & Hc & Hp & Hr).
      exists s'. simpl. rewrite E. split_and!; try done.
      intros u0 c E0 Hst Hcl. injection E0 as <-. by apply Hr.
    - assert (G : forall l s0, orders_state s0 = orders_state s ->
                    Forall (inert_update s) l ->
                    exists s', update_orders_loop s0 [] l = (Ret [], s')
                               /\ orders_state s' = orders_state s
                               /\ order_count s' = order_count s0
                               /\ pending_levels s' ⊆ pending_levels s0).
      { induction l as [|x l IH]; intros s0 Hs0 Hl.
        - exists s0. by split_and!.
        - inversion Hl as [|? ? Hx Hl']; subst.
          assert (Hx0 : inert_update s0 x).
          { destruct Hx as (? & ? & Hx). split_and!; try done. by rewrite Hs0. }
          destruct (update_orders_step_inert s0 [] x Hx0)
            as (s1 & E & Ho & Hc & Hp & _).
          destruct (IH s1) as (s' & E' & Ho' & Hc' & Hp'); [congruence | done |].
          exists s'. simpl. rewrite E. split_and!; try done; try congruence.
          by etrans. }
      destruct (G (u :: u2 :: rest) s eq_refl HF) as (s' & E & Ho & Hc & Hp).
      exists s'. split_and!; try done. }
  destruct H as (s' & E & Ho & Hc & Hp & Hr).
  exists s'. unfold update_orders_state. rewrite E. by split_and!.
Qed.

Lemma inert_updates_keep_orders_witness :
  exists s',
    update_orders_state S3_start
      [order_update "REJECTED" (limit_order BUY (499 # 5) (25 # 4) (Some "BUY_001")) "Z"]
    = (Ret PyNone, s', None)
    /\ orders_state s' = orders_state S3_start
    /\ order_count s' = order_count S3_start.
Proof.
  destruct (inert_updates_keep_orders
              [order_update "REJECTED"
                 (limit_order BUY (499 # 5) (25 # 4) (Some "BUY_001")) "Z"] S3_start)
    as (s' & E & Ho & Hc & _).
  - constructor; [|constructor]. split_and!.
    + by eexists.
    + reflexivity.
    + intros H. discriminate H.
  - exists s'. by split_and!.
Defined.

(** X14: an update that removes an order is idempotent under replay: when
    a FILLED or CANCELLED record has been processed, processing the same
    record again changes neither the state nor the list of fills, so the
    count is decremented once and one take profit is prepared. *)
Theorem removal_replay_is_noop (s s1 : OMS) (filled filled1 : list Order)
    (u : OrderUpdate) :
  _remove (status u) = true ->
  update_orders_step s filled u = Ret (s1, filled1) ->
  update_orders_step s1 filled1 u = Ret (s1, filled1).
Proof.
  intros Hrm. unfold update_orders_step.
  destruct (cloid (order u)) as [c|]; [|discriminate].
  assert (Hov : _overwrite (status u) = false).
  { unfold _remove, _overwrite in *.
    destruct (String.eqb_spec (status u) "FILLED") as [->|?]; [reflexivity|].
    destruct (String.eqb_spec (status u) "CANCELLED") as [->|?]; [reflexivity|].
    discriminate. }
  rewrite Hov, Hrm.
  destruct (oid (order u)) as [o|]; [|by intros H; injection H as <- <-].
  destruct (dict_get o (orders_state s)) as [stored|] eqn:Eg.
  - destruct (negb (String.eqb (last3 c) "_tp"));
      intros H; injection H as <- <-; simpl; by rewrite dict_get_del.
  - intros H. injection H as <- <-. by rewrite Eg.
Qed.

Lemma removal_replay_is_noop_witness :
  update_orders_step S3_start [] S3_fill
  = Ret (snd (fst (update_orders_state S3_start [S3_fill])),
         [with_oid (limit_order BUY (999 # 10) (15 # 4) (Some "BUY_000")) (Some "X0")])
  /\ update_orders_step (snd (fst (update_orders_state S3_start [S3_fill])))
       [with_oid (limit_order BUY (999 # 10) (15 # 4) (Some "BUY_000")) (Some "X0")]
       S3_fill
     = Ret (snd (fst (update_orders_state S3_start [S3_fill])),
            [with_oid (limit_order BUY (999 # 10) (15 # 4) (Some "BUY_000")) (Some "X0")]).
Proof.
  assert (E : update_orders_step S3_start [] S3_fill
              = Ret (snd (fst (update_orders_state S3_start [S3_fill])),
                     [with_oid (limit_order BUY (999 # 10) (15 # 4) (Some "BUY_000"))
                        (Some "X0")])) by (vm_compute; reflexivity).
  split; [exact E|].
  exact (removal_replay_is_noop _ _ _ _ S3_fill eq_refl E).
Defined.

Lemma dict_set_elem {V} (k : string) (v : V) (d : list (string * V)) kv :
  In kv (dict_set k v d) -> kv = (k, v) \/ In kv d.
Proof.
  induction d as [|[k' v'] d IH]; simpl.
  - intros [<-|[]]. by left.
  - destruct (String.eqb k k'); simpl.
    + intros [<-|H]; [by left | by right; right].
    + intros [<-|H]; [by right; left|]. destruct (IH H); [by left | by right; right].
Qed.

Lemma dict_set_keys {V} (k : string) (v : V) (d : list (string * V)) :
  List.NoDup (map fst d) -> List.NoDup (map fst (dict_set k v d)).
Proof.
  induction d as [|[k' v'] d IH]; simpl; intros Hnd.
  - constructor; [intros [] | constructor].
  - inversion Hnd as [|? ? Hnin Hnd']; subst.
    destruct (String.eqb_spec k k') as [->|Hne]; simpl.
    + by constructor.
    + constructor; [|by apply IH].
      intros Hin. apply in_map_iff in Hin as ([k2 v2] & E & Hin). simpl in E. subst k2.
      apply dict_set_elem in Hin as [E|Hin]; [congruence|].
      apply Hnin. apply in_map_iff. by exists (k', v2).
Qed.

Lemma dict_del_elem {V} (k : string) (d : list (string * V)) kv :
  In kv (dict_del k d) -> In kv d.
Proof.
  induction d as [|[k' v'] d IH]; simpl; [done|].
  destruct (String.eqb k k'); simpl.
  - intros H. right. by apply IH.
  - intros [<-|H]; [by left | right; by apply IH].
Qed.

Lemma dict_del_keys {V} (k : string) (d : list (string * V)) :
  List.NoDup (map fst d) -> List.NoDup (map fst (dict_del k d)).
Proof.
  induction d as [|[k' v'] d IH]; simpl; intros Hnd; [done|].
  inversion Hnd as [|? ? Hnin Hnd']; subst.
  destruct (String.eqb k k'); simpl; [by apply IH|].
  constructor; [|by apply IH].
  intros Hin. apply in_map_iff in Hin as ([k2 v2] & E & Hin). simpl in E. subst k2.
  apply dict_del_elem in Hin. apply Hnin. apply in_map_iff. by exists (k', v2).
Qed.

Lemma oms_wf_set_pending (p : gmap string Z) (s : OMS) :
  oms_wf s -> oms_wf (set_pending p s).
Proof. done. Qed.

Lemma update_orders_step_wf (s s' : OMS) (filled filled' : list Order)
    (u : OrderUpdate) :
  oms_wf s -> update_orders_step s filled u = Ret (s', filled') -> oms_wf s'.
Proof.
  intros [Hnd HF]. unfold update_orders_step.
  destruct (cloid (order u)) as [c|] eqn:Hc; [|discriminate].
  assert (Hset : forall o, oid (order u) = Some o ->
            List.NoDup (map fst (dict_set o (order u) (orders_state s)))
            /\ Forall (fun kv => oid (snd kv) = Some (fst kv)
                                  /\ is_Some (cloid (snd kv)))
                 (dict_set o (order u) (orders_state s))).
  { intros o Ho. split; [by apply dict_set_keys|].
    apply List.Forall_forall. intros kv Hin.
    apply dict_set_elem in Hin as [->|Hin].
    - simpl. split; [done | by eexists].
    - by apply (proj1 (List.Forall_forall _ _) HF). }
  assert (Hdel : forall o,
            List.NoDup (map fst (dict_del o (orders_state s)))
            /\ Forall (fun kv => oid (snd kv) = Some (fst kv)
                                  /\ is_Some (cloid (snd kv)))
                 (dict_del o (orders_state s))).
  { intros o. split; [by apply dict_del_keys|].
    apply List.Forall_forall. intros kv Hin. apply dict_del_elem in Hin.
    by apply (proj1 (List.Forall_forall _ _) HF). }
  destruct (_overwrite (status u)).
  { destruct (oid (order u)) as [o|] eqn:Ho.
    - destruct (negb (String.eqb (last3 c) "_tp"));
        intros H; injection H as <- _; exact (Hset o eq_refl).
    - destruct (_ && _); intros H; injection H as <- _; by split. }
  destruct (_remove (status u)).
  { destruct (oid (order u)) as [o|]; [|by intros H; injection H as <- _].
    destruct (dict_get o (orders_state s)); [|by intros H; injection H as <- _].
    destruct (negb (String.eqb (last3 c) "_tp"));
      intros H; injection H as <- _; exact (Hdel o). }
  destruct (_rejected (status u)); intros H; injection H as <- _; by split.
Qed.

Lemma update_orders_loop_wf (data : list OrderUpdate) :
  forall (s : OMS) (filled : list Order),
  oms_wf s -> oms_wf (snd (update_orders_loop s filled data)).
Proof.
  induction data as [|u rest IH]; intros s filled Hwf; simpl; [done|].
  destruct (update_orders_step s filled u) as [[s1 f1]|e] eqn:E; [|done].
  apply IH. by apply (update_orders_step_wf s s1 filled f1 u).
Qed.

Lemma find_level_spec (lvl : string) (d : list (string * Order)) :
  Forall (fun kv : string * Order => oid (snd kv) = Some (fst kv)
                                    /\ is_Some (cloid (snd kv))) d ->
  exists r, find_level lvl d = Ret r
            /\ match r with
               | Some m => (exists k, In (k, m) d) /\ level_is lvl m
               | None => forall k m, In (k, m) d -> ~ level_is lvl m
               end.
Proof.
  induction d as [|[k o] d IH]; intros HF; simpl.
  - exists None. split; [done|]. intros k m [].
  - inversion HF as [|? ? [_ [c Hc]] HF']; subst. simpl in Hc. rewrite Hc.
    destruct (String.eqb_spec (last3 c) lvl) as [E|Hne].
    + exists (Some o). split; [done|]. split; [exists k; by left|].
      by exists c.
    + destruct (IH HF') as (r & -> & Hr). exists r. split; [done|].
      destruct r as [m|].
      * destruct Hr as [[k' Hin] Hl]. split; [exists k'; by right | done].
      * intros k' m [E|Hin]; [|by apply (Hr k')].
        injection E as <- <-. intros (c' & Hc' & Hl). congruence.
Qed.

(** X15: the orders stored by the OMS stay well keyed.  From the initial
    state and through any batch of order updates (also one that raises
    half way), [orders_state] has one entry per [oid], each order is
    stored under its own [oid] and carries a [cloid]; on such a state
    [find_matched_order] never raises for an order with a [cloid]: it
    returns a stored order of the same level, or [None] when no stored
    order has that level. *)
Theorem stored_orders_well_keyed (s : OMS) (data : list OrderUpdate) (o : Order)
    (c : string) :
  oms_wf OMS_init
  /\ (oms_wf s -> oms_wf (snd (fst (update_orders_state s data))))
  /\ (oms_wf s -> cloid o = Some c ->
      exists r, find_matched_order s o = Ret r
                /\ match r with
                   | Some m => (exists k, In (k, m) (orders_state s))
                               /\ level_is (last3 c) m
                   | None => forall k m, In (k, m) (orders_state s) ->
                                         ~ level_is (last3 c) m
                   end).
Proof.
  split_and!.
  - split; simpl; constructor.
  - intros Hwf. unfold update_orders_state.
    pose proof (update_orders_loop_wf data s [] Hwf) as H.
    by destruct (update_orders_loop s [] data) as [[f|e] s'].
  - intros [_ HF] Hc. unfold find_matched_order. rewrite Hc.
    by apply find_level_spec.
Qed.

Lemma stored_orders_well_keyed_witness :
  oms_wf S3_start
  /\ exists r,
       find_matched_order S3_start
         (limit_order BUY (998 # 10) (15 # 4) (Some "BUY_000")) = Ret r
       /\ r <> None.
Proof.
  assert (Hwf : oms_wf S3_start).
  { destruct (stored_orders_well_keyed (fst S2_start)
                [order_update "NEW" (limit_order BUY (999 # 10) (15 # 4) (Some "BUY_000")) "X0";
                 order_update "NEW" (limit_order BUY (499 # 5) (25 # 4) (Some "BUY_001")) "X1";
                 order_update "NEW" (limit_order SELL 100 (15 # 4) (Some "SELL_002")) "X2";
                 order_update "NEW" (limit_order SELL (1001 # 10) (25 # 4) (Some "SELL_003")) "X3"]
                (limit_order BUY (998 # 10) (15 # 4) (Some "BUY_000")) "BUY_000")
      as (_ & Hstep & _).
    apply Hstep. split; simpl; constructor. }
  split; [exact Hwf|].
  destruct (stored_orders_well_keyed S3_start []
              (limit_order BUY (998 # 10) (15 # 4) (Some "BUY_000")) "BUY_000")
    as (_ & _ & Hfind).
  destruct (Hfind Hwf eq_refl) as (r & E & Hr).
  exists r. split; [exact E|].
  destruct r as [m|]; [discriminate|].
  exfalso. apply (Hr "X0" (with_oid (limit_order BUY (999 # 10) (15 # 4)
                                      (Some "BUY_000")) (Some "X0"))).
  - simpl. by left.
  - by exists "BUY_000".
Defined.

(** ** What [update] does and does not touch *)

Section UpdateMore.

Variable tm : nat -> Z.
Variable exch_error : nat -> bool.
Variable cfg : OMSConfig.

Lemma classify_step_keeps (m : Q) (s : OMS) (w : World) (b : Buckets) (o : Order)
    r s' w' :
  classify_step tm m s w b o = (r, s', w') ->
  orders_state s' = orders_state s /\ order_count s' = order_count s
  /\ w_quotes w' = w_quotes w.
Proof.
  unfold classify_step.
  destruct (order_type o); [by intros H; injection H as <- <- <-|].
  destruct (cloid o) as [c|]; [|by intros H; injection H as <- <- <-].
  destruct (_is_level_pending tm (last3 c) s w) as [[p s1] w1] eqn:E.
  apply is_level_pending_spec in E as (Hos & Hoc & _ & _ & _ & Hw & _).
  assert (Hq : w_quotes w1 = w_quotes w) by (by destruct Hw as [->| ->]).
  destruct p; [by intros H; injection H as <- <- <-|].
  destruct (find_matched_order s1 o) as [[mo|]|e];
    [destruct (is_out_of_bounds _ _ _ _)| |];
    unfold _add_pending_level; rewrite ?time_ms_advance;
    intros H; injection H as <- <- <-; by split_and!.
Qed.

Lemma classify_keeps (m : Q) (new_orders : list Order) :
  forall (s : OMS) (w : World) (b : Buckets) r s' w',
  classify tm m s w b new_orders = (r, s', w') ->
  orders_state s' = orders_state s /\ order_count s' = order_count s
  /\ w_quotes w' = w_quotes w.
Proof.
  induction new_orders as [|o rest IH]; intros s w b r s' w'; simpl.
  - by intros H; injection H as <- <- <-.
  - destruct (classify_step tm m s w b o) as [[r1 s1] w1] eqn:E.
    apply classify_step_keeps in E as (E1 & E2 & E3).
    destruct r1 as [b1|e].
    + intros H. apply IH in H as (? & ? & ?). split_and!; congruence.
    + by intros H; injection H as <- <- <-.
Qed.

Lemma cancel_all_keeps (s : OMS) (w : World) :
  orders_state (fst (cancel_all exch_error cfg s w)) = orders_state s
  /\ order_count (fst (cancel_all exch_error cfg s w)) = order_count s
  /\ w_quotes (snd (cancel_all exch_error cfg s w)) = w_quotes w.
Proof. unfold cancel_all. by destruct (exch_error _). Qed.

Lemma dispatch_keeps (b : Buckets) (s : OMS) (w : World) :
  orders_state (fst (dispatch exch_error cfg b s w)) = orders_state s
  /\ order_count (fst (dispatch exch_error cfg b s w)) = order_count s
  /\ w_quotes (snd (dispatch exch_error cfg b s w)) = w_quotes w.
Proof.
  unfold dispatch.
  set (r1 := if nonempty (markets b)
             then cancel_all exch_error cfg s (place_orders (markets b) w)
             else (s, w)).
  assert (H1 : orders_state (fst r1) = orders_state s
               /\ order_count (fst r1) = order_count s
               /\ w_quotes (snd r1) = w_quotes w).
  { subst r1. destruct (nonempty (markets b)); [|done].
    by destruct (cancel_all_keeps s (place_orders (markets b) w)) as (-> & -> & ->). }
  destruct r1 as [s1 w1]. simpl in H1. destruct H1 as (E1 & E2 & E3).
  set (w4 := when _ _ (when _ _ (when _ _ w1))).
  assert (E4 : w_quotes w4 = w_quotes w).
  { subst w4. unfold when.
    by destruct (nonempty (cancels b)), (nonempty (limits b)), (nonempty (amends b)). }
  destruct (oms_num_orders cfg <? order_count s1)%Z; [|done].
  destruct (cancel_all_keeps s1 w4) as (-> & -> & ->). done.
Qed.

End UpdateMore.

(** X16: [update] never touches the stored orders: whatever orders it is
    given and whatever its outcome, [orders_state] and [order_count] are
    the same afterwards; only order updates from the exchange change
    them. *)
Theorem update_keeps_stored_orders (tm : nat -> Z) (exch_error : nat -> bool)
    (cfg : OMSConfig) (s : OMS) (w : World) (new_orders : list Order) (lob : LOB) :
  orders_state (snd (fst (update tm exch_error cfg s w new_orders lob)))
  = orders_state s
  /\ order_count (snd (fst (update tm exch_error cfg s w new_orders lob)))
     = order_count s.
Proof.
  unfold update.
  destruct (classify tm (mid lob) s w Buckets_init new_orders) as [[r s1] w1] eqn:E.
  apply classify_keeps in E as (E1 & E2 & _).
  destruct r as [b|e]; [|done].
  destruct (dispatch_keeps exch_error cfg b s1 w1) as (D1 & D2 & _).
  destruct (dispatch exch_error cfg b s1 w1) as [s2 w2]. simpl in *.
  split; congruence.
Qed.

(** X17: a MARKET order in the batch wipes the pending marks.  When the
    loop of [update] has put at least one order in the [markets] bucket
    and the exchange accepts the calls, [pending_levels] is empty after
    the dispatch, although every order of the [limits] bucket has been
    sent: the levels just placed are not protected by a pending entry. *)
Theorem market_order_clears_pending (exch_error : nat -> bool) (cfg : OMSConfig)
    (b : Buckets) (s : OMS) (w : World) :
  markets b <> [] -> (forall k, exch_error k = false) ->
  pending_levels (fst (dispatch exch_error cfg b s w)) = ∅
  /\ (forall o, In o (limits b) ->
                In (create_order o) (w_calls (snd (dispatch exch_error cfg b s w)))).
Proof.
  intros Hm Hok. unfold dispatch, cancel_all. rewrite !Hok.
  destruct (markets b) as [|x xs] eqn:Em; [done|]. simpl.
  set (w4 := when _ _ (when _ _ (when _ _ _))).
  assert (Hl : forall o, In o (limits b) -> In (create_order o) (w_calls w4)).
  { intros o Hin. subst w4. unfold when.
    destruct (limits b) as [|y ys] eqn:El; [done|].
    assert (Hc : In (create_order o) (map create_order (y :: ys)))
      by (by apply in_map).
    destruct (nonempty (cancels b)), (nonempty (amends b)); simpl;
      rewrite ?in_app_iff; simpl; rewrite ?in_app_iff; simpl in Hc; tauto. }
  destruct (oms_num_orders cfg <? order_count s)%Z; simpl.
  - rewrite Hok. simpl. split; [done|].
    intros o Hin. rewrite in_app_iff. left. by apply Hl.
  - split; [done | exact Hl].
Qed.

Lemma market_order_clears_pending_witness :
  pending_levels
    (fst (dispatch exch_ok S_oms_config
            {| limits := [limit_order BUY (999 # 10) (15 # 4) (Some "BUY_000")];
               markets := [{| symbol := "S"; side := SELL; amount := 1; price := 0;
                              order_type := MARKET; cloid := None; oid := None;
                              tp := None |}];
               cancels := []; amends := [] |}
            (fst S2_start) (snd S2_start))) = ∅.
Proof.
  apply market_order_clears_pending; [discriminate | reflexivity].
Defined.

Section FreshLadder.

Variable tm : nat -> Z.
Variable exch_error : nat -> bool.
Variable cfg : OMSConfig.

Lemma is_level_pending_absent (L : string) (s : OMS) (w : World) :
  pending_levels s !! L = None -> _is_level_pending tm L s w = (false, s, w).
Proof.
  intros H. unfold _is_level_pending, _cleanup_stale_pending. rewrite H. simpl.
  by rewrite H.
Qed.

Lemma classify_fresh_ladder (m : Q) (new_orders : list Order) :
  forall (s : OMS) (w : World) (b : Buckets),
  oms_wf s ->
  Forall (fun o => order_type o = LIMIT /\ is_Some (cloid o)) new_orders ->
  List.NoDup (map order_level new_orders) ->
  (forall o, In o new_orders ->
     pending_levels s !! order_level o = None
     /\ forall k st, In (k, st) (orders_state s) -> ~ level_is (order_level o) st) ->
  exists s',
    classify tm m s w b new_orders
    = (Ret {| limits := limits b ++ new_orders; markets := markets b;
              cancels := cancels b; amends := amends b |},
       s', advance (length new_orders) w)
    /\ orders_state s' = orders_state s
    /\ order_count s' = order_count s
    /\ (forall i o, nth_error new_orders i = Some o ->
          pending_levels s' !! order_level o = Some (tm (i + w_tick w)%nat))
    /\ (forall L, ~ In L (map order_level new_orders) ->
          pending_levels s' !! L = pending_levels s !! L).
Proof.
  induction new_orders as [|o rest IH]; intros s w b Hwf HF Hnd Hfree.
  - exists s. simpl. rewrite app_nil_r, advance_0. destruct b.
    split_and!; try done. intros [|i] o; discriminate.
  - inversion HF as [|? ? [Hty [c Hc]] HF']; subst.
    inversion Hnd as [|? ? Hnin Hnd']; subst.
    assert (Hlv : order_level o = last3 c) by (unfold order_level; by rewrite Hc).
    destruct (Hfree o (or_introl eq_refl)) as [Hp Hst].
    rewrite Hlv in Hp, Hst.
    assert (Hfind : find_matched_order s o = Ret None).
    { unfold find_matched_order. rewrite Hc.
      destruct (find_level_spec (last3 c) (orders_state s) (proj2 Hwf))
        as ([st|] & E & Hr); [|done].
      destruct Hr as [[k Hin] Hl]. by destruct (Hst k st Hin). }
    set (s1 := set_pending (<[last3 c := tm (w_tick w)]> (pending_levels s)) s).
    assert (Hstep : forall b0,
              classify_step tm m s w b0 o
              = (Ret {| limits := limits b0 ++ [o]; markets := markets b0;
                        cancels := cancels b0; amends := amends b0 |},
                 s1, advance 1 w)).
    { intros b0. unfold classify_step.
      rewrite Hty, Hc, (is_level_pending_absent _ s w Hp), Hfind.
      unfold _add_pending_level. by rewrite time_ms_advance. }
    destruct (IH s1 (advance 1 w)
                {| limits := limits b ++ [o]; markets := markets b;
                   cancels := cancels b; amends := amends b |})
      as (s' & E & Ho & Hcnt & Hidx & Hoth); try done.
    { intros o' Hin'. destruct (Hfree o' (or_intror Hin')) as [Hp' Hst'].
      split; [|exact Hst'].
      subst s1. simpl. rewrite lookup_insert_ne; [done|].
      intros Eq. apply Hnin. rewrite Hlv, Eq. by apply in_map. }
    exists s'. simpl. rewrite Hstep, E. simpl.
    split_and!; try done.
    + rewrite <- app_assoc, advance_advance. simpl.
      do 2 f_equal. f_equal. lia.
    + intros [|i] o' Hnth; simpl in Hnth.
      * injection Hnth as <-. rewrite Hoth; [|exact Hnin].
        subst s1. simpl. by rewrite Hlv, lookup_insert_eq.
      * rewrite (Hidx i o' Hnth). simpl. f_equal. f_equal. lia.
    + intros L HL. simpl in HL. rewrite Hoth by tauto.
      subst s1. simpl. rewrite lookup_insert_ne; [done|].
      rewrite <- Hlv. tauto.
Qed.

End FreshLadder.

(** X18: a ladder on free levels is placed in full.  When the OMS holds
    well-keyed orders, the orders given to [update] are LIMIT orders with
    pairwise different level tags, none of the levels is pending or held
    by a stored order, and [order_count] does not exceed [num_orders],
    [update] returns after sending exactly one [create_order] per order,
    in order, and marks each level pending at the clock reading made for
    it; the stored orders are untouched. *)
Theorem fresh_ladder_is_placed (tm : nat -> Z) (exch_error : nat -> bool)
    (cfg : OMSConfig) (s : OMS) (w : World) (new_orders : list Order) (lob : LOB) :
  oms_wf s ->
  Forall (fun o => order_type o = LIMIT /\ is_Some (cloid o)) new_orders ->
  List.NoDup (map order_level new_orders) ->
  (forall o, In o new_orders ->
     pending_levels s !! order_level o = None
     /\ forall k st, In (k, st) (orders_state s) -> ~ level_is (order_level o) st) ->
  (order_count s <= oms_num_orders cfg)%Z ->
  exists s',
    update tm exch_error cfg s w new_orders lob
    = (Ret tt, s',
       log_calls (map create_order new_orders) (advance (length new_orders) w))
    /\ orders_state s' = orders_state s
    /\ (forall i o, nth_error new_orders i = Some o ->
          pending_levels s' !! order_level o = Some (tm (i + w_tick w)%nat)).
Proof.
  intros Hwf HF Hnd Hfree Hcnt.
  destruct (classify_fresh_ladder tm (mid lob) new_orders s w Buckets_init
              Hwf HF Hnd Hfree) as (s' & E & Ho & Hc & Hidx & _).
  exists s'. unfold update. rewrite E. simpl. unfold dispatch. simpl.
  destruct (Z.ltb_spec (oms_num_orders cfg) (order_count s')) as [?|_]; [lia|].
  split_and!; try done.
  destruct new_orders as [|o rest]; simpl; [|done].
  unfold log_calls. simpl. rewrite app_nil_r. by destruct w.
Qed.

Lemma fresh_ladder_is_placed_witness :
  exists s',
    update clock_ms exch_ok S_oms_config OMS_init World_init S1_ladder S1_lob
    = (Ret tt, s', log_calls (map create_order S1_ladder) (advance 4 World_init))
    /\ pending_levels s' !! "003" = Some 1700000000003%Z.
Proof.
  destruct (fresh_ladder_is_placed clock_ms exch_ok S_oms_config OMS_init World_init
              S1_ladder S1_lob) as (s' & E & _ & Hidx).
  - split; simpl; constructor.
  - repeat (apply Forall_cons_2; [split; [reflexivity | by eexists] |]). constructor.
  - simpl. repeat (constructor; [simpl; intros H; intuition discriminate|]).
    constructor.
  - intros o Hin. split; [|intros k st []].
    simpl in Hin. by destruct Hin as [<-|[<-|[<-|[<-|[]]]]].
  - simpl. lia.
  - exists s'. split; [exact E|].
    exact (Hidx 3%nat (limit_order SELL (1001 # 10) (25 # 4) (Some "SELL_003")) eq_refl).
Defined.

(** ** Amendments *)




(** ** Take profits *)

Lemma dict_get_set {V} (k : string) (v : V) (d : list (string * V)) :
  dict_get k (dict_set k v d) = Some v.
Proof.
  induction d as [|[k' v'] d IH]; simpl.
  - by rewrite String.eqb_refl.
  - destruct (String.eqb k k') eqn:E; simpl; [by rewrite String.eqb_refl|].
    by rewrite E.
Qed.

Lemma take_profit_orders_ret (cfg : OMSConfig) (filled : list Order) :
  ~ oms_tick_size cfg == 0 -> Forall (fun o => is_Some (cloid o)) filled ->
  take_profit_orders cfg filled = Ret (map (tp_of cfg) filled).
Proof.
  intros Ht HF. induction filled as [|o rest IH]; simpl; [done|].
  inversion HF as [|? ? [c Hc] HF']; subst.
  rewrite (take_profit_order_ret cfg o c Hc Ht), (IH HF'). simpl.
  unfold tp_of. by rewrite Hc.
Qed.

Lemma take_profit_orders_raise (cfg : OMSConfig) (filled : list Order) :
  (oms_tick_size cfg == 0 /\ filled <> []) \/ Exists (fun o => cloid o = None) filled ->
  exists e, take_profit_orders cfg filled = Raise e.
Proof.
  intros [[Ht Hne]|Hex].
  - destruct filled as [|o rest]; [done|]. simpl. unfold take_profit_order, round_step.
    apply Qeq_bool_iff in Ht. rewrite Ht. destruct (cloid o); eexists; reflexivity.
  - induction Hex as [o rest Hc|o rest _ IH]; simpl.
    + unfold take_profit_order. rewrite Hc.
      destruct (round_step _ _); eexists; reflexivity.
    + destruct (take_profit_order cfg o); [|eexists; reflexivity]. simpl.
      destruct IH as [e ->]. eexists; reflexivity.
Qed.

(** X20: take profits are sent all or none.  With a non-zero tick size
    and a [cloid] on every filled order, [_place_take_profits] sends one
    [create_order] per filled order, in order, each for a LIMIT order on
    the opposite side, of the same amount, tagged "_tp".  With a zero tick
    size, or as soon as one filled order has no [cloid], the exception is
    swallowed and nothing at all is sent. *)
Theorem take_profits_all_or_none (cfg : OMSConfig) (filled : list Order) (w : World) :
  (~ oms_tick_size cfg == 0 -> Forall (fun o => is_Some (cloid o)) filled ->
   _place_take_profits cfg filled w
   = log_calls (map (fun o => create_order (tp_of cfg o)) filled) w
   /\ Forall places_take_profit (map (fun o => create_order (tp_of cfg o)) filled)
   /\ Forall2 (fun o call => exists t, call = create_order t
                                       /\ side t = opposite (side o)
                                       /\ amount t = amount o)
        filled (map (fun o => create_order (tp_of cfg o)) filled))
  /\ ((oms_tick_size cfg == 0 /\ filled <> [])
      \/ Exists (fun o => cloid o = None) filled ->
      _place_take_profits cfg filled w = w).
Proof.
  split.
  - intros Ht HF. unfold _place_take_profits.
    rewrite (take_profit_orders_ret cfg filled Ht HF). split_and!.
    + unfold place_orders. by rewrite map_map.
    + apply Forall_map. eapply Forall_impl; [exact HF|].
      intros o [c Hc]. exists (tp_of cfg o). split_and!; try done.
      exists (c ++ "_tp")%string. unfold tp_of. simpl. rewrite Hc. simpl.
      split; [done | apply last3_tp].
    + clear HF. induction filled as [|o rest IH]; simpl; constructor; [|exact IH].
      by exists (tp_of cfg o).
  - intros H. unfold _place_take_profits.
    by destruct (take_profit_orders_raise cfg filled H) as [e ->].
Qed.

Lemma take_profits_all_or_none_witness :
  _place_take_profits S_oms_config
    [with_oid (limit_order BUY (999 # 10) (15 # 4) (Some "BUY_000")) (Some "X0");
     with_oid (limit_order SELL 100 (15 # 4) (Some "SELL_002")) (Some "X2")] World_init
  = log_calls
      [create_order (limit_order SELL (999 # 10) (15 # 4) (Some "BUY_000_tp"));
       create_order (limit_order BUY (999 # 10) (15 # 4) (Some "SELL_002_tp"))]
      World_init.
Proof.
  destruct (take_profits_all_or_none S_oms_config
    [with_oid (limit_order BUY (999 # 10) (15 # 4) (Some "BUY_000")) (Some "X0");
     with_oid (limit_order SELL 100 (15 # 4) (Some "SELL_002")) (Some "X2")] World_init)
    as [H _].
  destruct H as (E & _ & _).
  - discriminate.
  - repeat (apply Forall_cons_2; [by eexists|]). constructor.
  - rewrite E. reflexivity.
Defined.

(** X21: the fill of a take-profit order is terminal.  The order built
    for a fill carries a "_tp" tag, so when it is acknowledged and then
    filled or cancelled it enters and leaves [orders_state] without
    touching [order_count] or [pending_levels], and no further take
    profit is prepared. *)
Theorem take_profit_fill_is_terminal (cfg : OMSConfig) (s : OMS) (stored : Order)
    (c0 k st : string) :
  cloid stored = Some c0 -> st = "FILLED" \/ st = "CANCELLED" ->
  update_orders_state s
    [order_update "NEW" (tp_of cfg stored) k; order_update st (tp_of cfg stored) k]
  = (Ret PyNone,
     {| orders_state :=
          dict_del k (dict_set k (with_oid (tp_of cfg stored) (Some k)) (orders_state s));
        pending_levels := pending_levels s;
        order_count := order_count s |},
     None)
  /\ dict_get k
       (dict_del k (dict_set k (with_oid (tp_of cfg stored) (Some k)) (orders_state s)))
     = None.
Proof.
  intros Hc Hst. split; [|apply dict_get_del].
  unfold update_orders_state. simpl. unfold update_orders_step. simpl.
  unfold tp_of at 1. simpl. rewrite Hc. simpl.
  rewrite (last3_tp c0). simpl.
  unfold tp_of at 1. simpl. rewrite Hc. simpl.
  rewrite dict_get_set.
  by destruct Hst as [-> | ->].
Qed.

Lemma take_profit_fill_is_terminal_witness :
  fst (update_orders_state S3_start
         [order_update "NEW"
            (tp_of S_oms_config (limit_order BUY (999 # 10) (15 # 4) (Some "BUY_000")))
            "T0";
          order_update "FILLED"
            (tp_of S_oms_config (limit_order BUY (999 # 10) (15 # 4) (Some "BUY_000")))
            "T0"])
  = (Ret PyNone,
     {| orders_state :=
          dict_del "T0"
            (dict_set "T0"
               (with_oid (tp_of S_oms_config
                            (limit_order BUY (999 # 10) (15 # 4) (Some "BUY_000")))
                  (Some "T0")) (orders_state S3_start));
        pending_levels := pending_levels S3_start;
        order_count := order_count S3_start |}).
Proof.
  destruct (take_profit_fill_is_terminal S_oms_config S3_start
              (limit_order BUY (999 # 10) (15 # 4) (Some "BUY_000")) "BUY_000" "T0"
              "FILLED" eq_refl (or_introl eq_refl)) as [E _].
  by rewrite E.
Defined.

(** * The position manager *)

Lemma update_positions_app (ps : gmap string Q) (d1 d2 : list PositionUpdate) :
  update_positions ps (d1 ++ d2) = update_positions (update_positions ps d1) d2.
Proof. unfold update_positions. apply fold_left_app. Qed.

Lemma update_positions_other (ps : gmap string Q) (data : list PositionUpdate)
    (sym : string) :
  Forall (fun p => p_symbol p <> sym) data ->
  update_positions ps data !! sym = ps !! sym.
Proof.
  revert ps. induction data as [|p rest IH]; intros ps HF; [reflexivity|].
  inversion HF as [|? ? Hp HF']; subst.
  change (update_positions ps (p :: rest))
    with (update_positions
            (if String.eqb (p_status p) "CLOSED" then delete (p_symbol p) ps
             else <[p_symbol p := p_value p * p_side p]> ps) rest).
  rewrite (IH _ HF').
  destruct (String.eqb (p_status p) "CLOSED").
  - by apply lookup_delete_ne.
  - by apply lookup_insert_ne.
Qed.

(** X22: the last record of a symbol decides its position.  After
    [update_positions], the position of a symbol is the signed size of the
    last record that names it, or 0 when that record is CLOSED, whatever
    came before; a symbol that no record names keeps its position. *)
Theorem positions_last_record_wins (ps : gmap string Q)
    (data1 data2 : list PositionUpdate) (pos : PositionUpdate) :
  Forall (fun p => p_symbol p <> p_symbol pos) data2 ->
  get_position (update_positions ps (data1 ++ pos :: data2)) (p_symbol pos)
  = (if String.eqb (p_status pos) "CLOSED" then 0 else p_value pos * p_side pos)
  /\ forall sym,
       Forall (fun p => p_symbol p <> sym) (data1 ++ pos :: data2) ->
       get_position (update_positions ps (data1 ++ pos :: data2)) sym
       = get_position ps sym.
Proof.
  intros HF. split.
  - unfold get_position.
    rewrite update_positions_app.
    change (update_positions (update_positions ps data1) (pos :: data2))
      with (update_positions
              (if String.eqb (p_status pos) "CLOSED"
               then delete (p_symbol pos) (update_positions ps data1)
               else <[p_symbol pos := p_value pos * p_side pos]>
                      (update_positions ps data1)) data2).
    rewrite (update_positions_other _ _ _ HF).
    destruct (String.eqb (p_status pos) "CLOSED").
    + by rewrite lookup_delete_eq.
    + by rewrite lookup_insert_eq.
  - intros sym HF'. unfold get_position.
    by rewrite (update_positions_other _ _ _ HF').
Qed.

Lemma positions_last_record_wins_witness :
  get_position
    (update_positions ∅
       ([mkPositionUpdate "BTC" "" 500 1; mkPositionUpdate "ETH" "" 20 1]
        ++ mkPositionUpdate "BTC" "CLOSED" 0 1
        :: [mkPositionUpdate "ETH" "" 30 (-1)])) "BTC"
  = 0.
Proof.
  exact (proj1 (positions_last_record_wins ∅
                  [mkPositionUpdate "BTC" "" 500 1; mkPositionUpdate "ETH" "" 20 1]
                  [mkPositionUpdate "ETH" "" 30 (-1)]
                  (mkPositionUpdate "BTC" "CLOSED" 0 1)
                  ltac:(repeat constructor; discriminate))).
Defined.

(** * The event bus *)

Section BusFacts.

Context {D : Type}.
Variable tm : nat -> Z.

Lemma run_bus_inv (ops : list (BusOp D)) (b : EventBus D) (w : World)
    (accepted : list (string * D)) (delivered : list (QueuedEvent D)) :
  bus_inv b accepted delivered ->
  let '(b', accepted', delivered') := run_bus tm ops b w accepted delivered in
  bus_inv b' accepted' delivered'.
Proof.
  revert b w accepted delivered.
  induction ops as [|op rest IH]; intros b w accepted delivered Hinv; [exact Hinv|].
  destruct op as [ty d| |]; simpl.
  - unfold bus_put. destruct (_closed b); [by apply IH|]. simpl.
    apply IH. destruct Hinv as (Hp & Hs & Hl). unfold bus_inv. simpl.
    rewrite app_assoc.
    rewrite (map_app _ (delivered ++ _queue b)), (map_app seq_id (delivered ++ _queue b)).
    rewrite Hp, Hs, Hl, length_app. simpl.
    split_and!; [reflexivity| |lia].
    rewrite Nat.add_1_r, seq_S. reflexivity.
  - unfold bus_get. destruct (_queue b) as [|e q] eqn:Eq; [by apply IH|].
    apply IH. destruct Hinv as (Hp & Hs & Hl). unfold bus_inv. simpl.
    rewrite Eq in Hp, Hs. rewrite <- app_assoc. simpl. done.
  - apply IH. exact Hinv.
Qed.

(** X23: the bus is first in, first out, and numbers its events.  After
    any run of puts, gets and closes on a new [EventBus], the events
    handed out followed by the events still queued are exactly the
    accepted payloads in the order of their [put]; the k-th of them
    carries [seq_id] k, and [_last_id] is the number of accepted events. *)
Theorem bus_delivers_in_order (ops : list (BusOp D)) (w : World) :
  let '(b, accepted, delivered) := run_bus tm ops EventBus_init w [] [] in
  map (fun e => (event_type e, data e)) (delivered ++ _queue b) = accepted
  /\ map seq_id (delivered ++ _queue b) = seq 1 (length accepted)
  /\ _last_id b = length accepted.
Proof.
  apply (run_bus_inv ops EventBus_init w [] []).
  by split_and!.
Qed.

(** X24: a closed bus takes nothing more but can still be emptied.  From
    a closed bus on, every [put] is turned away, so the accepted payloads
    stay as they are, the bus stays closed, and the events queued before
    are still handed out in their order. *)
Theorem closed_bus_accepts_nothing (ops : list (BusOp D)) (b : EventBus D)
    (w : World) (accepted : list (string * D)) (delivered : list (QueuedEvent D)) :
  _closed b = true ->
  let '(b', accepted', delivered') := run_bus tm ops b w accepted delivered in
  accepted' = accepted
  /\ _closed b' = true
  /\ delivered' ++ _queue b' = delivered ++ _queue b.
Proof.
  revert b w delivered.
  induction ops as [|op rest IH]; intros b w delivered Hc; [done|].
  destruct op as [ty d| |]; simpl.
  - unfold bus_put. rewrite Hc. by apply IH.
  - unfold bus_get. destruct (_queue b) as [|e q] eqn:Eq.
    + specialize (IH b w delivered Hc). by rewrite Eq in IH.
    + specialize (IH {| _queue := q; _last_id := _last_id b; _closed := _closed b |}
                     w (delivered ++ [e]) Hc).
      destruct (run_bus _ _ _ _ _ _) as [[b' a'] d'].
      destruct IH as (-> & Hc' & Hq). split_and!; [done..|].
      rewrite Hq. simpl. by rewrite <- app_assoc.
  - by apply (IH (bus_close b)).
Qed.

Lemma MultiEventBus_init_lookup (keys : list string) (acc : gmap string (EventBus D))
    (key : string) :
  fold_left (fun qs k => <[k := EventBus_init]> qs) keys acc !! key
  = if decide (key ∈ keys) then Some EventBus_init else acc !! key.
Proof.
  revert acc. induction keys as [|k rest IH]; intros acc; simpl.
  - destruct (decide (key ∈ [])) as [Hin|_]; [|done]. by apply elem_of_nil in Hin.
  - rewrite IH. destruct (decide (key ∈ rest)) as [Hin|Hnin].
    + rewrite decide_True; [done|]. by apply elem_of_cons; right.
    + destruct (decide (key = k)) as [->|Hne].
      * rewrite lookup_insert_eq, decide_True; [done|]. by apply elem_of_cons; left.
      * rewrite lookup_insert_ne by done. rewrite decide_False; [done|].
        intros [?|?]%elem_of_cons; done.
Qed.

(** X25: a [MultiEventBus] routes by stream key.  On a new multi bus the
    first [put] under a key of [stream_keys] returns sequence number 1 and
    under any other key raises [UnknownStreamKeyError]; and a [put], a
    [get] or a [close] under one key leaves the bus of every other key as
    it was. *)
Theorem multi_bus_routing (keys : list string) (w : World) (key ty : string) (d : D) :
  fst (fst (multi_put tm (MultiEventBus_init keys) w key ty d))
  = (if decide (key ∈ keys) then inr 1%nat else inl UnknownStreamKey)
  /\ forall (qs : gmap string (EventBus D)) (key' : string),
       key' <> key ->
       snd (fst (multi_put tm qs w key ty d)) !! key' = qs !! key'
       /\ (forall qs', multi_close qs key = inr qs' -> qs' !! key' = qs !! key')
       /\ (forall e qs', multi_get qs key = inr (Some (e, qs')) ->
                         qs' !! key' = qs !! key').
Proof.
  split.
  - unfold multi_put, MultiEventBus_init. rewrite MultiEventBus_init_lookup.
    destruct (decide (key ∈ keys)); [reflexivity|]. by rewrite lookup_empty.
  - intros qs key' Hne. split_and!.
    + unfold multi_put. destruct (qs !! key) as [b|]; [|done].
      destruct (bus_put tm b w ty d) as [[r b'] w']. simpl.
      by apply lookup_insert_ne.
    + intros qs'. unfold multi_close. destruct (qs !! key) as [b|]; [|done].
      intros [= <-]. by apply lookup_insert_ne.
    + intros e qs'. unfold multi_get. destruct (qs !! key) as [b|]; [|done].
      destruct (bus_get b) as [[e' b']|]; [|done].
      intros [= _ <-]. by apply lookup_insert_ne.
Qed.

End BusFacts.

Lemma closed_bus_accepts_nothing_witness :
  let '(b', accepted', delivered') :=
    run_bus clock_ms [op_put "orderbook" 7%nat; op_get; op_get]
      (bus_close {| _queue := [mkQueuedEvent 1 "orderbook" 5%nat 0]; _last_id := 1;
                    _closed := false |})
      World_init [("orderbook", 5%nat)] [] in
  accepted' = [("orderbook", 5%nat)]
  /\ _closed b' = true
  /\ delivered' ++ _queue b' = [] ++ [mkQueuedEvent 1 "orderbook" 5%nat 0].
Proof.
  exact (closed_bus_accepts_nothing clock_ms [op_put "orderbook" 7%nat; op_get; op_get]
           (bus_close {| _queue := [mkQueuedEvent 1 "orderbook" 5%nat 0];
                         _last_id := 1; _closed := false |})
           World_init [("orderbook", 5%nat)] [] eq_refl).
Defined.

Lemma multi_bus_routing_witness :
  snd (fst (multi_put clock_ms (MultiEventBus_init ["BTC"; "ETH"]) World_init
              "BTC" "orderbook" 5%nat)) !! "ETH"
  = MultiEventBus_init (D:=nat) ["BTC"; "ETH"] !! "ETH".
Proof.
  exact (proj1 (proj2 (multi_bus_routing clock_ms ["BTC"; "ETH"] World_init
                         "BTC" "orderbook" 5%nat)
                  (MultiEventBus_init ["BTC"; "ETH"]) "ETH" ltac:(discriminate))).
Defined.

(** * What the worker sends to the exchange *)

Section WorkerCalls.

Variable np_sqrt : Q -> Q.
Variable tm : nat -> Z.
Variable exch_error : nat -> bool.
Variable config : MMConfig.

Lemma take_profit_orders_tagged (cfg : OMSConfig) (filled tps : list Order) :
  take_profit_orders cfg filled = Ret tps ->
  Forall places_take_profit (map create_order tps).
Proof.
  revert tps. induction filled as [|o rest IH]; intros tps; simpl.
  - intros [= <-]. constructor.
  - unfold take_profit_order.
    destruct (cloid o) as [c|].
    + destruct (round_step _ _) as [p|]; [|discriminate]. simpl.
      destruct (take_profit_orders cfg rest) as [ts|]; [|discriminate]. simpl.
      intros [= <-]. simpl. constructor; [|by apply IH].
      eexists. split_and!; [reflexivity..|].
      exists (c ++ "_tp")%string. split; [reflexivity | apply last3_tp].
    + destruct (round_step _ _); discriminate.
Qed.

Lemma place_take_profits_calls (cfg : OMSConfig) (filled : list Order) (w : World) :
  exists new,
    w_calls (_place_take_profits cfg filled w) = w_calls w ++ new
    /\ Forall places_take_profit new.
Proof.
  unfold _place_take_profits.
  destruct (take_profit_orders cfg filled) as [tps|] eqn:E.
  - exists (map create_order tps). split; [reflexivity|].
    by apply (take_profit_orders_tagged cfg filled).
  - exists []. split; [by rewrite app_nil_r | constructor].
Qed.

Lemma requote_calls (m : MarketMaker) (w : World) (forced : bool) :
  w_calls (snd (requote np_sqrt tm exch_error config m w forced)) = w_calls w.
Proof.
  unfold requote. rewrite time_ms_advance.
  destruct (negb forced && _); [reflexivity|].
  destruct (generate_quote_v2 _ _ _ _ _ _) as [r q'] eqn:E.
  destruct r as [[|o quotes]|e]; [reflexivity| |reflexivity].
  assert (Hq : fst (generate_quote_v2 np_sqrt (quoter_config config)
                      (quoting_engine (set_last_requote_time (tm (w_tick w)) m))
                      (get_lob (lob_manager (set_last_requote_time (tm (w_tick w)) m)))
                      (get_position
                         (position_manager (set_last_requote_time (tm (w_tick w)) m))
                         (exch_symbol (set_last_requote_time (tm (w_tick w)) m)))
                      forced) = Ret (o :: quotes)) by (by rewrite E).
  by rewrite (quotes_break_update np_sqrt tm exch_error _ (oms_config config)
                _ _ _ _ _ _ _ Hq).
Qed.

Lemma process_event_calls (m : MarketMaker) (w : World) (ev : Event) :
  exists new,
    w_calls (snd (_process_event np_sqrt tm exch_error config m w ev))
    = w_calls w ++ new
    /\ Forall places_take_profit new.
Proof.
  unfold _process_event. rewrite time_ms_advance.
  destruct ev as [d|d|d|d|ty].
  - exists []. rewrite app_nil_r. split; [|constructor].
    unfold _on_orderbook_updates.
    destruct (update_lob np_sqrt (lob_manager m) d) as [[u|e] l']; [|reflexivity].
    by rewrite requote_calls.
  - exists []. rewrite app_nil_r. split; [|constructor].
    unfold _on_position_updates. by rewrite requote_calls.
  - unfold _on_order_updates.
    destruct (update_orders_state (oms m) d) as [[r s'] task].
    destruct r as [v|e].
    + destruct (truthy v).
      * destruct (requote _ _ _ _ _ _ _) as [[r' m2] w'] eqn:E.
        assert (Hw : w_calls w' = w_calls w).
        { change w' with (snd (r', m2, w')). rewrite <- E. by rewrite requote_calls. }
        destruct task as [filled|]; simpl.
        -- destruct (place_take_profits_calls (oms_config config) filled w')
             as (new & -> & HF).
           exists new. by rewrite Hw.
        -- exists []. rewrite app_nil_r. split; [exact Hw | constructor].
      * destruct task as [filled|]; simpl.
        -- apply (place_take_profits_calls (oms_config config) filled (advance 1 w)).
        -- exists []. rewrite app_nil_r. split; [reflexivity | constructor].
    + exists []. rewrite app_nil_r. split; [reflexivity | constructor].
  - exists []. rewrite app_nil_r. split; [|constructor].
    unfold _on_usdcusdt_updates. by rewrite requote_calls.
  - exists []. rewrite app_nil_r. split; [reflexivity | constructor].
Qed.

(** X26: the worker sends nothing but take profits.  Whatever the state
    of the worker and whatever events it processes, every call that
    [_process_events] adds to the exchange is the placement of a LIMIT
    order tagged "_tp": the quotes of a requote never get as far as a
    placement, an amendment or a cancellation. *)
Theorem worker_sends_only_take_profits (m : MarketMaker) (w : World)
    (evs : list Event) :
  exists new,
    w_calls (snd (_process_events np_sqrt tm exch_error config m w evs))
    = w_calls w ++ new
    /\ Forall places_take_profit new.
Proof.
  revert m w. induction evs as [|ev rest IH]; intros m w; simpl.
  - exists []. split; [by rewrite app_nil_r | constructor].
  - destruct (process_event_calls m w ev) as (new1 & H1 & F1).
    destruct (_process_event _ _ _ _ _ _ _) as [[r m'] w'].
    destruct (IH m' w') as (new2 & H2 & F2).
    exists (new1 ++ new2). split.
    + rewrite H2. simpl in H1. rewrite H1. by rewrite app_assoc.
    + by apply Forall_app.
Qed.

End WorkerCalls.

(** * Clipping *)

(** X27: [nbclip] keeps a value inside its bounds.  With [min <= max] the
    result lies between the bounds and a value already between them is
    returned as it is, so clipping twice is clipping once. *)
Theorem nbclip_in_range (val lo hi : Q) :
  lo <= hi ->
  lo <= nbclip val lo hi <= hi
  /\ (lo <= val <= hi -> nbclip val lo hi = val)
  /\ nbclip (nbclip val lo hi) lo hi = nbclip val lo hi.
Proof.
  intros Hb.
  assert (Hin : forall v, lo <= v <= hi -> nbclip v lo hi = v).
  { intros v [H1 H2]. unfold nbclip, Qgtb.
    apply Qltb_ge in H1. apply Qltb_ge in H2. by rewrite H1, H2. }
  assert (Hr : lo <= nbclip val lo hi <= hi).
  { unfold nbclip, Qgtb.
    destruct (Qltb val lo) eqn:E1; [split; [apply Qle_refl | exact Hb]|].
    destruct (Qltb hi val) eqn:E2; [split; [exact Hb | apply Qle_refl]|].
    apply Qltb_ge in E1. apply Qltb_ge in E2. by split. }
  split_and!; [apply Hr..|exact (Hin val)|exact (Hin _ Hr)].
Qed.

Lemma nbclip_in_range_witness :
  0 <= nbclip 7 0 1 <= 1
  /\ (0 <= 7 <= 1 -> nbclip 7 0 1 = 7)
  /\ nbclip (nbclip 7 0 1) 0 1 = nbclip 7 0 1.
Proof.
  apply (nbclip_in_range 7 0 1). discriminate.
Defined.
